(** * ADC hardware-trigger / DMA capture example (AdcApp.c)

    A shallow embedding of [mcal/examples/Adc/adc_hw_trig_dma_app/AdcApp.c]
    and the properties of its capture loop.

    The application is a single thread of control (the orchestrator) that
    talks to drivers and hardware, plus one function that runs in interrupt
    context ([Adc_appDmaTransferCallback]).  The orchestrator's functions are
    programs over a type of operations [Op]: every driver call, every
    hardware or cache access and every access to a global is one operation.
    The drivers and the hardware are the environment: an [Env] answers each
    operation from the history so far and decides how many transfer-completion
    interrupts are delivered after it. *)

From Stdlib Require Import ZArith List String Lia Bool.
From stdpp Require Import base strings gmap list.
Import ListNotations.
Local Open Scope Z_scope.

(** ** Machine integers *)

Definition wrap (bits : Z) (x : Z) : Z := x mod 2 ^ bits.
Definition uint16 := wrap 16.
Definition uint32 := wrap 32.
Definition UINT32_MAX : Z := 4294967295.

(** ** Data model *)

(** Addresses the application passes around. *)
Inductive Ptr : Type :=
| NULL_PTR
| Addr_gAdcAppSetupBuffer (grp idx : Z)   (* &gAdcAppSetupBuffer[grp][idx] *)
| Addr_gAdcAppDmaBuffer (grp idx : Z)     (* &gAdcAppDmaBuffer[grp][idx]   *)
| Addr_raw (a : Z).                       (* (void * )(a)                   *)

(** An argument of a configuration call: a number, or an enumerator of a
    driver header, kept by name. *)
Inductive Arg : Type :=
| Num (z : Z)
| Enum (name : string).
Arguments Enum name%_string.

Inductive EPWM_ADCStartOfConversionType : Type := EPWM_SOC_A | EPWM_SOC_B.
Inductive EPWM_TimeBaseCountMode : Type :=
| EPWM_COUNTER_MODE_UP
| EPWM_COUNTER_MODE_STOP_FREEZE.
Inductive Mcal_CacheP_Type : Type := Mcal_CacheP_TYPE_ALL.
Inductive Cdd_Dma_TrigMode : Type := CDD_EDMA_TRIG_MODE_EVENT.
Inductive GT_Level : Type := GT_INFO | GT_ERR.
Inductive AppUtils_TestStatus : Type :=
| APP_UTILS_TEST_STATUS_PASS
| APP_UTILS_TEST_STATUS_FAIL.

(** [Cdd_Dma_ParamEntry]: one transfer descriptor (EDMA PaRAM set). *)
Record Cdd_Dma_ParamEntry : Type := {
  srcPtr : Ptr;
  destPtr : Ptr;
  aCnt : Z;
  bCnt : Z;
  cCnt : Z;
  bCntReload : Z;
  srcBIdx : Z;
  destBIdx : Z;
  srcCIdx : Z;
  destCIdx : Z;
  opt : Z
}.

(** [Vim_IntCfg], as [Adc_appInterruptConfig] fills it. *)
Record Vim_IntCfg : Type := {
  cfg_map : Arg;
  cfg_type : Arg;
  cfg_intNum : Arg;
  cfg_handler : Arg;
  cfg_priority : Arg
}.

(** [Adc_AppLog_t]: one log record. *)
Record Adc_AppLog_t : Type := {
  dmaBuff : Z;    (* Log buffer used for DMA *)
  hwResult : Z;   (* Log ADC HW result *)
  status : Z      (* Log ADC group status *)
}.

Inductive LogField : Type := F_dmaBuff | F_hwResult | F_status.

Definition get_field (f : LogField) (r : Adc_AppLog_t) : Z :=
  match f with
  | F_dmaBuff => dmaBuff r
  | F_hwResult => hwResult r
  | F_status => status r
  end.

Definition set_field (f : LogField) (v : Z) (r : Adc_AppLog_t) : Adc_AppLog_t :=
  match f with
  | F_dmaBuff => {| dmaBuff := v; hwResult := hwResult r; status := status r |}
  | F_hwResult => {| dmaBuff := dmaBuff r; hwResult := v; status := status r |}
  | F_status => {| dmaBuff := dmaBuff r; hwResult := hwResult r; status := v |}
  end.

(** The parts of the ADC configuration the application prints. *)
Record Adc_ChannelConfigType : Type := {
  hwChannelId : Z;
  samplewindow : Z
}.

Record Adc_GroupConfigType : Type := {
  groupId : Z;
  groupPriority : Z;
  hwUnitId : Z;
  Adc_GroupEndNotification : Z;
  streamNumSamples : Z;
  resolution : Z;
  convMode : Z;
  triggSrc : Z;
  accessMode : Z;
  streamBufMode : Z;
  hwTrigSignal : Z;
  hwTrigTimer : Z;
  groupReplacement : Z;
  groupChannelMask : Z;
  groupDataAccessMode : Z;
  numChannels : nat;
  groupDmaChannelId : Z;
  channelConfig : list Adc_ChannelConfigType
}.

Record Adc_HwUnitConfigType : Type := {
  hwUnit_hwUnitId : Z;
  hwUnit_baseAddr : Z;
  hwUnit_prescale : Z;
  hwUnit_resolution : Z
}.

Record Adc_ConfigType : Type := {
  maxGroup : Z;
  maxHwUnit : Z;
  groupCfg : list Adc_GroupConfigType;
  hwUnitCfg : list Adc_HwUnitConfigType
}.

Inductive VersionField : Type :=
| vendorID | moduleID | sw_major_version | sw_minor_version | sw_patch_version.

(** ** Constants of the headers and of the generated configuration

    [AdcApp.c] includes them from [AdcApp.h], [Std_Types.h], the ADC and DMA
    driver headers and the generated configuration; they are parameters
    here.  The loops of [Adc_appInit] index groups, hardware units and
    channels with a [uint8_t], so the counts fit one. *)
Class Config : Type := {
  ADC_MAX_GROUP : nat;
  ADC_MAX_HW_UNIT : nat;
  AdcConfigSet : Adc_ConfigType;
  APP_NAME : string;
  E_OK : Z;
  E_NOT_OK : Z;
  ADC_IDLE : Z;
  ADC_BUSY : Z;
  ADC_COMPLETED : Z;
  ADC_STREAM_COMPLETED : Z;
  CDD_EDMA_OPT_TCINTEN_MASK : Z;
  CDD_EDMA_OPT_ITCINTEN_MASK : Z;
  CDD_EDMA_OPT_SYNCDIM_MASK : Z;
  CDD_EDMA_OPT_STATIC_MASK : Z;
  E_OK_NOT_OK : E_OK <> E_NOT_OK;
  ADC_MAX_GROUP_uint8 : (ADC_MAX_GROUP <= 255)%nat;
  ADC_MAX_HW_UNIT_uint8 : (ADC_MAX_HW_UNIT <= 255)%nat
}.

(** Constants [AdcApp.c] defines itself. *)
Definition ADC_APP_NUM_CHANNEL : Z := 1.
Definition ADC_APP_DEFAULT_STREAM_SAMPLES : Z := 1.
Definition ADC_APP_READ_BUF_SIZE_WORD : Z :=
  ADC_APP_DEFAULT_STREAM_SAMPLES * ADC_APP_NUM_CHANNEL.
Definition ADC_APP_LOOPCNT : nat := 10.
Definition ADC_APP_DMA_CHANNEL : Z := 0.
Definition ADC_APP_GROUP_ID : Z := 0.
Definition ADC_APP_EPWM_BASE_ADDR : Z := 0x50000000.
Definition ADC_APP_LOG_SIZE : nat := 10.

(** [sizeof(Adc_ValueGroupType)]: the application reads a sample as a
    [uint16] and hands the DMA buffer over as a [const uint16 *]. *)
Definition sizeof_Adc_ValueGroupType : Z := 2.

(** ** Operations *)

Inductive Op : Type :=
(* ADC driver *)
| Adc_Init
| Adc_DeInit
| Adc_GetVersionInfo
| Adc_GetGroupStatus (grp : Z)
| Adc_SetupResultBuffer (grp : Z) (buf : Ptr)
| Adc_EnableGroupNotification (grp : Z)
| Adc_DisableGroupNotification (grp : Z)
| Adc_EnableHardwareTrigger (grp : Z)
| Adc_DisableHardwareTrigger (grp : Z)
| Adc_SetInterruptContinuousMode (grp : Z)
| Adc_GetReadResultBaseAddress (grp : Z)
(* DMA driver *)
| Cdd_Dma_Init (cfg : Ptr)
| Cdd_Dma_DeInit
| Cdd_Dma_GetVersionInfo
| Cdd_Dma_CbkRegister (ch : Z) (appData : Ptr)   (* handler: &Adc_appDmaTransferCallback *)
| Cdd_Dma_ParamSet (ch : Z) (paramIdx : Z) (tcc : Z) (p : Cdd_Dma_ParamEntry)
| Cdd_Dma_EnableTransferRegion (ch : Z) (mode : Cdd_Dma_TrigMode)
(* EPWM driver *)
| EPWM_enableADCTrigger (base : Z) (soc : EPWM_ADCStartOfConversionType)
| EPWM_disableADCTrigger (base : Z) (soc : EPWM_ADCStartOfConversionType)
| EPWM_setTimeBaseCounterMode (base : Z) (mode : EPWM_TimeBaseCountMode)
| EPWM_config (fn : string) (base : Z) (args : list Arg)
(* platform and utilities *)
| Adc_appPlatformInit
| Adc_appPlatformDeInit
| vimInit
| vimRegisterInterrupt (cfg : Vim_IntCfg)
| AppUtils_printf (msg : string)
| GT_trace (level : GT_Level) (fmt : string) (args : list Z)
| AppUtils_getStackUsage
| AppUtils_checkStackAndSectionCorruption
| AppUtils_logTestResult (result : AppUtils_TestStatus)
| AppUtils_delay (ms : Z)
| AppUtils_SchM_Enter_EXCLUSIVE_AREA_0
| AppUtils_SchM_Exit_EXCLUSIVE_AREA_0
(* memory shared with the transfer engine, cache, registers *)
| memset (addr : Ptr) (c : Z) (n : Z)
| Mcal_CacheP_wb (addr : Ptr) (size : Z) (ty : Mcal_CacheP_Type)
| Mcal_CacheP_inv (addr : Ptr) (size : Z) (ty : Mcal_CacheP_Type)
| Load_gAdcAppDmaBuffer (grp idx : Z)
| HW_RD_REG16 (addr : Z)
| HW_WR_REG32 (addr : Z) (val : Z)
(* what a driver wrote through an out-parameter *)
| Load_versioninfo (f : VersionField)
(* globals of the application *)
| Load_gTestPassed
| Store_gTestPassed (v : Z)
| Load_gAdcAppLog (idx : nat) (f : LogField)
| Store_gAdcAppLog (idx : nat) (f : LogField) (v : Z).

Arguments EPWM_config fn%_string base args.
Arguments AppUtils_printf msg%_string.
Arguments GT_trace level fmt%_string args.

(** An event of the orchestrator's history: an operation and its result
    (0 for an operation that returns nothing). *)
Record Event : Type := Ev { ev_op : Op; ev_ret : Z }.

(** ** Programs *)

Inductive Prog (A : Type) : Type :=
| Ret (a : A)
| Do (o : Op) (k : Z -> Prog A).
Arguments Ret {A} a.
Arguments Do {A} o k.

Fixpoint bind {A B : Type} (p : Prog A) (f : A -> Prog B) : Prog B :=
  match p with
  | Ret a => f a
  | Do o k => Do o (fun r => bind (k r) f)
  end.

Definition call (o : Op) : Prog Z := Do o Ret.
Definition call_ (o : Op) : Prog unit := Do o (fun _ => Ret tt).

Notation "x <- p ;; q" := (bind p (fun x => q))
  (at level 100, p at next level, right associativity).
Notation "p ;; q" := (bind p (fun _ => q))
  (at level 100, right associativity).

(** [for (i = start; i < start + n; i++) body(i)], with the locals the body
    updates carried in [s]. *)
Fixpoint for_acc {S : Type} (start n : nat) (body : nat -> S -> Prog S) (s : S)
  : Prog S :=
  match n with
  | O => Ret s
  | Datatypes.S n' => s' <- body start s ;; for_acc (Datatypes.S start) n' body s'
  end.

Definition for_each (n : nat) (body : nat -> Prog unit) : Prog unit :=
  for_acc 0 n (fun i _ => body i) tt.

(** ** State

    The globals the processor alone writes, and the history.  The two
    sample buffers, [gAdcAppSetupBuffer] and [gAdcAppDmaBuffer], are handed
    to the ADC driver and to the transfer engine, which write them behind
    the cache: what a read of [gAdcAppDmaBuffer] yields is the environment's
    to say, from the history of [memset], [Mcal_CacheP_wb],
    [Mcal_CacheP_inv] and everything else before it. *)

Record World : Type := {
  gTestPassed : Z;
  gAdcAppDmaCallbackCount : Z;
  gAdcAppLog : list Adc_AppLog_t;
  trace : list Event          (* newest first *)
}.

(** The orchestrator's history, oldest first. *)
Definition history (w : World) : list Event := rev (trace w).

Record Env : Type := {
  (** the result of an operation, from the events before it (newest first) *)
  oracle : list Event -> Op -> Z;
  (** transfer-completion interrupts taken after the newest event *)
  irq : list Event -> nat
}.

Definition quiet (env : Env) : Env :=
  {| oracle := oracle env; irq := fun _ => O |}.

(** One operation of the orchestrator.  Loads of the application's globals
    are answered from the state, everything else by the environment; a read
    of a 16-bit object yields a 16-bit value, the result base address is a
    [uint32]; an operation whose result the application cannot use (a [void]
    function, a store) is recorded with 0. *)
Definition result (env : Env) (o : Op) (w : World) : Z :=
  match o with
  | Load_gTestPassed => gTestPassed w
  | Load_gAdcAppLog idx f =>
      match gAdcAppLog w !! idx with
      | Some r => get_field f r
      | None => 0
      end
  | Adc_GetGroupStatus _
  | Adc_SetupResultBuffer _ _
  | AppUtils_getStackUsage
  | AppUtils_checkStackAndSectionCorruption
  | Load_versioninfo _ => oracle env (trace w) o
  | Adc_GetReadResultBaseAddress _ => uint32 (oracle env (trace w) o)
  | Load_gAdcAppDmaBuffer _ _
  | HW_RD_REG16 _ => uint16 (oracle env (trace w) o)
  | _ => 0
  end.

(** The application only indexes [gAdcAppLog] below [ADC_APP_LOG_SIZE]; a
    store outside the array (undefined in C) leaves it as it is. *)
Definition store_log (idx : nat) (f : LogField) (v : Z) (l : list Adc_AppLog_t)
  : list Adc_AppLog_t :=
  match l !! idx with
  | Some r => <[idx := set_field f v r]> l
  | None => l
  end.

Definition commit (o : Op) (r : Z) (w : World) : World :=
  {| gTestPassed :=
       match o with Store_gTestPassed v => v | _ => gTestPassed w end;
     gAdcAppDmaCallbackCount := gAdcAppDmaCallbackCount w;
     gAdcAppLog :=
       match o with
       | Store_gAdcAppLog idx f v => store_log idx f v (gAdcAppLog w)
       | _ => gAdcAppLog w
       end;
     trace := Ev o r :: trace w |}.

(** ** The completion notifier (interrupt context)

    [static void Adc_appDmaTransferCallback(void *appData)]:
    [gAdcAppDmaCallbackCount++] on a [volatile uint32]. *)
Definition Adc_appDmaTransferCallback (appData : Ptr) (w : World) : World :=
  {| gTestPassed := gTestPassed w;
     gAdcAppDmaCallbackCount := uint32 (gAdcAppDmaCallbackCount w + 1);
     gAdcAppLog := gAdcAppLog w;
     trace := trace w |}.

(** The handler is registered with [NULL_PTR] as its argument
    ([Cdd_Dma_CbkRegister] in [Adc_appInit]). *)
Definition deliver (env : Env) (w : World) : World :=
  Nat.iter (irq env (trace w)) (Adc_appDmaTransferCallback NULL_PTR) w.

(** ** Running a program *)

Fixpoint exec {A : Type} (env : Env) (p : Prog A) (w : World) : A * World :=
  match p with
  | Ret a => (a, w)
  | Do o k =>
      let r := result env o w in
      exec env (k r) (deliver env (commit o r w))
  end.

(** The events a program adds to the history, oldest first. *)
Fixpoint events {A : Type} (env : Env) (p : Prog A) (w : World) : list Event :=
  match p with
  | Ret _ => []
  | Do o k =>
      let r := result env o w in
      Ev o r :: events env (k r) (deliver env (commit o r w))
  end.

(** Every state the run goes through: after each operation of the
    orchestrator and after each activation of the handler. *)
Fixpoint activations (n : nat) (w : World) : list World :=
  match n with
  | O => []
  | S n' =>
      let w' := Adc_appDmaTransferCallback NULL_PTR w in
      w' :: activations n' w'
  end.

Fixpoint worlds {A : Type} (env : Env) (p : Prog A) (w : World) : list World :=
  match p with
  | Ret _ => []
  | Do o k =>
      let r := result env o w in
      let w1 := commit o r w in
      w1 :: activations (irq env (trace w1)) w1
         ++ worlds env (k r) (deliver env w1)
  end.

(** ** The application *)

Section App.
Context `{Config}.

Definition GT_0trace (level : GT_Level) (fmt : string) : Prog unit :=
  call_ (GT_trace level fmt []).
Definition GT_1trace (level : GT_Level) (fmt : string) (a : Z) : Prog unit :=
  call_ (GT_trace level fmt [a]).
Definition GT_3trace (level : GT_Level) (fmt : string) (a b c : Z) : Prog unit :=
  call_ (GT_trace level fmt [a; b; c]).
Definition EPWM (fn : string) (base : Z) (args : list Arg) : Prog unit :=
  call_ (EPWM_config fn base args).

(** [sizeof(gAdcAppDmaBuffer)], for
    [Adc_ValueGroupType gAdcAppDmaBuffer[ADC_MAX_GROUP][ADC_APP_READ_BUF_SIZE_WORD]]. *)
Definition sizeof_gAdcAppDmaBuffer : Z :=
  Z.of_nat ADC_MAX_GROUP * ADC_APP_READ_BUF_SIZE_WORD * sizeof_Adc_ValueGroupType.

(** [void AdcApp_Group0EndNotification(void)] *)
Definition AdcApp_Group0EndNotification : Prog unit := Ret tt.

(** [static void Adc_appPrintStatus(uint32 grpIdx, Adc_StatusType status)] *)
Definition Adc_appPrintStatus (grpIdx : Z) (status : Z) : Prog unit :=
  GT_1trace GT_INFO " ADC Group %d Status: " grpIdx ;;
  if status =? ADC_IDLE then GT_0trace GT_INFO "ADC_IDLE  !"
  else if status =? ADC_BUSY then GT_0trace GT_INFO "ADC_BUSY !"
  else if status =? ADC_COMPLETED then GT_0trace GT_INFO "ADC_COMPLETED !"
  else if status =? ADC_STREAM_COMPLETED
       then GT_0trace GT_INFO "ADC_STREAM_COMPLETED !"
  else Ret tt.

(** [static void Adc_appEpwmEnable(uint32 baseAddr)] *)
Definition Adc_appEpwmEnable (baseAddr : Z) : Prog unit :=
  EPWM "EPWM_setClockPrescaler" baseAddr
    [Enum "EPWM_CLOCK_DIVIDER_8"; Enum "EPWM_HSCLOCK_DIVIDER_1"] ;;
  EPWM "EPWM_setTimeBasePeriod" baseAddr
    [Num 25000] ;;
  EPWM "EPWM_disableGlobalLoadRegisters" baseAddr
    [Enum "EPWM_GL_REGISTER_TBPRD_TBPRDHR"] ;;
  EPWM "EPWM_setPeriodLoadMode" baseAddr
    [Enum "EPWM_PERIOD_SHADOW_LOAD"] ;;
  EPWM "EPWM_setTimeBaseCounter" baseAddr
    [Num 0] ;;
  call_ (EPWM_setTimeBaseCounterMode baseAddr EPWM_COUNTER_MODE_STOP_FREEZE) ;;
  EPWM "EPWM_setCountModeAfterSync" baseAddr
    [Enum "EPWM_COUNT_MODE_DOWN_AFTER_SYNC"] ;;
  EPWM "EPWM_disablePhaseShiftLoad" baseAddr
    [] ;;
  EPWM "EPWM_setPhaseShift" baseAddr
    [Num 0] ;;
  EPWM "EPWM_enableSyncOutPulseSource" baseAddr
    [Num 0] ;;
  EPWM "EPWM_setSyncInPulseSource" baseAddr
    [Enum "EPWM_SYNC_IN_PULSE_SRC_DISABLE"] ;;
  EPWM "EPWM_setOneShotSyncOutTrigger" baseAddr
    [Enum "EPWM_OSHT_SYNC_OUT_TRIG_SYNC"] ;;
  EPWM "EPWM_setCounterCompareValue" baseAddr
    [Enum "EPWM_COUNTER_COMPARE_A"; Num 12500] ;;
  EPWM "EPWM_disableGlobalLoadRegisters" baseAddr
    [Enum "EPWM_GL_REGISTER_CMPA_CMPAHR"] ;;
  EPWM "EPWM_setCounterCompareShadowLoadMode" baseAddr
    [Enum "EPWM_COUNTER_COMPARE_A"; Enum "EPWM_COMP_LOAD_ON_CNTR_ZERO"] ;;
  EPWM "EPWM_setCounterCompareValue" baseAddr
    [Enum "EPWM_COUNTER_COMPARE_B"; Num 0] ;;
  EPWM "EPWM_disableGlobalLoadRegisters" baseAddr
    [Enum "EPWM_GL_REGISTER_CMPB_CMPBHR"] ;;
  EPWM "EPWM_setCounterCompareShadowLoadMode" baseAddr
    [Enum "EPWM_COUNTER_COMPARE_B"; Enum "EPWM_COMP_LOAD_ON_CNTR_ZERO"] ;;
  EPWM "EPWM_setCounterCompareValue" baseAddr
    [Enum "EPWM_COUNTER_COMPARE_C"; Num 0] ;;
  EPWM "EPWM_disableGlobalLoadRegisters" baseAddr
    [Enum "EPWM_GL_REGISTER_CMPC"] ;;
  EPWM "EPWM_setCounterCompareShadowLoadMode" baseAddr
    [Enum "EPWM_COUNTER_COMPARE_C"; Enum "EPWM_COMP_LOAD_ON_CNTR_ZERO"] ;;
  EPWM "EPWM_setCounterCompareValue" baseAddr
    [Enum "EPWM_COUNTER_COMPARE_D"; Num 0] ;;
  EPWM "EPWM_disableGlobalLoadRegisters" baseAddr
    [Enum "EPWM_GL_REGISTER_CMPD"] ;;
  EPWM "EPWM_setCounterCompareShadowLoadMode" baseAddr
    [Enum "EPWM_COUNTER_COMPARE_D"; Enum "EPWM_COMP_LOAD_ON_CNTR_ZERO"] ;;
  EPWM "EPWM_disableGlobalLoadRegisters" baseAddr
    [Enum "EPWM_GL_REGISTER_AQCSFRC"] ;;
  EPWM "EPWM_setActionQualifierContSWForceShadowMode" baseAddr
    [Enum "EPWM_AQ_SW_SH_LOAD_ON_CNTR_ZERO"] ;;
  EPWM "EPWM_disableGlobalLoadRegisters" baseAddr
    [Enum "EPWM_GL_REGISTER_AQCTLA_AQCTLA2"] ;;
  EPWM "EPWM_disableActionQualifierShadowLoadMode" baseAddr
    [Enum "EPWM_ACTION_QUALIFIER_A"] ;;
  EPWM "EPWM_setActionQualifierShadowLoadMode" baseAddr
    [Enum "EPWM_ACTION_QUALIFIER_A"; Enum "EPWM_AQ_LOAD_ON_CNTR_ZERO"] ;;
  EPWM "EPWM_setActionQualifierT1TriggerSource" baseAddr
    [Enum "EPWM_AQ_TRIGGER_EVENT_TRIG_DCA_1"] ;;
  EPWM "EPWM_setActionQualifierT2TriggerSource" baseAddr
    [Enum "EPWM_AQ_TRIGGER_EVENT_TRIG_DCA_1"] ;;
  EPWM "EPWM_setActionQualifierSWAction" baseAddr
    [Enum "EPWM_AQ_OUTPUT_A"; Enum "EPWM_AQ_OUTPUT_NO_CHANGE"] ;;
  EPWM "EPWM_setActionQualifierContSWForceAction" baseAddr
    [Enum "EPWM_AQ_OUTPUT_A"; Enum "EPWM_AQ_SW_DISABLED"] ;;
  EPWM "EPWM_disableGlobalLoadRegisters" baseAddr
    [Enum "EPWM_GL_REGISTER_AQCTLB_AQCTLB2"] ;;
  EPWM "EPWM_disableActionQualifierShadowLoadMode" baseAddr
    [Enum "EPWM_ACTION_QUALIFIER_B"] ;;
  EPWM "EPWM_setActionQualifierShadowLoadMode" baseAddr
    [Enum "EPWM_ACTION_QUALIFIER_B"; Enum "EPWM_AQ_LOAD_ON_CNTR_ZERO"] ;;
  EPWM "EPWM_setActionQualifierT1TriggerSource" baseAddr
    [Enum "EPWM_AQ_TRIGGER_EVENT_TRIG_DCA_1"] ;;
  EPWM "EPWM_setActionQualifierT2TriggerSource" baseAddr
    [Enum "EPWM_AQ_TRIGGER_EVENT_TRIG_DCA_1"] ;;
  EPWM "EPWM_setActionQualifierSWAction" baseAddr
    [Enum "EPWM_AQ_OUTPUT_B"; Enum "EPWM_AQ_OUTPUT_NO_CHANGE"] ;;
  EPWM "EPWM_setActionQualifierContSWForceAction" baseAddr
    [Enum "EPWM_AQ_OUTPUT_B"; Enum "EPWM_AQ_SW_DISABLED"] ;;
  EPWM "EPWM_setActionQualifierAction" baseAddr
    [Enum "EPWM_AQ_OUTPUT_A"; Enum "EPWM_AQ_OUTPUT_NO_CHANGE"; Enum "EPWM_AQ_OUTPUT_ON_TIMEBASE_ZERO"] ;;
  EPWM "EPWM_setActionQualifierAction" baseAddr
    [Enum "EPWM_AQ_OUTPUT_A"; Enum "EPWM_AQ_OUTPUT_NO_CHANGE"; Enum "EPWM_AQ_OUTPUT_ON_TIMEBASE_PERIOD"] ;;
  EPWM "EPWM_setActionQualifierAction" baseAddr
    [Enum "EPWM_AQ_OUTPUT_A"; Enum "EPWM_AQ_OUTPUT_HIGH"; Enum "EPWM_AQ_OUTPUT_ON_TIMEBASE_UP_CMPA"] ;;
  EPWM "EPWM_setActionQualifierAction" baseAddr
    [Enum "EPWM_AQ_OUTPUT_A"; Enum "EPWM_AQ_OUTPUT_LOW"; Enum "EPWM_AQ_OUTPUT_ON_TIMEBASE_DOWN_CMPA"] ;;
  EPWM "EPWM_setActionQualifierAction" baseAddr
    [Enum "EPWM_AQ_OUTPUT_A"; Enum "EPWM_AQ_OUTPUT_NO_CHANGE"; Enum "EPWM_AQ_OUTPUT_ON_TIMEBASE_UP_CMPB"] ;;
  EPWM "EPWM_setActionQualifierAction" baseAddr
    [Enum "EPWM_AQ_OUTPUT_A"; Enum "EPWM_AQ_OUTPUT_NO_CHANGE"; Enum "EPWM_AQ_OUTPUT_ON_TIMEBASE_DOWN_CMPB"] ;;
  EPWM "EPWM_setActionQualifierAction" baseAddr
    [Enum "EPWM_AQ_OUTPUT_A"; Enum "EPWM_AQ_OUTPUT_NO_CHANGE"; Enum "EPWM_AQ_OUTPUT_ON_T1_COUNT_UP"] ;;
  EPWM "EPWM_setActionQualifierAction" baseAddr
    [Enum "EPWM_AQ_OUTPUT_A"; Enum "EPWM_AQ_OUTPUT_NO_CHANGE"; Enum "EPWM_AQ_OUTPUT_ON_T1_COUNT_DOWN"] ;;
  EPWM "EPWM_setActionQualifierAction" baseAddr
    [Enum "EPWM_AQ_OUTPUT_A"; Enum "EPWM_AQ_OUTPUT_NO_CHANGE"; Enum "EPWM_AQ_OUTPUT_ON_T2_COUNT_UP"] ;;
  EPWM "EPWM_setActionQualifierAction" baseAddr
    [Enum "EPWM_AQ_OUTPUT_A"; Enum "EPWM_AQ_OUTPUT_NO_CHANGE"; Enum "EPWM_AQ_OUTPUT_ON_T2_COUNT_DOWN"] ;;
  EPWM "EPWM_setActionQualifierAction" baseAddr
    [Enum "EPWM_AQ_OUTPUT_B"; Enum "EPWM_AQ_OUTPUT_NO_CHANGE"; Enum "EPWM_AQ_OUTPUT_ON_TIMEBASE_ZERO"] ;;
  EPWM "EPWM_setActionQualifierAction" baseAddr
    [Enum "EPWM_AQ_OUTPUT_B"; Enum "EPWM_AQ_OUTPUT_NO_CHANGE"; Enum "EPWM_AQ_OUTPUT_ON_TIMEBASE_PERIOD"] ;;
  EPWM "EPWM_setActionQualifierAction" baseAddr
    [Enum "EPWM_AQ_OUTPUT_B"; Enum "EPWM_AQ_OUTPUT_NO_CHANGE"; Enum "EPWM_AQ_OUTPUT_ON_TIMEBASE_UP_CMPA"] ;;
  EPWM "EPWM_setActionQualifierAction" baseAddr
    [Enum "EPWM_AQ_OUTPUT_B"; Enum "EPWM_AQ_OUTPUT_NO_CHANGE"; Enum "EPWM_AQ_OUTPUT_ON_TIMEBASE_DOWN_CMPA"] ;;
  EPWM "EPWM_setActionQualifierAction" baseAddr
    [Enum "EPWM_AQ_OUTPUT_B"; Enum "EPWM_AQ_OUTPUT_NO_CHANGE"; Enum "EPWM_AQ_OUTPUT_ON_TIMEBASE_UP_CMPB"] ;;
  EPWM "EPWM_setActionQualifierAction" baseAddr
    [Enum "EPWM_AQ_OUTPUT_B"; Enum "EPWM_AQ_OUTPUT_NO_CHANGE"; Enum "EPWM_AQ_OUTPUT_ON_TIMEBASE_DOWN_CMPB"] ;;
  EPWM "EPWM_setActionQualifierAction" baseAddr
    [Enum "EPWM_AQ_OUTPUT_B"; Enum "EPWM_AQ_OUTPUT_NO_CHANGE"; Enum "EPWM_AQ_OUTPUT_ON_T1_COUNT_UP"] ;;
  EPWM "EPWM_setActionQualifierAction" baseAddr
    [Enum "EPWM_AQ_OUTPUT_B"; Enum "EPWM_AQ_OUTPUT_NO_CHANGE"; Enum "EPWM_AQ_OUTPUT_ON_T1_COUNT_DOWN"] ;;
  EPWM "EPWM_setActionQualifierAction" baseAddr
    [Enum "EPWM_AQ_OUTPUT_B"; Enum "EPWM_AQ_OUTPUT_NO_CHANGE"; Enum "EPWM_AQ_OUTPUT_ON_T2_COUNT_UP"] ;;
  EPWM "EPWM_setActionQualifierAction" baseAddr
    [Enum "EPWM_AQ_OUTPUT_B"; Enum "EPWM_AQ_OUTPUT_NO_CHANGE"; Enum "EPWM_AQ_OUTPUT_ON_T2_COUNT_DOWN"] ;;
  EPWM "EPWM_disableInterrupt" baseAddr
    [] ;;
  EPWM "EPWM_setInterruptSource" baseAddr
    [Enum "EPWM_INT_TBCTR_ZERO"; Enum "EPWM_INT_TBCTR_ZERO"] ;;
  EPWM "EPWM_setInterruptEventCount" baseAddr
    [Num 0] ;;
  EPWM "EPWM_disableInterruptEventCountInit" baseAddr
    [] ;;
  EPWM "EPWM_setInterruptEventCountInitValue" baseAddr
    [Num 0] ;;
  call_ (EPWM_enableADCTrigger baseAddr EPWM_SOC_A) ;;
  EPWM "EPWM_setADCTriggerSource" baseAddr
    [Enum "EPWM_SOC_A"; Enum "EPWM_SOC_TBCTR_U_CMPA"; Enum "EPWM_SOC_TBCTR_U_CMPA"] ;;
  EPWM "EPWM_setADCTriggerEventPrescale" baseAddr
    [Enum "EPWM_SOC_A"; Num 1] ;;
  EPWM "EPWM_disableADCTriggerEventCountInit" baseAddr
    [Enum "EPWM_SOC_A"] ;;
  EPWM "EPWM_setADCTriggerEventCountInitValue" baseAddr
    [Enum "EPWM_SOC_A"; Num 0] ;;
  call_ (EPWM_disableADCTrigger baseAddr EPWM_SOC_B) ;;
  EPWM "EPWM_setADCTriggerSource" baseAddr
    [Enum "EPWM_SOC_B"; Enum "EPWM_SOC_DCxEVT1"; Enum "EPWM_SOC_DCxEVT1"] ;;
  EPWM "EPWM_setADCTriggerEventPrescale" baseAddr
    [Enum "EPWM_SOC_B"; Num 0] ;;
  EPWM "EPWM_disableADCTriggerEventCountInit" baseAddr
    [Enum "EPWM_SOC_B"] ;;
  EPWM "EPWM_setADCTriggerEventCountInitValue" baseAddr
    [Enum "EPWM_SOC_B"; Num 0] ;;
  EPWM "EPWM_disableGlobalLoad" baseAddr
    [] ;;
  EPWM "EPWM_setGlobalLoadTrigger" baseAddr
    [Enum "EPWM_GL_LOAD_PULSE_CNTR_ZERO"] ;;
  EPWM "EPWM_setGlobalLoadEventPrescale" baseAddr
    [Num 0] ;;
  EPWM "EPWM_disableGlobalLoadOneShotMode" baseAddr
    [] ;;
  EPWM "EPWM_lockRegisters" baseAddr
    [Num 0].

(** [static void Adc_appDisableTrigger(uint32 baseAddr)] *)
Definition Adc_appDisableTrigger (baseAddr : Z) : Prog unit :=
  call_ (EPWM_disableADCTrigger baseAddr EPWM_SOC_A) ;;
  call_ (EPWM_disableADCTrigger baseAddr EPWM_SOC_B) ;;
  call_ (EPWM_setTimeBaseCounterMode baseAddr EPWM_COUNTER_MODE_STOP_FREEZE).

(** [static void Adc_appDmaConfigure(const uint16 *destPtr, uint16 length,
                                     uint32 dmaCh, uint32 srcAddr)] *)
Definition Adc_appDmaConfigure_edmaParam (destPtr : Ptr) (length : Z) (srcAddr : Z)
  : Cdd_Dma_ParamEntry :=
  {| srcPtr := Addr_raw srcAddr;
     destPtr := destPtr;
     aCnt := uint16 length;
     bCnt := uint16 1;
     cCnt := uint16 1;
     bCntReload := 0;
     srcBIdx := 0;
     destBIdx := 0;
     srcCIdx := 0;
     destCIdx := 2;
     opt := Z.lor (Z.lor (Z.lor CDD_EDMA_OPT_TCINTEN_MASK CDD_EDMA_OPT_ITCINTEN_MASK)
                         CDD_EDMA_OPT_SYNCDIM_MASK)
                  CDD_EDMA_OPT_STATIC_MASK |}.

Definition Adc_appDmaConfigure (destPtr : Ptr) (length : Z) (dmaCh : Z) (srcAddr : Z)
  : Prog unit :=
  let edmaParam := Adc_appDmaConfigure_edmaParam destPtr length srcAddr in
  call_ (Cdd_Dma_ParamSet dmaCh 0 0 edmaParam) ;;
  call_ (Cdd_Dma_EnableTransferRegion dmaCh CDD_EDMA_TRIG_MODE_EVENT).

(** [static void Adc_appInterruptConfig(void)] *)
Definition Adc_appInterruptConfig : Prog unit :=
  call_ vimInit ;;
  let intCfg :=
    {| cfg_map := Enum "VIM_INTTYPE_IRQ";
       cfg_type := Enum "VIM_INTTRIGTYPE_PULSE";
       cfg_intNum := Enum "MCAL_CSLR_R5FSS0_CORE0_INTR_TPCC0_INTAGGR";
       cfg_handler := Enum "CDD_EDMA_lld_transferCompletionMasterIsrFxn";
       cfg_priority := Enum "VIM_PRIORITY_4" |} in
  call_ (vimRegisterInterrupt intCfg).

(** Entries of the configuration tables; the tables have an entry for
    every index the loops use, an index outside them reads zeros here. *)
Definition no_group : Adc_GroupConfigType :=
  {| groupId := 0; groupPriority := 0; hwUnitId := 0;
     Adc_GroupEndNotification := 0; streamNumSamples := 0; resolution := 0;
     convMode := 0; triggSrc := 0; accessMode := 0; streamBufMode := 0;
     hwTrigSignal := 0; hwTrigTimer := 0; groupReplacement := 0;
     groupChannelMask := 0; groupDataAccessMode := 0; numChannels := O;
     groupDmaChannelId := 0; channelConfig := [] |}.
Definition no_hwUnit : Adc_HwUnitConfigType :=
  {| hwUnit_hwUnitId := 0; hwUnit_baseAddr := 0; hwUnit_prescale := 0;
     hwUnit_resolution := 0 |}.
Definition no_channel : Adc_ChannelConfigType :=
  {| hwChannelId := 0; samplewindow := 0 |}.

(** [static void Adc_appInit(void)] *)
Definition Adc_appInit : Prog unit :=
  call_ Adc_appPlatformInit ;;
  call_ (Cdd_Dma_Init NULL_PTR) ;;
  call_ Adc_Init ;;
  Adc_appInterruptConfig ;;
  call_ (Cdd_Dma_CbkRegister ADC_APP_DMA_CHANNEL NULL_PTR) ;;
  call_ (AppUtils_printf (APP_NAME +:+ ": STARTS !!!\r\n")) ;;
  (* ADC - Get and print version *)
  call_ Adc_GetVersionInfo ;;
  GT_0trace GT_INFO " \r\n" ;;
  GT_0trace GT_INFO " ADC MCAL Version Info\r\n" ;;
  GT_0trace GT_INFO " ---------------------\r\n" ;;
  v <- call (Load_versioninfo vendorID) ;;
  GT_1trace GT_INFO " Vendor ID           : %d\r\n" v ;;
  v <- call (Load_versioninfo moduleID) ;;
  GT_1trace GT_INFO " Module ID           : %d\r\n" v ;;
  v <- call (Load_versioninfo sw_major_version) ;;
  GT_1trace GT_INFO " SW Major Version    : %d\r\n" v ;;
  v <- call (Load_versioninfo sw_minor_version) ;;
  GT_1trace GT_INFO " SW Minor Version    : %d\r\n" v ;;
  v <- call (Load_versioninfo sw_patch_version) ;;
  GT_1trace GT_INFO " SW Patch Version    : %d\r\n" v ;;
  GT_0trace GT_INFO " \r\n" ;;
  (* DMA - Get and print version *)
  call_ Cdd_Dma_GetVersionInfo ;;
  GT_0trace GT_INFO " \r\n" ;;
  GT_0trace GT_INFO " DMA MCAL Version Info\r\n" ;;
  GT_0trace GT_INFO " ---------------------\r\n" ;;
  v <- call (Load_versioninfo vendorID) ;;
  GT_1trace GT_INFO " Vendor ID           : %d\r\n" v ;;
  v <- call (Load_versioninfo moduleID) ;;
  GT_1trace GT_INFO " Module ID           : %d\r\n" v ;;
  v <- call (Load_versioninfo sw_major_version) ;;
  GT_1trace GT_INFO " SW Major Version    : %d\r\n" v ;;
  v <- call (Load_versioninfo sw_minor_version) ;;
  GT_1trace GT_INFO " SW Minor Version    : %d\r\n" v ;;
  v <- call (Load_versioninfo sw_patch_version) ;;
  GT_1trace GT_INFO " SW Patch Version    : %d\r\n" v ;;
  GT_0trace GT_INFO " \r\n" ;;
  (* Print ADC Config *)
  GT_0trace GT_INFO " \r\n" ;;
  GT_0trace GT_INFO " AdcConfigSet\r\n" ;;
  GT_0trace GT_INFO " ------------\r\n" ;;
  GT_1trace GT_INFO "  maxGroup     : %d\r\n" (maxGroup AdcConfigSet) ;;
  GT_1trace GT_INFO "  maxHwUnit    : %d\r\n" (maxHwUnit AdcConfigSet) ;;
  for_each ADC_MAX_GROUP (fun grpIdx =>
     let grpCfg := nth grpIdx (groupCfg AdcConfigSet) no_group in
     GT_1trace GT_INFO "  Group %d                       \r\n" (Z.of_nat grpIdx) ;;
     GT_1trace GT_INFO "   groupId                   : %d\r\n" (groupId grpCfg) ;;
     GT_1trace GT_INFO "   groupPriority             : %d\r\n" (groupPriority grpCfg) ;;
     GT_1trace GT_INFO "   hwUnitId                  : %d\r\n" (hwUnitId grpCfg) ;;
     GT_1trace GT_INFO "   Adc_GroupEndNotification  : 0x%08x\r\n" (Adc_GroupEndNotification grpCfg) ;;
     GT_1trace GT_INFO "   streamNumSamples          : %d\r\n" (streamNumSamples grpCfg) ;;
     GT_1trace GT_INFO "   resolution                : %d\r\n" (resolution grpCfg) ;;
     GT_1trace GT_INFO "   convMode                  : %d\r\n" (convMode grpCfg) ;;
     GT_1trace GT_INFO "   triggSrc                  : %d\r\n" (triggSrc grpCfg) ;;
     GT_1trace GT_INFO "   accessMode                : %d\r\n" (accessMode grpCfg) ;;
     GT_1trace GT_INFO "   streamBufMode             : %d\r\n" (streamBufMode grpCfg) ;;
     GT_1trace GT_INFO "   hwTrigSignal              : %d\r\n" (hwTrigSignal grpCfg) ;;
     GT_1trace GT_INFO "   hwTrigTimer               : %d\r\n" (hwTrigTimer grpCfg) ;;
     GT_1trace GT_INFO "   groupReplacement          : %d\r\n" (groupReplacement grpCfg) ;;
     GT_1trace GT_INFO "   groupChannelMask          : 0x%08x\r\n" (groupChannelMask grpCfg) ;;
     GT_1trace GT_INFO "   groupDataAccessMode       : %d\r\n" (groupDataAccessMode grpCfg) ;;
     GT_1trace GT_INFO "   numChannels               : %d\r\n" (Z.of_nat (numChannels grpCfg)) ;;
     GT_1trace GT_INFO "   groupDmaChannelId         : %d\r\n" (groupDmaChannelId grpCfg) ;;
     for_each (numChannels grpCfg) (fun chIdx =>
        let chCfg := nth chIdx (channelConfig grpCfg) no_channel in
        GT_1trace GT_INFO "    channelConfig %d   \r\n" (Z.of_nat chIdx) ;;
        GT_1trace GT_INFO "     hwChannelId   : %d\r\n" (hwChannelId chCfg) ;;
        GT_1trace GT_INFO "     samplewindow  : %d\r\n" (samplewindow chCfg))) ;;
  for_each ADC_MAX_HW_UNIT (fun hwUnitIdx =>
     let hwUnitCfg := nth hwUnitIdx (hwUnitCfg AdcConfigSet) no_hwUnit in
     GT_1trace GT_INFO "  HW Unit %d           \r\n" (Z.of_nat hwUnitIdx) ;;
     GT_1trace GT_INFO "   hwUnitId    : %d\r\n" (hwUnit_hwUnitId hwUnitCfg) ;;
     GT_1trace GT_INFO "   baseAddr    : 0x%08x\r\n" (hwUnit_baseAddr hwUnitCfg) ;;
     GT_1trace GT_INFO "   prescale    : %d\r\n" (hwUnit_prescale hwUnitCfg) ;;
     GT_1trace GT_INFO "   resolution  : %d\r\n" (hwUnit_resolution hwUnitCfg)) ;;
  GT_0trace GT_INFO " ------------\r\n".

(** One poll tick of [Adc_appPrintResult]: the body of its first
    [logIndex] loop. *)
Definition Adc_appPrintResult_poll (dmaDataAddr : Z) (logIndex : nat) : Prog unit :=
  call_ (Mcal_CacheP_inv (Addr_gAdcAppDmaBuffer 0 0) sizeof_gAdcAppDmaBuffer
           Mcal_CacheP_TYPE_ALL) ;;
  v <- call (Load_gAdcAppDmaBuffer 0 0) ;;
  call_ (Store_gAdcAppLog logIndex F_dmaBuff v) ;;
  v <- call (HW_RD_REG16 dmaDataAddr) ;;
  call_ (Store_gAdcAppLog logIndex F_hwResult v) ;;
  v <- call (Adc_GetGroupStatus 0) ;;
  call_ (Store_gAdcAppLog logIndex F_status v) ;;
  call_ (AppUtils_delay 100). (* Capture log every 100ms *)

(** The body of the second [logIndex] loop. *)
Definition Adc_appPrintResult_print (logIndex : nat) : Prog unit :=
  GT_1trace GT_INFO " [Log %d] " (Z.of_nat logIndex) ;;
  v <- call (Load_gAdcAppLog logIndex F_dmaBuff) ;;
  GT_1trace GT_INFO " dmaBuff: %d," v ;;
  v <- call (Load_gAdcAppLog logIndex F_hwResult) ;;
  GT_1trace GT_INFO " HWResult: %d," v ;;
  GT_0trace GT_INFO "     " ;;
  v <- call (Load_gAdcAppLog logIndex F_status) ;;
  Adc_appPrintStatus 0 v ;;
  GT_0trace GT_INFO " \r\n".

(** [Adc_appPrintResult], up to the read of the result base address: the
    banner and the line of each group. *)
Definition Adc_appPrintResult_header (loopcnt : nat) : Prog unit :=
  GT_0trace GT_INFO " \r\n" ;;
  GT_1trace GT_INFO " Read Buffer Content (Loop %d)\r\n" (Z.of_nat loopcnt) ;;
  GT_0trace GT_INFO " ----------------------------\r\n" ;;
  for_each ADC_MAX_GROUP (fun grpIdx =>
     let grpCfg := nth grpIdx (groupCfg AdcConfigSet) no_group in
     let hwUnitCfg :=
       nth (Z.to_nat (hwUnitId grpCfg)) (hwUnitCfg AdcConfigSet) no_hwUnit in
     GT_3trace GT_INFO " ADC Group %d, HW Unit %d, Base 0x%08X:\r\n"
       (Z.of_nat grpIdx) (hwUnit_hwUnitId hwUnitCfg) (hwUnit_baseAddr hwUnitCfg) ;;
     GT_0trace GT_INFO " ----------------------------------------\r\n").

(** [static void Adc_appPrintResult(uint32 loopcnt)] *)
Definition Adc_appPrintResult (loopcnt : nat) : Prog unit :=
  Adc_appPrintResult_header loopcnt ;;
  dmaDataAddr <- call (Adc_GetReadResultBaseAddress ADC_APP_GROUP_ID) ;;
  for_each ADC_APP_LOG_SIZE (Adc_appPrintResult_poll dmaDataAddr) ;;
  for_each ADC_APP_LOG_SIZE Adc_appPrintResult_print ;;
  GT_0trace GT_INFO " \r\n".

(** [Adc_appTest], "Setup all groups": the body of the first loop, with the
    local [testPassed] it updates. *)
Definition Adc_appTest_setup_group (grpIdx : nat) (testPassed : Z) : Prog Z :=
  (* Check group status - it should be idle *)
  status <- call (Adc_GetGroupStatus (Z.of_nat grpIdx)) ;;
  Adc_appPrintStatus (Z.of_nat grpIdx) status ;;
  GT_0trace GT_INFO " \r\n" ;;
  testPassed <-
    (if negb (status =? ADC_IDLE)
     then GT_1trace GT_ERR " ADC Group %d is not IDLE!!\r\n" (Z.of_nat grpIdx) ;;
          Ret E_NOT_OK
     else Ret testPassed) ;;
  retVal <- call (Adc_SetupResultBuffer (Z.of_nat grpIdx)
                    (Addr_gAdcAppSetupBuffer (Z.of_nat grpIdx) 0)) ;;
  if negb (retVal =? E_OK)
  then GT_1trace GT_ERR " ADC Group %d setup buffer failed!!\r\n" (Z.of_nat grpIdx) ;;
       Ret E_NOT_OK
  else Ret testPassed.

Definition Adc_appTest_setup : Prog Z :=
  for_acc 0 ADC_MAX_GROUP Adc_appTest_setup_group E_OK.

(** [Adc_appTest], the body of the [loopcnt] loop up to the call of
    [Adc_appPrintResult]. *)
Definition Adc_appTest_arm : Prog unit :=
  (* Reset buffers and perform a cache write back *)
  call_ (memset (Addr_gAdcAppDmaBuffer 0 0) 0 sizeof_gAdcAppDmaBuffer) ;;
  call_ (Mcal_CacheP_wb (Addr_gAdcAppDmaBuffer 0 0) sizeof_gAdcAppDmaBuffer
           Mcal_CacheP_TYPE_ALL) ;;
  for_each ADC_MAX_GROUP (fun grpIdx =>
     call_ (Adc_EnableGroupNotification (Z.of_nat grpIdx))) ;;
  (* Enable hardware trigger *)
  call_ (Adc_EnableHardwareTrigger ADC_APP_GROUP_ID) ;;
  (* Enable continue to interrupt mode *)
  call_ (Adc_SetInterruptContinuousMode ADC_APP_GROUP_ID) ;;
  (* Configure DMA channel *)
  dmaDataAddr <- call (Adc_GetReadResultBaseAddress ADC_APP_GROUP_ID) ;;
  Adc_appDmaConfigure (Addr_gAdcAppDmaBuffer 0 0) (ADC_APP_NUM_CHANNEL * 2)
    ADC_APP_DMA_CHANNEL dmaDataAddr ;;
  (* Configure EPWM for ADC trigger *)
  Adc_appEpwmEnable ADC_APP_EPWM_BASE_ADDR ;;
  call_ (EPWM_setTimeBaseCounterMode ADC_APP_EPWM_BASE_ADDR EPWM_COUNTER_MODE_UP) ;;
  (* Enable EPWM TBCLK SYNC in CONTROLSS_CTRL to start EPWM *)
  call_ (HW_WR_REG32 (0x502F0000 + 0x1008) 0x01234567) ;;
  call_ (HW_WR_REG32 (0x502F0000 + 0x100C) 0xFEDCBA8) ;;
  call_ (HW_WR_REG32 (0x502F0000 + 0x0010) 0x00000001).

(** [Adc_appTest], the body of the [loopcnt] loop after the call of
    [Adc_appPrintResult]. *)
Definition Adc_appTest_disableTrigger : Prog unit :=
  (* Disable hardware trigger for Group 0 *)
  Adc_appDisableTrigger ADC_APP_EPWM_BASE_ADDR ;;
  call_ (Adc_DisableHardwareTrigger ADC_APP_GROUP_ID).

Definition Adc_appTest_disarm : Prog unit :=
  Adc_appTest_disableTrigger ;;
  for_each ADC_MAX_GROUP (fun grpIdx =>
     call_ (Adc_DisableGroupNotification (Z.of_nat grpIdx))).

Definition Adc_appTest_iteration (loopcnt : nat) : Prog unit :=
  Adc_appTest_arm ;;
  Adc_appPrintResult loopcnt ;;
  Adc_appTest_disarm.

(** [static void Adc_appTest(void)] *)
Definition Adc_appTest : Prog unit :=
  testPassed <- Adc_appTest_setup ;;
  for_each ADC_APP_LOOPCNT Adc_appTest_iteration ;;
  if negb (testPassed =? E_OK)
  then call_ (Store_gTestPassed E_NOT_OK)
  else Ret tt.

(** [static void Adc_appDeInit(void)] *)
Definition Adc_appDeInit : Prog unit :=
  usage <- call AppUtils_getStackUsage ;;
  GT_1trace GT_INFO (APP_NAME +:+ ": Stack Usage: %d bytes\n\r") usage ;;
  corrupt <- call AppUtils_checkStackAndSectionCorruption ;;
  (if negb (corrupt =? E_OK)
   then call_ (Store_gTestPassed E_NOT_OK) ;;
        GT_0trace GT_ERR (APP_NAME +:+ ": Stack/section corruption!!!\n\r")
   else Ret tt) ;;
  passed <- call Load_gTestPassed ;;
  (if E_OK =? passed
   then call_ (AppUtils_printf (APP_NAME +:+ ": DONE (Passed) !!!\r\n")) ;;
        call_ (AppUtils_printf (APP_NAME +:+ ": All tests have passed\r\n")) ;;
        call_ (AppUtils_logTestResult APP_UTILS_TEST_STATUS_PASS)
   else call_ (AppUtils_printf (APP_NAME +:+ ": DONE (Failed) !!!\r\n")) ;;
        call_ (AppUtils_logTestResult APP_UTILS_TEST_STATUS_FAIL)) ;;
  call_ Adc_DeInit ;;
  call_ Cdd_Dma_DeInit ;;
  call_ Adc_appPlatformDeInit.

(** [int main(void)] *)
Definition main : Prog Z :=
  Adc_appInit ;;
  Adc_appTest ;;
  Adc_appDeInit ;;
  Ret 0.

(** The exclusive-area hooks the drivers call. *)
Definition SchM_Enter_Mcu_MCU_EXCLUSIVE_AREA_0 : Prog unit :=
  call_ AppUtils_SchM_Enter_EXCLUSIVE_AREA_0.
Definition SchM_Exit_Mcu_MCU_EXCLUSIVE_AREA_0 : Prog unit :=
  call_ AppUtils_SchM_Exit_EXCLUSIVE_AREA_0.
Definition SchM_Enter_Port_PORT_EXCLUSIVE_AREA_0 : Prog unit :=
  call_ AppUtils_SchM_Enter_EXCLUSIVE_AREA_0.
Definition SchM_Exit_Port_PORT_EXCLUSIVE_AREA_0 : Prog unit :=
  call_ AppUtils_SchM_Exit_EXCLUSIVE_AREA_0.
Definition SchM_Enter_Adc_ADC_EXCLUSIVE_AREA_0 : Prog unit :=
  call_ AppUtils_SchM_Enter_EXCLUSIVE_AREA_0.
Definition SchM_Exit_Adc_ADC_EXCLUSIVE_AREA_0 : Prog unit :=
  call_ AppUtils_SchM_Exit_EXCLUSIVE_AREA_0.
Definition SchM_Enter_Cdd_Dma_DMA_EXCLUSIVE_AREA_0 : Prog unit :=
  call_ AppUtils_SchM_Enter_EXCLUSIVE_AREA_0.
Definition SchM_Exit_Cdd_Dma_DMA_EXCLUSIVE_AREA_0 : Prog unit :=
  call_ AppUtils_SchM_Exit_EXCLUSIVE_AREA_0.

(** The state the program starts in: the initialisers of the globals. *)
Definition initial_world : World :=
  {| gTestPassed := E_OK;
     gAdcAppDmaCallbackCount := 0;
     gAdcAppLog :=
       replicate ADC_APP_LOG_SIZE {| dmaBuff := 0; hwResult := 0; status := 0 |};
     trace := [] |}.

End App.

(** * Properties *)

(** ** The semantics of programs *)

Lemma exec_bind {A B : Type} (env : Env) (p : Prog A) (f : A -> Prog B) (w : World) :
  exec env (bind p f) w = exec env (f (exec env p w).1) (exec env p w).2.
Proof.
  revert w. induction p as [a | o k IH]; intros w; simpl; [reflexivity | apply IH].
Qed.

Lemma events_bind {A B : Type} (env : Env) (p : Prog A) (f : A -> Prog B) (w : World) :
  events env (bind p f) w
  = events env p w ++ events env (f (exec env p w).1) (exec env p w).2.
Proof.
  revert w. induction p as [a | o k IH]; intros w; simpl; [reflexivity |].
  f_equal. apply IH.
Qed.

Lemma worlds_bind {A B : Type} (env : Env) (p : Prog A) (f : A -> Prog B) (w : World) :
  worlds env (bind p f) w
  = worlds env p w ++ worlds env (f (exec env p w).1) (exec env p w).2.
Proof.
  revert w. induction p as [a | o k IH]; intros w; simpl; [reflexivity |].
  f_equal. rewrite <- app_assoc. f_equal. apply IH.
Qed.

(** The handler touches the counter and nothing else. *)
Lemma callback_iter (n : nat) (w : World) :
  Nat.iter n (Adc_appDmaTransferCallback NULL_PTR) w
  = {| gTestPassed := gTestPassed w;
       gAdcAppDmaCallbackCount :=
         Nat.iter n (fun c => uint32 (c + 1)) (gAdcAppDmaCallbackCount w);
       gAdcAppLog := gAdcAppLog w;
       trace := trace w |}.
Proof.
  induction n as [| n IH]; simpl.
  - destruct w; reflexivity.
  - rewrite IH. reflexivity.
Qed.

Lemma trace_deliver (env : Env) (w : World) : trace (deliver env w) = trace w.
Proof. unfold deliver. rewrite callback_iter. reflexivity. Qed.

Lemma gTestPassed_deliver (env : Env) (w : World) :
  gTestPassed (deliver env w) = gTestPassed w.
Proof. unfold deliver. rewrite callback_iter. reflexivity. Qed.

Lemma gAdcAppLog_deliver (env : Env) (w : World) :
  gAdcAppLog (deliver env w) = gAdcAppLog w.
Proof. unfold deliver. rewrite callback_iter. reflexivity. Qed.

(** The history only grows, by the events of the program. *)
Lemma trace_exec {A : Type} (env : Env) (p : Prog A) (w : World) :
  trace (exec env p w).2 = rev (events env p w) ++ trace w.
Proof.
  revert w. induction p as [a | o k IH]; intros w; simpl; [reflexivity |].
  rewrite IH, trace_deliver. simpl. rewrite <- app_assoc. reflexivity.
Qed.

Lemma history_exec {A : Type} (env : Env) (p : Prog A) (w : World) :
  history (exec env p w).2 = history w ++ events env p w.
Proof.
  unfold history. rewrite trace_exec, rev_app_distr, rev_involutive. reflexivity.
Qed.

(** Two states the orchestrator cannot tell apart: they differ at most in
    the completion counter, which no operation reads. *)
Definition same_view (w1 w2 : World) : Prop :=
  gTestPassed w1 = gTestPassed w2
  /\ gAdcAppLog w1 = gAdcAppLog w2
  /\ trace w1 = trace w2.

Lemma same_view_refl (w : World) : same_view w w.
Proof. repeat split. Qed.

Lemma same_view_deliver (env : Env) (w : World) : same_view (deliver env w) w.
Proof.
  repeat split;
    [apply gTestPassed_deliver | apply gAdcAppLog_deliver | apply trace_deliver].
Qed.

Lemma same_view_result (env : Env) (o : Op) (w1 w2 : World) :
  same_view w1 w2 -> result env o w1 = result (quiet env) o w2.
Proof.
  intros (Hp & Hl & Ht). destruct o; simpl; rewrite ?Hp, ?Hl, ?Ht; reflexivity.
Qed.

Lemma same_view_commit (o : Op) (r : Z) (w1 w2 : World) :
  same_view w1 w2 -> same_view (commit o r w1) (commit o r w2).
Proof.
  intros (Hp & Hl & Ht). repeat split; simpl; rewrite ?Hp, ?Hl, ?Ht; reflexivity.
Qed.

(** Interrupts do not change what the orchestrator does: its results, its
    events and its view of the state are those of the run in which no
    interrupt is taken. *)
Lemma exec_quiet {A : Type} (env : Env) (p : Prog A) (w1 w2 : World) :
  same_view w1 w2 ->
  (exec env p w1).1 = (exec (quiet env) p w2).1
  /\ same_view (exec env p w1).2 (exec (quiet env) p w2).2
  /\ events env p w1 = events (quiet env) p w2.
Proof.
  revert w1 w2. induction p as [a | o k IH]; intros w1 w2 Hv; simpl.
  - repeat split; apply Hv.
  - rewrite (same_view_result env o w1 w2 Hv).
    set (r := result (quiet env) o w2).
    assert (Hv' : same_view (deliver env (commit o r w1))
                            (deliver (quiet env) (commit o r w2))).
    { destruct (same_view_deliver env (commit o r w1)) as (H1 & H2 & H3).
      destruct (same_view_commit o r w1 w2 Hv) as (H4 & H5 & H6).
      unfold deliver at 2. simpl.
      repeat split; congruence. }
    destruct (IH r _ _ Hv') as (H1 & H2 & H3).
    repeat split; try apply H2; [exact H1 | f_equal; exact H3].
Qed.

Lemma events_quiet {A : Type} (env : Env) (p : Prog A) (w : World) :
  events env p w = events (quiet env) p w.
Proof. apply (exec_quiet env p w w (same_view_refl w)). Qed.

Lemma result_quiet {A : Type} (env : Env) (p : Prog A) (w : World) :
  (exec env p w).1 = (exec (quiet env) p w).1.
Proof. apply (exec_quiet env p w w (same_view_refl w)). Qed.

Lemma view_quiet {A : Type} (env : Env) (p : Prog A) (w : World) :
  same_view (exec env p w).2 (exec (quiet env) p w).2.
Proof. apply (exec_quiet env p w w (same_view_refl w)). Qed.

(** ** Programs that only perform operations of one kind *)

Inductive all_ops {A : Type} (P : Op -> bool) : Prog A -> Prop :=
| all_ops_ret (a : A) : all_ops P (Ret a)
| all_ops_do (o : Op) (k : Z -> Prog A) :
    P o = true -> (forall r, all_ops P (k r)) -> all_ops P (Do o k).

Lemma all_ops_bind {A B : Type} (P : Op -> bool) (p : Prog A) (f : A -> Prog B) :
  all_ops P p -> (forall a, all_ops P (f a)) -> all_ops P (bind p f).
Proof.
  intros Hp Hf. induction Hp as [a | o k Ho Hk IH]; simpl.
  - apply Hf.
  - constructor; [exact Ho | exact IH].
Qed.

Lemma all_ops_call (P : Op -> bool) (o : Op) : P o = true -> all_ops P (call o).
Proof. intros Ho. constructor; [exact Ho | intros r; constructor]. Qed.

Lemma all_ops_call_ (P : Op -> bool) (o : Op) : P o = true -> all_ops P (call_ o).
Proof. intros Ho. constructor; [exact Ho | intros r; constructor]. Qed.

Lemma all_ops_for_acc {S : Type} (P : Op -> bool) (body : nat -> S -> Prog S)
      (n start : nat) (s : S) :
  (forall i s', all_ops P (body i s')) -> all_ops P (for_acc start n body s).
Proof.
  intros Hb. revert start s. induction n as [| n IH]; intros start s; simpl.
  - constructor.
  - apply all_ops_bind; [apply Hb | intros s'; apply IH].
Qed.

Lemma all_ops_for_each (P : Op -> bool) (body : nat -> Prog unit) (n : nat) :
  (forall i, all_ops P (body i)) -> all_ops P (for_each n body).
Proof. intros Hb. apply all_ops_for_acc. intros i _. apply Hb. Qed.

Lemma all_ops_weaken {A : Type} (P Q : Op -> bool) (p : Prog A) :
  (forall o, P o = true -> Q o = true) -> all_ops P p -> all_ops Q p.
Proof.
  intros HPQ Hp. induction Hp as [a | o k Ho Hk IH]; constructor; auto.
Qed.

Lemma all_ops_any {A : Type} (p : Prog A) : all_ops (fun _ => true) p.
Proof. induction p as [a | o k IH]; constructor; auto. Qed.

Lemma all_ops_events {A : Type} (P : Op -> bool) (env : Env) (p : Prog A) (w : World) :
  all_ops P p -> Forall (fun e => P (ev_op e) = true) (events env p w).
Proof.
  intros Hp. revert w. induction Hp as [a | o k Ho Hk IH]; intros w; simpl.
  - constructor.
  - constructor; [exact Ho | apply IH].
Qed.

(** Decides the goals [all_ops P p] for the functions of the application. *)
Ltac all_ops_step :=
  match goal with
  | |- all_ops _ (bind _ _) => apply all_ops_bind; [| intros ?]
  | |- all_ops _ (for_each _ _) => apply all_ops_for_each; intros ?
  | |- all_ops _ (for_acc _ _ _ _) => apply all_ops_for_acc; intros ? ?
  | |- all_ops _ (call _) => apply all_ops_call; try reflexivity
  | |- all_ops _ (call_ _) => apply all_ops_call_; try reflexivity
  | |- all_ops _ (Ret _) => constructor
  | |- all_ops _ (if ?b then _ else _) => destruct b
  | |- all_ops _ (let _ := _ in _) => cbv zeta
  end.

(** A chain of states, each related to the one before. *)
Fixpoint chain (R : World -> World -> Prop) (w : World) (ws : list World) : Prop :=
  match ws with
  | [] => True
  | w' :: ws' => R w w' /\ chain R w' ws'
  end.

Lemma last_cons {X : Type} (x d : X) (l : list X) :
  List.last (x :: l) d = List.last l x.
Proof.
  revert x d. induction l as [| y l IH]; intros x d; [reflexivity |].
  change (List.last (y :: l) d = List.last (y :: l) x).
  rewrite (IH y d), (IH y x). reflexivity.
Qed.

Lemma last_app_default {X : Type} (d : X) (l1 l2 : list X) :
  List.last (l1 ++ l2) d = List.last l2 (List.last l1 d).
Proof.
  revert d. induction l1 as [| x l1 IH]; intros d; [reflexivity |].
  change (List.last (x :: (l1 ++ l2)) d = List.last l2 (List.last (x :: l1) d)).
  rewrite !last_cons. apply IH.
Qed.

Lemma chain_app (R : World -> World -> Prop) (w : World) (l1 l2 : list World) :
  chain R w l1 -> chain R (List.last l1 w) l2 -> chain R w (l1 ++ l2).
Proof.
  revert w. induction l1 as [| x l1 IH]; intros w H1 H2.
  - exact H2.
  - destruct H1 as [Hx H1]. split; [exact Hx |].
    apply IH; [exact H1 |]. rewrite <- last_cons with (d := w). exact H2.
Qed.

Lemma last_activations (n : nat) (w : World) :
  List.last (activations n w) w = Nat.iter n (Adc_appDmaTransferCallback NULL_PTR) w.
Proof.
  revert w. induction n as [| n IH]; intros w; [reflexivity |].
  change (activations (S n) w)
    with (Adc_appDmaTransferCallback NULL_PTR w
            :: activations n (Adc_appDmaTransferCallback NULL_PTR w)).
  rewrite Nat.iter_succ_r, last_cons. apply IH.
Qed.

Lemma chain_activations (R : World -> World -> Prop) (n : nat) (w : World) :
  (forall w0, R w0 (Adc_appDmaTransferCallback NULL_PTR w0)) ->
  chain R w (activations n w).
Proof.
  intros HR. revert w. induction n as [| n IH]; intros w; simpl; auto.
Qed.

Lemma last_worlds {A : Type} (env : Env) (p : Prog A) (w : World) :
  List.last (worlds env p w) w = (exec env p w).2.
Proof.
  revert w. induction p as [a | o k IH]; intros w; simpl; [reflexivity |].
  set (r := result env o w). set (w1 := commit o r w).
  rewrite <- IH.
  change (List.last (w1 :: (activations (irq env (trace w1)) w1
                            ++ worlds env (k r) (deliver env w1))) w
          = List.last (worlds env (k r) (deliver env w1)) (deliver env w1)).
  rewrite last_cons, last_app_default, last_activations. reflexivity.
Qed.

(** Every step of a run is an operation of the orchestrator or an
    activation of the handler. *)
Lemma chain_worlds {A : Type} (P : Op -> bool) (R : World -> World -> Prop)
      (env : Env) (p : Prog A) (w : World) :
  (forall o r w0, P o = true -> R w0 (commit o r w0)) ->
  (forall w0, R w0 (Adc_appDmaTransferCallback NULL_PTR w0)) ->
  all_ops P p -> chain R w (worlds env p w).
Proof.
  intros Hop Hisr Hp. revert w.
  induction Hp as [a | o k Ho Hk IH]; intros w; simpl; [exact I |].
  split; [apply Hop; exact Ho |].
  apply chain_app; [apply chain_activations; exact Hisr |].
  rewrite last_activations. apply IH.
Qed.

(** ** Events of the basic programs *)

Lemma events_ret {A : Type} (env : Env) (a : A) (w : World) :
  events env (Ret a) w = [].
Proof. reflexivity. Qed.

Lemma events_call (env : Env) (o : Op) (w : World) :
  events env (call o) w = [Ev o (result env o w)].
Proof. reflexivity. Qed.

Lemma events_call_ (env : Env) (o : Op) (w : World) :
  events env (call_ o) w = [Ev o (result env o w)].
Proof. reflexivity. Qed.

Lemma exec_call (env : Env) (o : Op) (w : World) :
  (exec env (call o) w).1 = result env o w.
Proof. reflexivity. Qed.

(** Operations whose recorded result is 0 whatever the environment says. *)
Definition is_void (o : Op) : bool :=
  match o with
  | Load_gTestPassed
  | Load_gAdcAppLog _ _
  | Adc_GetGroupStatus _
  | Adc_SetupResultBuffer _ _
  | AppUtils_getStackUsage
  | AppUtils_checkStackAndSectionCorruption
  | Load_versioninfo _
  | Adc_GetReadResultBaseAddress _
  | Load_gAdcAppDmaBuffer _ _
  | HW_RD_REG16 _ => false
  | _ => true
  end.

Lemma result_void (env : Env) (o : Op) (w : World) :
  is_void o = true -> result env o w = 0.
Proof. destruct o; simpl; intros Hv; try reflexivity; discriminate. Qed.

(** The operations of a program when every result it gets is 0, and the
    events they leave when they are all void. *)
Fixpoint ops {A : Type} (p : Prog A) : list Op :=
  match p with
  | Ret _ => []
  | Do o k => o :: ops (k 0)
  end.

Definition silent {A : Type} (p : Prog A) : list Event :=
  List.map (fun o => Ev o 0) (ops p).

Lemma events_silent {A : Type} (env : Env) (p : Prog A) (w : World) :
  all_ops is_void p -> events env p w = silent p.
Proof.
  intros Hp. revert w. induction Hp as [a | o k Ho Hk IH]; intros w; simpl.
  - reflexivity.
  - rewrite (result_void env o w Ho). unfold silent. simpl. f_equal. apply IH.
Qed.

(** A loop whose body leaves events of a known shape [g i x], with [x] what
    the environment answered in round [i], of which [Q i x] is known. *)
Lemma events_for_each_shape {X : Type} (env : Env) (body : nat -> Prog unit)
      (g : nat -> X -> list Event) (Q : nat -> X -> Prop) (n : nat) :
  (forall i w, exists x, Q i x /\ events env (body i) w = g i x) ->
  forall start w, exists xs : list X,
    Forall2 Q (seq start n) xs
    /\ events env (for_acc start n (fun i _ => body i) tt) w
       = concat (zip_with g (seq start n) xs).
Proof.
  intros Hb. induction n as [| n IH]; intros start w.
  - exists []. split; [constructor | reflexivity].
  - simpl. rewrite events_bind.
    destruct (Hb start w) as (x & HQ & Hx).
    destruct (IH (S start) (exec env (body start) w).2) as (xs & HQs & Hxs).
    exists (x :: xs). split; [constructor; assumption |].
    simpl. rewrite Hx. f_equal.
    destruct (exec env (body start) w).1. exact Hxs.
Qed.

(** A loop whose body is silent. *)
Lemma events_for_each_silent (env : Env) (body : nat -> Prog unit) (n : nat) (w : World) :
  (forall i, all_ops is_void (body i)) ->
  events env (for_each n body) w
  = concat (List.map (fun i => silent (body i)) (seq 0 n)).
Proof.
  intros Hb. unfold for_each. generalize 0%nat as start. revert w.
  induction n as [| n IH]; intros w start; [reflexivity |].
  simpl. rewrite events_bind, (events_silent env (body start) w (Hb start)).
  f_equal. destruct (exec env (body start) w).1. apply IH.
Qed.

(** ** The completion counter *)

Definition counter_le (w1 w2 : World) : Prop :=
  gAdcAppDmaCallbackCount w1 <= gAdcAppDmaCallbackCount w2.

(** A step that is an activation of the handler, or leaves the counter as
    it is. *)
Definition counter_step (w1 w2 : World) : Prop :=
  w2 = Adc_appDmaTransferCallback NULL_PTR w1
  \/ gAdcAppDmaCallbackCount w2 = gAdcAppDmaCallbackCount w1.

(** The number of handler activations in a run. *)
Fixpoint completions {A : Type} (env : Env) (p : Prog A) (w : World) : nat :=
  match p with
  | Ret _ => O
  | Do o k =>
      let r := result env o w in
      let w1 := commit o r w in
      (irq env (trace w1) + completions env (k r) (deliver env w1))%nat
  end.

Lemma callback_below_max (appData : Ptr) (w : World) :
  0 <= gAdcAppDmaCallbackCount w < UINT32_MAX ->
  gAdcAppDmaCallbackCount (Adc_appDmaTransferCallback appData w)
  = gAdcAppDmaCallbackCount w + 1.
Proof.
  intros Hc. simpl. unfold uint32, wrap, UINT32_MAX in *.
  apply Z.mod_small. lia.
Qed.

Lemma activations_counter (n : nat) (w : World) :
  0 <= gAdcAppDmaCallbackCount w ->
  gAdcAppDmaCallbackCount w + Z.of_nat n <= UINT32_MAX ->
  chain counter_le w (activations n w)
  /\ gAdcAppDmaCallbackCount (Nat.iter n (Adc_appDmaTransferCallback NULL_PTR) w)
     = gAdcAppDmaCallbackCount w + Z.of_nat n.
Proof.
  revert w. induction n as [| n IH]; intros w H0 Hmax.
  - simpl. split; [exact I | lia].
  - rewrite Nat.iter_succ_r.
    assert (Hs : gAdcAppDmaCallbackCount (Adc_appDmaTransferCallback NULL_PTR w)
                 = gAdcAppDmaCallbackCount w + 1)
      by (apply callback_below_max; lia).
    destruct (IH (Adc_appDmaTransferCallback NULL_PTR w)) as [Hc He]; [lia | lia |].
    split.
    + simpl. split; [unfold counter_le; lia | exact Hc].
    + rewrite He, Hs. lia.
Qed.

Lemma worlds_counter {A : Type} (env : Env) (p : Prog A) (w : World) :
  0 <= gAdcAppDmaCallbackCount w ->
  gAdcAppDmaCallbackCount w + Z.of_nat (completions env p w) <= UINT32_MAX ->
  chain counter_le w (worlds env p w)
  /\ gAdcAppDmaCallbackCount (exec env p w).2
     = gAdcAppDmaCallbackCount w + Z.of_nat (completions env p w).
Proof.
  revert w. induction p as [a | o k IH]; intros w H0 Hmax.
  - simpl. split; [exact I | lia].
  - cbn [completions worlds exec] in *.
    set (r := result env o w) in *. set (w1 := commit o r w) in *.
    set (n := irq env (trace w1)) in *.
    set (m := completions env (k r) (deliver env w1)) in *.
    assert (Hw1 : gAdcAppDmaCallbackCount w1 = gAdcAppDmaCallbackCount w)
      by reflexivity.
    destruct (activations_counter n w1) as [Hc He]; [lia | lia |].
    assert (Hd : gAdcAppDmaCallbackCount (deliver env w1)
                 = gAdcAppDmaCallbackCount w + Z.of_nat n)
      by (unfold deliver; fold n; rewrite He; lia).
    destruct (IH r (deliver env w1)) as [Hc' He']; [lia | fold m; lia |].
    fold m in He'. split.
    + split; [unfold counter_le; lia |].
      apply chain_app; [exact Hc |].
      rewrite last_activations. exact Hc'.
    + rewrite He', Hd. lia.
Qed.

Lemma worlds_counter_step {A : Type} (env : Env) (p : Prog A) (w : World) :
  chain counter_step w (worlds env p w).
Proof.
  apply (chain_worlds (fun _ => true)).
  - intros o r w0 _. right. reflexivity.
  - intros w0. left. reflexivity.
  - apply all_ops_any.
Qed.

Ltac all_ops_app :=
  unfold main, Adc_appInit, Adc_appTest, Adc_appDeInit, Adc_appInterruptConfig,
    Adc_appTest_setup, Adc_appTest_setup_group, Adc_appTest_iteration,
    Adc_appTest_arm, Adc_appTest_disarm, Adc_appTest_disableTrigger,
    Adc_appPrintResult, Adc_appPrintResult_header, Adc_appPrintResult_poll,
    Adc_appPrintResult_print,
    Adc_appPrintStatus, Adc_appEpwmEnable, Adc_appDisableTrigger,
    Adc_appDmaConfigure, GT_0trace, GT_1trace, GT_3trace, EPWM;
  repeat first [all_ops_step | progress cbv beta].

Section Frames.
Context `{Config}.

(** An operation that does not store to [gTestPassed], or stores
    [E_NOT_OK]. *)
Definition keeps_or_fails (o : Op) : bool :=
  match o with
  | Store_gTestPassed v => v =? E_NOT_OK
  | _ => true
  end.

Lemma main_keeps_or_fails : all_ops keeps_or_fails main.
Proof. all_ops_app; simpl; apply Z.eqb_refl. Qed.

End Frames.

(** ** The events of the phases of [Adc_appTest] *)

Lemma concat_map_singleton {X Y : Type} (f : X -> Y) (l : list X) :
  concat (List.map (fun x => [f x]) l) = List.map f l.
Proof. induction l as [| x l IH]; simpl; [reflexivity | f_equal; exact IH]. Qed.

Lemma events_for_each_call_ (env : Env) (f : nat -> Op) (n : nat) (w : World) :
  (forall i, is_void (f i) = true) ->
  events env (for_each n (fun i => call_ (f i))) w
  = List.map (fun i => Ev (f i) 0) (seq 0 n).
Proof.
  intros Hf.
  rewrite events_for_each_silent
    by (intros i; apply all_ops_call_; apply Hf).
  exact (concat_map_singleton (fun i => Ev (f i) 0) (seq 0 n)).
Qed.

Lemma all_ops_silent {A : Type} (P : Op -> bool) (p : Prog A) :
  all_ops P p -> Forall (fun e => P (ev_op e) = true) (silent p).
Proof.
  intros Hp. unfold silent.
  induction Hp as [a | o k Ho Hk IH]; simpl; constructor; auto.
Qed.

(** Membership in the events of a loop, round by round. *)
Lemma in_rounds {X : Type} (f : nat -> X -> list Event) (n : nat) (xs : list X)
      (e : Event) :
  In e (concat (zip_with f (seq 0 n) xs))
  <-> exists (i : nat) (x : X), (i < n)%nat /\ xs !! i = Some x /\ In e (f i x).
Proof.
  rewrite in_concat. split.
  - intros (l & Hl & He).
    apply list_elem_of_In, elem_of_lookup_zip_with in Hl.
    destruct Hl as (i & j & x & -> & Hj & Hx).
    apply lookup_seq in Hj. destruct Hj as [-> Hi].
    exists i, x. auto.
  - intros (i & x & Hi & Hx & He).
    exists (f i x). split; [| exact He].
    apply list_elem_of_In, elem_of_lookup_zip_with.
    exists i, i, x. split; [reflexivity |]. split; [| exact Hx].
    apply lookup_seq. split; [reflexivity | exact Hi].
Qed.

Section Phases.
Context `{Config}.
Variable env : Env.

(** What arming leaves in the history; [addr] is the result base address
    the ADC driver returned. *)
Definition arm_events (addr : Z) : list Event :=
  [Ev (memset (Addr_gAdcAppDmaBuffer 0 0) 0 sizeof_gAdcAppDmaBuffer) 0;
   Ev (Mcal_CacheP_wb (Addr_gAdcAppDmaBuffer 0 0) sizeof_gAdcAppDmaBuffer
         Mcal_CacheP_TYPE_ALL) 0]
  ++ List.map (fun g => Ev (Adc_EnableGroupNotification (Z.of_nat g)) 0)
       (seq 0 ADC_MAX_GROUP)
  ++ [Ev (Adc_EnableHardwareTrigger ADC_APP_GROUP_ID) 0;
      Ev (Adc_SetInterruptContinuousMode ADC_APP_GROUP_ID) 0;
      Ev (Adc_GetReadResultBaseAddress ADC_APP_GROUP_ID) addr;
      Ev (Cdd_Dma_ParamSet ADC_APP_DMA_CHANNEL 0 0
            (Adc_appDmaConfigure_edmaParam (Addr_gAdcAppDmaBuffer 0 0)
               (ADC_APP_NUM_CHANNEL * 2) addr)) 0;
      Ev (Cdd_Dma_EnableTransferRegion ADC_APP_DMA_CHANNEL
            CDD_EDMA_TRIG_MODE_EVENT) 0]
  ++ silent (Adc_appEpwmEnable ADC_APP_EPWM_BASE_ADDR)
  ++ [Ev (EPWM_setTimeBaseCounterMode ADC_APP_EPWM_BASE_ADDR
            EPWM_COUNTER_MODE_UP) 0;
      Ev (HW_WR_REG32 (0x502F0000 + 0x1008) 0x01234567) 0;
      Ev (HW_WR_REG32 (0x502F0000 + 0x100C) 0xFEDCBA8) 0;
      Ev (HW_WR_REG32 (0x502F0000 + 0x0010) 0x00000001) 0].

Lemma Adc_appTest_arm_events (w : World) :
  exists addr, events env Adc_appTest_arm w = arm_events addr.
Proof.
  unfold Adc_appTest_arm, Adc_appDmaConfigure.
  rewrite !events_bind, !events_call_, !events_call, !exec_call.
  rewrite (events_for_each_call_ env
             (fun i => Adc_EnableGroupNotification (Z.of_nat i)))
    by reflexivity.
  rewrite (events_silent env (Adc_appEpwmEnable _)) by all_ops_app.
  cbn [result is_void].
  eexists. unfold arm_events. cbn [app]. reflexivity.
Qed.

(** One poll tick; [x] is what the tick read: the buffered value, the
    result register and the status of the group. *)
Definition poll_events (addr : Z) (logIndex : nat) (x : Z * Z * Z) : list Event :=
  let '(v, h, s) := x in
  [Ev (Mcal_CacheP_inv (Addr_gAdcAppDmaBuffer 0 0) sizeof_gAdcAppDmaBuffer
         Mcal_CacheP_TYPE_ALL) 0;
   Ev (Load_gAdcAppDmaBuffer 0 0) v;
   Ev (Store_gAdcAppLog logIndex F_dmaBuff v) 0;
   Ev (HW_RD_REG16 addr) h;
   Ev (Store_gAdcAppLog logIndex F_hwResult h) 0;
   Ev (Adc_GetGroupStatus 0) s;
   Ev (Store_gAdcAppLog logIndex F_status s) 0;
   Ev (AppUtils_delay 100) 0].

Lemma Adc_appPrintResult_poll_events (addr : Z) (logIndex : nat) (w : World) :
  exists x, True /\ events env (Adc_appPrintResult_poll addr logIndex) w
                    = poll_events addr logIndex x.
Proof.
  unfold Adc_appPrintResult_poll.
  rewrite !events_bind, !events_call_, !events_call, !exec_call.
  cbn [result is_void].
  eexists (_, _, _). split; [exact I |].
  unfold poll_events. cbn [app]. reflexivity.
Qed.

(** Operations that only report: a trace line, or a load of a log record. *)
Definition is_report (o : Op) : bool :=
  match o with
  | GT_trace _ _ _ | Load_gAdcAppLog _ _ => true
  | _ => false
  end.

(** What [Adc_appPrintResult] leaves in the history: the header, the read
    of the result base address, the poll ticks, and the report of the log. *)
Definition drain_events (loopcnt : nat) (addr : Z) (xs : list (Z * Z * Z))
           (report : list Event) : list Event :=
  silent (Adc_appPrintResult_header loopcnt)
  ++ Ev (Adc_GetReadResultBaseAddress ADC_APP_GROUP_ID) addr
  :: concat (zip_with (poll_events addr) (seq 0 ADC_APP_LOG_SIZE) xs)
  ++ report.

Lemma Adc_appPrintResult_events (loopcnt : nat) (w : World) :
  exists addr xs report,
    length xs = ADC_APP_LOG_SIZE
    /\ Forall (fun e => is_report (ev_op e) = true) report
    /\ events env (Adc_appPrintResult loopcnt) w
       = drain_events loopcnt addr xs report.
Proof.
  unfold Adc_appPrintResult.
  rewrite events_bind.
  rewrite (events_silent env (Adc_appPrintResult_header loopcnt))
    by all_ops_app.
  rewrite events_bind, events_call, exec_call.
  set (w1 := (exec env (Adc_appPrintResult_header loopcnt) w).2).
  set (addr := result env (Adc_GetReadResultBaseAddress ADC_APP_GROUP_ID) w1).
  rewrite events_bind.
  destruct (events_for_each_shape env (Adc_appPrintResult_poll addr)
              (poll_events addr) (fun _ _ => True) ADC_APP_LOG_SIZE
              (Adc_appPrintResult_poll_events addr) 0%nat
              (exec env (call (Adc_GetReadResultBaseAddress ADC_APP_GROUP_ID)) w1).2)
    as (xs & Hlen & Hxs).
  apply Forall2_length in Hlen. rewrite length_seq in Hlen.
  unfold for_each at 1. rewrite Hxs.
  eexists addr, xs, _. split; [symmetry; exact Hlen |]. split; [| reflexivity].
  apply all_ops_events. all_ops_app.
Qed.

(** What disarming leaves in the history. *)
Definition disarm_events : list Event :=
  [Ev (EPWM_disableADCTrigger ADC_APP_EPWM_BASE_ADDR EPWM_SOC_A) 0;
   Ev (EPWM_disableADCTrigger ADC_APP_EPWM_BASE_ADDR EPWM_SOC_B) 0;
   Ev (EPWM_setTimeBaseCounterMode ADC_APP_EPWM_BASE_ADDR
         EPWM_COUNTER_MODE_STOP_FREEZE) 0;
   Ev (Adc_DisableHardwareTrigger ADC_APP_GROUP_ID) 0]
  ++ List.map (fun g => Ev (Adc_DisableGroupNotification (Z.of_nat g)) 0)
       (seq 0 ADC_MAX_GROUP).

Lemma Adc_appTest_disarm_events (w : World) :
  events env Adc_appTest_disarm w = disarm_events.
Proof.
  unfold Adc_appTest_disarm, Adc_appTest_disableTrigger, Adc_appDisableTrigger.
  rewrite !events_bind, !events_call_.
  rewrite (events_for_each_call_ env
             (fun i => Adc_DisableGroupNotification (Z.of_nat i)))
    by reflexivity.
  cbn [result is_void]. unfold disarm_events. cbn [app]. reflexivity.
Qed.

(** One iteration of the capture loop. *)
Lemma Adc_appTest_iteration_events (loopcnt : nat) (w : World) :
  exists addr addr' xs report,
    length xs = ADC_APP_LOG_SIZE
    /\ Forall (fun e => is_report (ev_op e) = true) report
    /\ events env (Adc_appTest_iteration loopcnt) w
       = arm_events addr ++ drain_events loopcnt addr' xs report ++ disarm_events.
Proof.
  unfold Adc_appTest_iteration.
  rewrite !events_bind, Adc_appTest_disarm_events.
  destruct (Adc_appTest_arm_events w) as [addr Harm].
  destruct (Adc_appPrintResult_events loopcnt (exec env Adc_appTest_arm w).2)
    as (addr' & xs & report & Hlen & Hrep & Hdrain).
  exists addr, addr', xs, report.
  split; [exact Hlen |]. split; [exact Hrep |].
  rewrite Harm. destruct (exec env Adc_appTest_arm w).1.
  rewrite Hdrain. reflexivity.
Qed.

(** The observations of one iteration: the result base address read when
    arming and when draining, what the poll ticks read, and the report. *)
Record Iteration : Type := {
  it_arm_addr : Z;
  it_drain_addr : Z;
  it_polls : list (Z * Z * Z);
  it_report : list Event
}.

Definition iteration_events (loopcnt : nat) (it : Iteration) : list Event :=
  arm_events (it_arm_addr it)
  ++ drain_events loopcnt (it_drain_addr it) (it_polls it) (it_report it)
  ++ disarm_events.

Definition iteration_wf (it : Iteration) : Prop :=
  length (it_polls it) = ADC_APP_LOG_SIZE
  /\ Forall (fun e => is_report (ev_op e) = true) (it_report it).

Definition loop_events (its : list Iteration) : list Event :=
  concat (zip_with iteration_events (seq 0 ADC_APP_LOOPCNT) its).

Lemma Adc_appTest_loop_events (w : World) :
  exists its,
    length its = ADC_APP_LOOPCNT
    /\ Forall iteration_wf its
    /\ events env (for_each ADC_APP_LOOPCNT Adc_appTest_iteration) w
       = loop_events its.
Proof.
  destruct (events_for_each_shape env Adc_appTest_iteration iteration_events
              (fun _ it => iteration_wf it) ADC_APP_LOOPCNT) with (start := 0%nat) (w := w)
    as (its & Hwf & Hev).
  - intros i w0.
    destruct (Adc_appTest_iteration_events i w0)
      as (addr & addr' & xs & report & Hlen & Hrep & Hev).
    exists {| it_arm_addr := addr; it_drain_addr := addr';
              it_polls := xs; it_report := report |}.
    split; [split; assumption | exact Hev].
  - exists its. split; [| split].
    + apply Forall2_length in Hwf. rewrite length_seq in Hwf. congruence.
    + clear Hev. induction Hwf; constructor; assumption.
    + exact Hev.
Qed.

(** Setup of one group; [x] is the status the driver reported and what
    [Adc_SetupResultBuffer] returned. *)
Definition group_ok (x : Z * Z) : bool := (x.1 =? ADC_IDLE) && (x.2 =? E_OK).

Definition setup_group_events (grpIdx : nat) (x : Z * Z) : list Event :=
  Ev (Adc_GetGroupStatus (Z.of_nat grpIdx)) x.1
  :: silent (Adc_appPrintStatus (Z.of_nat grpIdx) x.1)
  ++ Ev (GT_trace GT_INFO " \r\n" []) 0
  :: (if x.1 =? ADC_IDLE then []
      else [Ev (GT_trace GT_ERR " ADC Group %d is not IDLE!!\r\n"
                  [Z.of_nat grpIdx]) 0])
  ++ Ev (Adc_SetupResultBuffer (Z.of_nat grpIdx)
           (Addr_gAdcAppSetupBuffer (Z.of_nat grpIdx) 0)) x.2
  :: (if x.2 =? E_OK then []
      else [Ev (GT_trace GT_ERR " ADC Group %d setup buffer failed!!\r\n"
                  [Z.of_nat grpIdx]) 0]).

Definition setup_events (groups : list (Z * Z)) : list Event :=
  concat (zip_with setup_group_events (seq 0 ADC_MAX_GROUP) groups).

Lemma Adc_appTest_setup_group_events (grpIdx : nat) (testPassed : Z) (w : World) :
  exists x,
    events env (Adc_appTest_setup_group grpIdx testPassed) w
    = setup_group_events grpIdx x
    /\ (exec env (Adc_appTest_setup_group grpIdx testPassed) w).1
       = if group_ok x then testPassed else E_NOT_OK.
Proof.
  unfold Adc_appTest_setup_group.
  rewrite !events_bind, !exec_bind, !exec_call, !events_call.
  set (s := result env (Adc_GetGroupStatus (Z.of_nat grpIdx)) w).
  rewrite (events_silent env (Adc_appPrintStatus (Z.of_nat grpIdx) s))
    by all_ops_app.
  match goal with
  | |- context [Ev (Adc_SetupResultBuffer ?g ?b) ?v] => set (r := v)
  end.
  exists (s, r). unfold setup_group_events, group_ok. cbn [fst snd].
  destruct (s =? ADC_IDLE), (r =? E_OK); cbn; split; reflexivity.
Qed.

Lemma Adc_appTest_setup_acc (n start : nat) (testPassed : Z) (w : World) :
  exists groups,
    length groups = n
    /\ events env (for_acc start n Adc_appTest_setup_group testPassed) w
       = concat (zip_with setup_group_events (seq start n) groups)
    /\ (exec env (for_acc start n Adc_appTest_setup_group testPassed) w).1
       = if forallb group_ok groups then testPassed else E_NOT_OK.
Proof.
  revert start testPassed w. induction n as [| n IH]; intros start testPassed w.
  - exists []. repeat split.
  - destruct (Adc_appTest_setup_group_events start testPassed w) as (x & Hx & Hr).
    cbn [for_acc]. rewrite events_bind, exec_bind, Hx, Hr.
    destruct (IH (S start) (if group_ok x then testPassed else E_NOT_OK)
                (exec env (Adc_appTest_setup_group start testPassed) w).2)
      as (groups & Hlen & Hev & Hres).
    exists (x :: groups). split; [simpl; congruence |]. split.
    + cbn [seq zip_with concat]. rewrite Hev. reflexivity.
    + rewrite Hres. cbn [forallb].
      destruct (group_ok x), (forallb group_ok groups); reflexivity.
Qed.

Lemma Adc_appTest_setup_events (w : World) :
  exists groups,
    length groups = ADC_MAX_GROUP
    /\ events env Adc_appTest_setup w = setup_events groups
    /\ (exec env Adc_appTest_setup w).1
       = if forallb group_ok groups then E_OK else E_NOT_OK.
Proof. apply Adc_appTest_setup_acc. Qed.

(** The pass flag. *)
Definition stores_flag (o : Op) : bool :=
  match o with
  | Store_gTestPassed _ => true
  | _ => false
  end.

Lemma exec_keeps_flag {A : Type} (p : Prog A) (w : World) :
  all_ops (fun o => negb (stores_flag o)) p ->
  gTestPassed (exec env p w).2 = gTestPassed w.
Proof.
  intros Hp. revert w. induction Hp as [a | o k Ho Hk IH]; intros w; simpl.
  - reflexivity.
  - rewrite IH, gTestPassed_deliver. destruct o; try reflexivity; discriminate.
Qed.

Lemma exec_store_flag (v : Z) (w : World) :
  gTestPassed (exec env (call_ (Store_gTestPassed v)) w).2 = v.
Proof. simpl. rewrite gTestPassed_deliver. reflexivity. Qed.

(** The local [testPassed] after Setup, and the store that ends
    [Adc_appTest]. *)
Definition run_flag (groups : list (Z * Z)) : Z :=
  if forallb group_ok groups then E_OK else E_NOT_OK.

Definition flag_events (groups : list (Z * Z)) : list Event :=
  if forallb group_ok groups then [] else [Ev (Store_gTestPassed E_NOT_OK) 0].

Lemma E_NOT_OK_eqb : (E_NOT_OK =? E_OK) = false.
Proof. apply Z.eqb_neq. intros E. apply E_OK_NOT_OK. symmetry. exact E. Qed.

Lemma E_OK_eqb : (E_OK =? E_NOT_OK) = false.
Proof. apply Z.eqb_neq. exact E_OK_NOT_OK. Qed.

Lemma Adc_appTest_events (w : World) :
  exists groups its,
    length groups = ADC_MAX_GROUP
    /\ length its = ADC_APP_LOOPCNT
    /\ Forall iteration_wf its
    /\ events env Adc_appTest_setup w = setup_events groups
    /\ events env Adc_appTest w
       = setup_events groups ++ loop_events its ++ flag_events groups
    /\ gTestPassed (exec env Adc_appTest w).2
       = if forallb group_ok groups then gTestPassed w else E_NOT_OK.
Proof.
  destruct (Adc_appTest_setup_events w) as (groups & Hlen & Hsetup & Hres).
  destruct (Adc_appTest_loop_events (exec env Adc_appTest_setup w).2)
    as (its & Hn & Hwf & Hloop).
  exists groups, its. repeat (split; [assumption |]).
  unfold Adc_appTest.
  rewrite !events_bind, !exec_bind, Hsetup, Hloop, Hres.
  assert (Hkeep : forall A (p : Prog A),
             all_ops (fun o => negb (stores_flag o)) p ->
             gTestPassed
               (exec env p
                  (exec env (for_each ADC_APP_LOOPCNT Adc_appTest_iteration)
                     (exec env Adc_appTest_setup w).2).2).2
             = gTestPassed w).
  { intros A p Hp. rewrite !exec_keeps_flag; try exact Hp; try reflexivity;
      all_ops_app. }
  unfold flag_events.
  destruct (forallb group_ok groups).
  - rewrite Z.eqb_refl. cbn [negb]. split; [reflexivity |].
    apply Hkeep. constructor.
  - rewrite E_NOT_OK_eqb. cbn [negb]. split; [reflexivity |].
    apply exec_store_flag.
Qed.

(** Teardown. [flag] is [gTestPassed] when [Adc_appDeInit] is entered,
    [usage] and [corrupt] are the results of the two checks. *)
Definition final_flag (flag corrupt : Z) : Z :=
  if corrupt =? E_OK then flag else E_NOT_OK.

Definition verdict_events (passed : Z) : list Event :=
  if E_OK =? passed
  then [Ev (AppUtils_printf (APP_NAME +:+ ": DONE (Passed) !!!\r\n")) 0;
        Ev (AppUtils_printf (APP_NAME +:+ ": All tests have passed\r\n")) 0;
        Ev (AppUtils_logTestResult APP_UTILS_TEST_STATUS_PASS) 0]
  else [Ev (AppUtils_printf (APP_NAME +:+ ": DONE (Failed) !!!\r\n")) 0;
        Ev (AppUtils_logTestResult APP_UTILS_TEST_STATUS_FAIL) 0].

Definition teardown_events (flag usage corrupt : Z) : list Event :=
  [Ev AppUtils_getStackUsage usage;
   Ev (GT_trace GT_INFO (APP_NAME +:+ ": Stack Usage: %d bytes\n\r") [usage]) 0;
   Ev AppUtils_checkStackAndSectionCorruption corrupt]
  ++ (if corrupt =? E_OK then []
      else [Ev (Store_gTestPassed E_NOT_OK) 0;
            Ev (GT_trace GT_ERR (APP_NAME +:+ ": Stack/section corruption!!!\n\r")
                  []) 0])
  ++ Ev Load_gTestPassed (final_flag flag corrupt)
  :: verdict_events (final_flag flag corrupt)
  ++ [Ev Adc_DeInit 0; Ev Cdd_Dma_DeInit 0; Ev Adc_appPlatformDeInit 0].

Lemma Adc_appDeInit_events (w : World) :
  exists usage corrupt,
    events env Adc_appDeInit w = teardown_events (gTestPassed w) usage corrupt.
Proof.
  unfold Adc_appDeInit.
  rewrite !events_bind, ?exec_bind, !exec_call, !events_call.
  set (usage := result env AppUtils_getStackUsage w).
  match goal with
  | |- context [Ev AppUtils_checkStackAndSectionCorruption ?v] => set (corrupt := v)
  end.
  exists usage, corrupt. unfold teardown_events, final_flag, GT_1trace, GT_0trace.
  rewrite !events_call_. cbn [result].
  destruct (corrupt =? E_OK); cbn [negb].
  - rewrite !exec_keeps_flag by all_ops_app.
    unfold verdict_events.
    destruct (E_OK =? gTestPassed w); cbn; reflexivity.
  - rewrite exec_bind.
    rewrite (exec_keeps_flag (call_ (GT_trace _ _ _))) by all_ops_app.
    rewrite exec_store_flag.
    unfold verdict_events. rewrite E_OK_eqb. cbn. reflexivity.
Qed.

(** The whole run. *)
Definition world_after_init : World := (exec env Adc_appInit initial_world).2.

Lemma main_events :
  exists groups its usage corrupt,
    length groups = ADC_MAX_GROUP
    /\ length its = ADC_APP_LOOPCNT
    /\ Forall iteration_wf its
    /\ events env Adc_appTest_setup world_after_init = setup_events groups
    /\ events env Adc_appDeInit
         (exec env Adc_appTest world_after_init).2
       = teardown_events (run_flag groups) usage corrupt
    /\ events env (Adc_appInit ;; Adc_appTest) initial_world
       = events env Adc_appInit initial_world
         ++ setup_events groups ++ loop_events its ++ flag_events groups
    /\ events env main initial_world
       = events env Adc_appInit initial_world
         ++ setup_events groups ++ loop_events its ++ flag_events groups
         ++ teardown_events (run_flag groups) usage corrupt.
Proof.
  unfold world_after_init.
  set (w1 := (exec env Adc_appInit initial_world).2).
  destruct (Adc_appTest_events w1)
    as (groups & its & Hg & Hi & Hwf & Hsetup & Htest & Hflag).
  destruct (Adc_appDeInit_events (exec env Adc_appTest w1).2)
    as (usage & corrupt & Hde).
  assert (Hinit : gTestPassed w1 = E_OK).
  { unfold w1. rewrite exec_keeps_flag by all_ops_app. reflexivity. }
  rewrite Hflag, Hinit in Hde.
  exists groups, its, usage, corrupt.
  repeat (split; [assumption |]).
  split.
  - rewrite events_bind. subst w1. rewrite Htest. reflexivity.
  - unfold main. rewrite !events_bind, events_ret, app_nil_r.
    subst w1. rewrite Htest, Hde, <- !app_assoc. reflexivity.
Qed.

End Phases.

(** ** The verdict of a run *)

(** The results handed to [AppUtils_logTestResult], in order. *)
Definition verdicts (evs : list Event) : list AppUtils_TestStatus :=
  flat_map (fun e => match ev_op e with
                     | AppUtils_logTestResult v => [v]
                     | _ => []
                     end) evs.

(** Operations that evaluate the run verdict: the read of the pass flag and
    the report of the result. *)
Definition is_verdict (o : Op) : bool :=
  match o with
  | Load_gTestPassed | AppUtils_logTestResult _ => true
  | _ => false
  end.

Definition flag_reads (evs : list Event) : nat :=
  length (List.filter (fun e => match ev_op e with
                                | Load_gTestPassed => true
                                | _ => false
                                end) evs).

Lemma verdicts_app (l1 l2 : list Event) :
  verdicts (l1 ++ l2) = verdicts l1 ++ verdicts l2.
Proof. unfold verdicts. apply flat_map_app. Qed.

Lemma flag_reads_app (l1 l2 : list Event) :
  flag_reads (l1 ++ l2) = (flag_reads l1 + flag_reads l2)%nat.
Proof. unfold flag_reads. rewrite List.filter_app, length_app. reflexivity. Qed.

Lemma no_verdict (evs : list Event) :
  Forall (fun e => negb (is_verdict (ev_op e)) = true) evs ->
  verdicts evs = [] /\ flag_reads evs = O.
Proof.
  induction 1 as [| e l He Hl [IH1 IH2]]; [split; reflexivity |].
  unfold verdicts, flag_reads in *. simpl. rewrite IH1.
  destruct e as [o r]; destruct o; simpl in *; try discriminate; auto.
Qed.

Section Verdict.
Context `{Config}.
Variable env : Env.

(** The verdict [Adc_appDeInit] reports when it finds [flag] in
    [gTestPassed] and its corruption check returns [corrupt]. *)
Definition verdict_of (flag corrupt : Z) : AppUtils_TestStatus :=
  if E_OK =? final_flag flag corrupt
  then APP_UTILS_TEST_STATUS_PASS
  else APP_UTILS_TEST_STATUS_FAIL.

Lemma teardown_verdict (flag usage corrupt : Z) :
  verdicts (teardown_events flag usage corrupt) = [verdict_of flag corrupt]
  /\ flag_reads (teardown_events flag usage corrupt) = 1%nat.
Proof.
  unfold teardown_events, verdict_events, verdict_of.
  destruct (corrupt =? E_OK) eqn:Ec;
    destruct (E_OK =? final_flag flag corrupt) eqn:Ef;
    split; reflexivity.
Qed.

(** The events of a run before teardown are those of [Adc_appInit] and
    [Adc_appTest]. *)
Lemma main_events_split :
  events env main initial_world
  = events env (Adc_appInit ;; Adc_appTest) initial_world
    ++ events env Adc_appDeInit (exec env Adc_appTest (world_after_init env)).2.
Proof.
  unfold main, world_after_init.
  rewrite !events_bind, events_ret, app_nil_r, <- !app_assoc. reflexivity.
Qed.

Lemma before_teardown_no_verdict :
  Forall (fun e => negb (is_verdict (ev_op e)) = true)
         (events env (Adc_appInit ;; Adc_appTest) initial_world).
Proof. apply (all_ops_events (fun o => negb (is_verdict o))). all_ops_app. Qed.

(** The answers of the environment that decide the verdict of the run:
    for each group the status and the result of the buffer setup, and the
    result of the corruption check. *)
Lemma main_verdict :
  exists groups usage corrupt,
    length groups = ADC_MAX_GROUP
    /\ events env Adc_appTest_setup (world_after_init env) = setup_events groups
    /\ events env Adc_appDeInit (exec env Adc_appTest (world_after_init env)).2
       = teardown_events (run_flag groups) usage corrupt
    /\ verdicts (events env main initial_world)
       = [verdict_of (run_flag groups) corrupt]
    /\ flag_reads (events env main initial_world) = 1%nat.
Proof.
  destruct (main_events env)
    as (groups & its & usage & corrupt & Hg & _ & _ & Hsetup & Hde & _ & _).
  exists groups, usage, corrupt.
  repeat (split; [assumption |]).
  rewrite main_events_split, verdicts_app, flag_reads_app, Hde.
  destruct (no_verdict _ before_teardown_no_verdict) as [-> ->].
  apply teardown_verdict.
Qed.

Lemma verdict_of_pass (groups : list (Z * Z)) (corrupt : Z) :
  verdict_of (run_flag groups) corrupt = APP_UTILS_TEST_STATUS_PASS
  <-> forallb group_ok groups = true /\ corrupt = E_OK.
Proof.
  unfold verdict_of, final_flag, run_flag.
  destruct (Z.eqb_spec corrupt E_OK) as [-> | Hc];
    destruct (forallb group_ok groups);
    rewrite ?Z.eqb_refl, ?E_OK_eqb; split; try tauto; try discriminate;
    intros [? ?]; try discriminate; contradiction.
Qed.

End Verdict.

(** ** Claims about the verdict *)

Section VerdictClaims.
Context `{Config}.
Variable env : Env.

Lemma group_ok_false (x : Z * Z) :
  group_ok x = false <-> x.1 <> ADC_IDLE \/ x.2 <> E_OK.
Proof.
  unfold group_ok. rewrite andb_false_iff, !Z.eqb_neq. reflexivity.
Qed.

Lemma some_group_failed (groups : list (Z * Z)) :
  forallb group_ok groups = false
  <-> exists (g : nat) (s r : Z),
        groups !! g = Some (s, r) /\ (s <> ADC_IDLE \/ r <> E_OK).
Proof.
  induction groups as [| x l IH]; simpl.
  - split; [discriminate | intros (g & s & r & Hg & _); discriminate].
  - rewrite andb_false_iff, IH, group_ok_false. split.
    + intros [Hx | (g & s & r & Hg & Hb)].
      * exists 0%nat, x.1, x.2. destruct x; split; [reflexivity | exact Hx].
      * exists (S g), s, r. split; assumption.
    + intros (g & s & r & Hg & Hb). destruct g as [| g].
      * left. injection Hg as ->. exact Hb.
      * right. exists g, s, r. split; assumption.
Qed.

(** A step that keeps the pass flag or sets it to fail, and never takes it
    from fail back to pass. *)
Definition flag_step (w1 w2 : World) : Prop :=
  (gTestPassed w2 = gTestPassed w1 \/ gTestPassed w2 = E_NOT_OK)
  /\ (gTestPassed w1 = E_NOT_OK -> gTestPassed w2 = E_NOT_OK).

Lemma chain_flag_step {A : Type} (p : Prog A) (w : World) :
  all_ops keeps_or_fails p -> chain flag_step w (worlds env p w).
Proof.
  apply chain_worlds.
  - intros o r w0 Ho. unfold flag_step.
    destruct o; simpl in *; try (split; [left; reflexivity | tauto]).
    apply Z.eqb_eq in Ho. subst v. split; [right; reflexivity | reflexivity].
  - intros w0. split; [left; reflexivity | tauto].
Qed.

(** C10. The pass flag [gTestPassed] starts as pass ([E_OK]).  Every step of
    the run (every operation of [main], every activation of the completion
    handler, and every hook the drivers call back) leaves it unchanged or
    sets it to fail ([E_NOT_OK]), and never takes it from fail back to pass.
    The run reports exactly one verdict, and it is FAIL if and only if a
    check failed: a group was not Idle at Setup, a result-buffer setup did
    not return [E_OK], or the stack/section corruption check did not return
    [E_OK]. *)
Theorem C10_verdict_failure_sticky :
  gTestPassed initial_world = E_OK
  /\ (forall w, chain flag_step w (worlds env main w))
  /\ Forall (fun p : Prog unit => forall w, chain flag_step w (worlds env p w))
       [AdcApp_Group0EndNotification;
        SchM_Enter_Mcu_MCU_EXCLUSIVE_AREA_0; SchM_Exit_Mcu_MCU_EXCLUSIVE_AREA_0;
        SchM_Enter_Port_PORT_EXCLUSIVE_AREA_0; SchM_Exit_Port_PORT_EXCLUSIVE_AREA_0;
        SchM_Enter_Adc_ADC_EXCLUSIVE_AREA_0; SchM_Exit_Adc_ADC_EXCLUSIVE_AREA_0;
        SchM_Enter_Cdd_Dma_DMA_EXCLUSIVE_AREA_0;
        SchM_Exit_Cdd_Dma_DMA_EXCLUSIVE_AREA_0]
  /\ exists (groups : list (Z * Z)) (usage corrupt : Z) (verdict : AppUtils_TestStatus),
       length groups = ADC_MAX_GROUP
       /\ events env Adc_appTest_setup (world_after_init env) = setup_events groups
       /\ events env Adc_appDeInit (exec env Adc_appTest (world_after_init env)).2
          = teardown_events (run_flag groups) usage corrupt
       /\ verdicts (events env main initial_world) = [verdict]
       /\ (verdict = APP_UTILS_TEST_STATUS_FAIL
           <-> (exists (g : nat) (s r : Z),
                   groups !! g = Some (s, r) /\ (s <> ADC_IDLE \/ r <> E_OK))
               \/ corrupt <> E_OK).
Proof.
  split; [reflexivity |].
  split; [intros w; apply chain_flag_step, main_keeps_or_fails |].
  split.
  { repeat (apply List.Forall_cons;
              [intros w; apply chain_flag_step; repeat constructor |]).
    apply List.Forall_nil. }
  destruct (main_verdict env)
    as (groups & usage & corrupt & Hg & Hsetup & Hde & Hv & _).
  exists groups, usage, corrupt, (verdict_of (run_flag groups) corrupt).
  repeat (split; [assumption |]).
  rewrite <- some_group_failed.
  pose proof (verdict_of_pass groups corrupt) as Hp.
  destruct (verdict_of (run_flag groups) corrupt).
  - destruct Hp as [Hp _]. destruct (Hp eq_refl) as [Hf Hc].
    split; [discriminate |].
    intros [Hf' | Hc']; [rewrite Hf in Hf'; discriminate | contradiction].
  - split; [intros _ | reflexivity].
    destruct (forallb group_ok groups); [| left; reflexivity].
    right. intros Hc. destruct Hp as [_ Hp].
    discriminate (Hp (conj eq_refl Hc)).
Qed.

(** The two reports of a failed setup of a group. *)
Definition not_idle_report (grpIdx : nat) : Event :=
  Ev (GT_trace GT_ERR " ADC Group %d is not IDLE!!\r\n" [Z.of_nat grpIdx]) 0.
Definition setup_failed_report (grpIdx : nat) : Event :=
  Ev (GT_trace GT_ERR " ADC Group %d setup buffer failed!!\r\n" [Z.of_nat grpIdx]) 0.

Lemma print_status_reports (g : nat) (s : Z) (e : Event) :
  In e (silent (Adc_appPrintStatus (Z.of_nat g) s)) -> is_report (ev_op e) = true.
Proof.
  intros He.
  assert (Hall : all_ops is_report (Adc_appPrintStatus (Z.of_nat g) s))
    by all_ops_app.
  apply (all_ops_silent is_report) in Hall.
  rewrite List.Forall_forall in Hall. apply Hall. exact He.
Qed.

(** Where the status check and the buffer setup of a group are in the
    events of Setup of one group. *)
Lemma setup_group_status (i : nat) (x : Z * Z) (z s : Z) :
  In (Ev (Adc_GetGroupStatus z) s) (setup_group_events i x) ->
  z = Z.of_nat i /\ s = x.1.
Proof.
  unfold setup_group_events. intros [E | Hin].
  - injection E as <- <-. split; reflexivity.
  - exfalso. apply in_app_or in Hin. destruct Hin as [Hin | [E | Hin]].
    + apply print_status_reports in Hin. discriminate.
    + discriminate.
    + apply in_app_or in Hin. destruct Hin as [Hin | [E | Hin]].
      * destruct (x.1 =? ADC_IDLE); [destruct Hin | destruct Hin as [E | []]; discriminate].
      * discriminate.
      * destruct (x.2 =? E_OK); [destruct Hin | destruct Hin as [E | []]; discriminate].
Qed.

Lemma setup_group_buffer (i : nat) (x : Z * Z) (z r : Z) (b : Ptr) :
  In (Ev (Adc_SetupResultBuffer z b) r) (setup_group_events i x) ->
  z = Z.of_nat i /\ r = x.2.
Proof.
  unfold setup_group_events. intros [E | Hin]; [discriminate |].
  apply in_app_or in Hin. destruct Hin as [Hin | [E | Hin]].
  - apply print_status_reports in Hin. discriminate.
  - discriminate.
  - apply in_app_or in Hin. destruct Hin as [Hin | [E | Hin]].
    + destruct (x.1 =? ADC_IDLE); [destruct Hin | destruct Hin as [E | []]; discriminate].
    + injection E as <- _ <-. split; reflexivity.
    + destruct (x.2 =? E_OK); [destruct Hin | destruct Hin as [E | []]; discriminate].
Qed.

Lemma setup_group_reports (i : nat) (x : Z * Z) :
  In (Ev (Adc_SetupResultBuffer (Z.of_nat i)
            (Addr_gAdcAppSetupBuffer (Z.of_nat i) 0)) x.2)
     (setup_group_events i x)
  /\ (x.1 <> ADC_IDLE -> In (not_idle_report i) (setup_group_events i x))
  /\ (x.2 <> E_OK -> In (setup_failed_report i) (setup_group_events i x)).
Proof.
  unfold setup_group_events, not_idle_report, setup_failed_report.
  repeat split.
  - right. apply in_or_app. right. right. apply in_or_app. right. left. reflexivity.
  - intros Hs. apply Z.eqb_neq in Hs. rewrite Hs.
    right. apply in_or_app. right. right. left. reflexivity.
  - intros Hr. apply Z.eqb_neq in Hr. rewrite Hr.
    right. apply in_or_app. right. right. apply in_or_app. right. right.
    left. reflexivity.
Qed.

Lemma verdict_of_failed (corrupt : Z) :
  verdict_of E_NOT_OK corrupt = APP_UTILS_TEST_STATUS_FAIL.
Proof.
  unfold verdict_of, final_flag.
  destruct (corrupt =? E_OK); rewrite E_OK_eqb; reflexivity.
Qed.

(** C1. Let a group be found not Idle at Setup, or let its result-buffer
    setup fail (return something other than [E_OK]).  Then the failure is
    reported for that group, [Adc_SetupResultBuffer] is called for it all
    the same, Setup goes through every group in order (for each: the status
    check, then the buffer setup, whatever the answers), and the one verdict
    the run reports is FAIL. *)
Theorem C1_setup_continues_after_failure (g : nat) :
  let setup := events env Adc_appTest_setup (world_after_init env) in
  let buf := Addr_gAdcAppSetupBuffer (Z.of_nat g) 0 in
  (exists s, In (Ev (Adc_GetGroupStatus (Z.of_nat g)) s) setup /\ s <> ADC_IDLE)
  \/ (exists r, In (Ev (Adc_SetupResultBuffer (Z.of_nat g) buf) r) setup
                /\ r <> E_OK) ->
  (forall s, In (Ev (Adc_GetGroupStatus (Z.of_nat g)) s) setup -> s <> ADC_IDLE ->
             In (not_idle_report g) setup)
  /\ (forall r, In (Ev (Adc_SetupResultBuffer (Z.of_nat g) buf) r) setup ->
                r <> E_OK -> In (setup_failed_report g) setup)
  /\ (exists r, In (Ev (Adc_SetupResultBuffer (Z.of_nat g) buf) r) setup)
  /\ (exists groups, length groups = ADC_MAX_GROUP /\ setup = setup_events groups)
  /\ verdicts (events env main initial_world) = [APP_UTILS_TEST_STATUS_FAIL].
Proof.
  intros setup buf Hfail.
  destruct (main_verdict env)
    as (groups & usage & corrupt & Hg & Hsetup & Hde & Hv & _).
  fold setup in Hsetup.
  assert (Hstatus : forall s, In (Ev (Adc_GetGroupStatus (Z.of_nat g)) s) setup ->
            exists x, (g < ADC_MAX_GROUP)%nat /\ groups !! g = Some x /\ s = x.1).
  { intros s Hin. rewrite Hsetup in Hin. apply in_rounds in Hin.
    destruct Hin as (i & x & Hi & Hx & Hin).
    apply setup_group_status in Hin. destruct Hin as [Hz ->].
    apply Nat2Z.inj in Hz. subst i. exists x.
    split; [exact Hi | split; [exact Hx | reflexivity]]. }
  assert (Hbuffer : forall r, In (Ev (Adc_SetupResultBuffer (Z.of_nat g) buf) r) setup ->
            exists x, (g < ADC_MAX_GROUP)%nat /\ groups !! g = Some x /\ r = x.2).
  { intros r Hin. rewrite Hsetup in Hin. apply in_rounds in Hin.
    destruct Hin as (i & x & Hi & Hx & Hin).
    apply setup_group_buffer in Hin. destruct Hin as [Hz ->].
    apply Nat2Z.inj in Hz. subst i. exists x.
    split; [exact Hi | split; [exact Hx | reflexivity]]. }
  assert (Hx : exists x, (g < ADC_MAX_GROUP)%nat /\ groups !! g = Some x
                         /\ (x.1 <> ADC_IDLE \/ x.2 <> E_OK)).
  { destruct Hfail as [(s & Hin & Hs) | (r & Hin & Hr)].
    - destruct (Hstatus s Hin) as (x & Hi & Hx & ->). exists x.
      split; [exact Hi | split; [exact Hx | left; exact Hs]].
    - destruct (Hbuffer r Hin) as (x & Hi & Hx & ->). exists x.
      split; [exact Hi | split; [exact Hx | right; exact Hr]]. }
  destruct Hx as (x & Hi & Hx & Hbad).
  destruct (setup_group_reports g x) as (Hcall & Hrep1 & Hrep2).
  assert (Hin : forall e, In e (setup_group_events g x) -> In e setup).
  { intros e He. rewrite Hsetup. apply in_rounds. exists g, x.
    split; [exact Hi | split; [exact Hx | exact He]]. }
  split; [| split; [| split; [| split]]].
  - intros s Hs Hne. destruct (Hstatus s Hs) as (x' & _ & Hx' & ->).
    rewrite Hx in Hx'. injection Hx' as <-. apply Hin, Hrep1, Hne.
  - intros r Hr Hne. destruct (Hbuffer r Hr) as (x' & _ & Hx' & ->).
    rewrite Hx in Hx'. injection Hx' as <-. apply Hin, Hrep2, Hne.
  - exists x.2. apply Hin, Hcall.
  - exists groups. split; [exact Hg | exact Hsetup].
  - rewrite Hv. f_equal.
    assert (Hf : forallb group_ok groups = false).
    { apply some_group_failed. exists g, x.1, x.2.
      destruct x; split; [exact Hx | exact Hbad]. }
    unfold run_flag. rewrite Hf. apply verdict_of_failed.
Qed.

(** C2. Whatever the environment answers, the run is: [Adc_appInit], Setup
    of every group, [ADC_APP_LOOPCNT] = 10 complete iterations, the store of
    the pass flag, teardown.  The pass flag is read once and one verdict is
    reported, both in teardown, after the last iteration; the verdict is
    PASS exactly when every group was Idle with its buffer set up and the
    corruption check returned [E_OK]. *)
Theorem C2_errors_aggregated_into_one_verdict :
  exists (groups : list (Z * Z)) (its : list Iteration) (usage corrupt : Z),
    let before_teardown :=
      events env Adc_appInit initial_world
      ++ setup_events groups ++ loop_events its ++ flag_events groups in
    length groups = ADC_MAX_GROUP
    /\ length its = 10%nat
    /\ Forall iteration_wf its
    /\ events env main initial_world
       = before_teardown ++ teardown_events (run_flag groups) usage corrupt
    /\ verdicts before_teardown = [] /\ flag_reads before_teardown = 0%nat
    /\ verdicts (events env main initial_world)
       = [verdict_of (run_flag groups) corrupt]
    /\ flag_reads (events env main initial_world) = 1%nat
    /\ (verdict_of (run_flag groups) corrupt = APP_UTILS_TEST_STATUS_PASS
        <-> forallb group_ok groups = true /\ corrupt = E_OK).
Proof.
  destruct (main_events env)
    as (groups & its & usage & corrupt & Hg & Hi & Hwf & Hsetup & Hde & Hpre & Hmain).
  exists groups, its, usage, corrupt. cbv zeta.
  split; [exact Hg |]. split; [exact Hi |]. split; [exact Hwf |].
  split; [rewrite Hmain, <- !app_assoc; reflexivity |].
  assert (Hno := no_verdict _ (before_teardown_no_verdict env)).
  rewrite Hpre in Hno. destruct Hno as [Hno1 Hno2].
  split; [exact Hno1 |]. split; [exact Hno2 |].
  destruct (teardown_verdict (run_flag groups) usage corrupt) as [Ht1 Ht2].
  split; [| split].
  - rewrite Hmain, !app_assoc, verdicts_app, Ht1.
    rewrite <- !app_assoc, Hno1. reflexivity.
  - rewrite Hmain, !app_assoc, flag_reads_app, Ht2.
    rewrite <- !app_assoc, Hno2. reflexivity.
  - apply verdict_of_pass.
Qed.

End VerdictClaims.

(** ** Claims about one iteration of the capture loop *)

(** Operations that program or arm the transfer engine. *)
Definition is_dma_arm (o : Op) : bool :=
  match o with
  | Cdd_Dma_ParamSet _ _ _ _ | Cdd_Dma_EnableTransferRegion _ _ => true
  | _ => false
  end.

(** The operation that starts the trigger generator: the EPWM time-base
    counter set to count up. *)
Definition starts_trigger (o : Op) : bool :=
  match o with
  | EPWM_setTimeBaseCounterMode _ EPWM_COUNTER_MODE_UP => true
  | _ => false
  end.

(** The operations of a poll tick. *)
Definition is_poll_op (o : Op) : bool :=
  match o with
  | Mcal_CacheP_inv _ _ _
  | Load_gAdcAppDmaBuffer _ _
  | HW_RD_REG16 _
  | Adc_GetGroupStatus _
  | Store_gAdcAppLog _ _ _
  | AppUtils_delay _ => true
  | _ => false
  end.

Lemma Forall_negb (P : Op -> bool) (evs : list Event) :
  Forall (fun e => negb (P (ev_op e)) = true) evs ->
  Forall (fun e => P (ev_op e) = false) evs.
Proof.
  apply List.Forall_impl. intros e He. apply negb_true_iff. exact He.
Qed.

Section IterationClaims.
Context `{Config}.
Variable env : Env.

(** C3. In every iteration of the capture loop the events are, in this
    order: the whole DMA buffer ([ADC_MAX_GROUP] rows of one 2-byte word,
    from [gAdcAppDmaBuffer[0][0]]) set to zero, then written back from the
    cache; the group notifications enabled; the hardware trigger enabled
    (and the interrupt mode set); the transfer-engine channel programmed
    with a descriptor whose source is the result register of the group and
    whose destination is [gAdcAppDmaBuffer[0][0]], and the same channel
    armed; the EPWM configured, with its counter frozen; and only then the
    EPWM counter set to count up.  Nothing in the EPWM configuration starts
    the counter, and nothing after the start of the counter programs or arms
    the transfer engine. *)
Theorem C3_arming_order (loopcnt : nat) (w : World) :
  exists (addr : Z) (rest : list Event),
    events env (Adc_appTest_iteration loopcnt) w
    = [Ev (memset (Addr_gAdcAppDmaBuffer 0 0) 0 (Z.of_nat ADC_MAX_GROUP * 1 * 2)) 0;
       Ev (Mcal_CacheP_wb (Addr_gAdcAppDmaBuffer 0 0) (Z.of_nat ADC_MAX_GROUP * 1 * 2)
             Mcal_CacheP_TYPE_ALL) 0]
      ++ List.map (fun g => Ev (Adc_EnableGroupNotification (Z.of_nat g)) 0)
           (seq 0 ADC_MAX_GROUP)
      ++ [Ev (Adc_EnableHardwareTrigger ADC_APP_GROUP_ID) 0;
          Ev (Adc_SetInterruptContinuousMode ADC_APP_GROUP_ID) 0;
          Ev (Adc_GetReadResultBaseAddress ADC_APP_GROUP_ID) addr;
          Ev (Cdd_Dma_ParamSet ADC_APP_DMA_CHANNEL 0 0
                {| srcPtr := Addr_raw addr;
                   destPtr := Addr_gAdcAppDmaBuffer 0 0;
                   aCnt := 2;
                   bCnt := 1;
                   cCnt := 1;
                   bCntReload := 0;
                   srcBIdx := 0;
                   destBIdx := 0;
                   srcCIdx := 0;
                   destCIdx := 2;
                   opt := Z.lor (Z.lor (Z.lor CDD_EDMA_OPT_TCINTEN_MASK
                                              CDD_EDMA_OPT_ITCINTEN_MASK)
                                       CDD_EDMA_OPT_SYNCDIM_MASK)
                                CDD_EDMA_OPT_STATIC_MASK |}) 0;
          Ev (Cdd_Dma_EnableTransferRegion ADC_APP_DMA_CHANNEL
                CDD_EDMA_TRIG_MODE_EVENT) 0]
      ++ silent (Adc_appEpwmEnable ADC_APP_EPWM_BASE_ADDR)
      ++ [Ev (EPWM_setTimeBaseCounterMode ADC_APP_EPWM_BASE_ADDR
                EPWM_COUNTER_MODE_UP) 0;
          Ev (HW_WR_REG32 (0x502F0000 + 0x1008) 0x01234567) 0;
          Ev (HW_WR_REG32 (0x502F0000 + 0x100C) 0xFEDCBA8) 0;
          Ev (HW_WR_REG32 (0x502F0000 + 0x0010) 0x00000001) 0]
      ++ rest
    /\ Forall (fun e => starts_trigger (ev_op e) || is_dma_arm (ev_op e) = false)
              (silent (Adc_appEpwmEnable ADC_APP_EPWM_BASE_ADDR))
    /\ Forall (fun e => is_dma_arm (ev_op e) = false) rest.
Proof.
  destruct (Adc_appTest_arm_events env w) as [addr Harm].
  exists addr,
    (events env (Adc_appPrintResult loopcnt ;; Adc_appTest_disarm)
       (exec env Adc_appTest_arm w).2).
  split; [| split].
  - assert (Hsize : sizeof_gAdcAppDmaBuffer = Z.of_nat ADC_MAX_GROUP * 1 * 2)
      by reflexivity.
    assert (Hparam : Adc_appDmaConfigure_edmaParam (Addr_gAdcAppDmaBuffer 0 0)
                       (ADC_APP_NUM_CHANNEL * 2) addr
                     = {| srcPtr := Addr_raw addr;
                          destPtr := Addr_gAdcAppDmaBuffer 0 0;
                          aCnt := 2;
                          bCnt := 1;
                          cCnt := 1;
                          bCntReload := 0;
                          srcBIdx := 0;
                          destBIdx := 0;
                          srcCIdx := 0;
                          destCIdx := 2;
                          opt := Z.lor (Z.lor (Z.lor CDD_EDMA_OPT_TCINTEN_MASK
                                                     CDD_EDMA_OPT_ITCINTEN_MASK)
                                              CDD_EDMA_OPT_SYNCDIM_MASK)
                                       CDD_EDMA_OPT_STATIC_MASK |})
      by reflexivity.
    rewrite <- Hsize, <- Hparam.
    unfold Adc_appTest_iteration. rewrite (events_bind env Adc_appTest_arm), Harm.
    unfold arm_events. rewrite <- !app_assoc. reflexivity.
  - apply (Forall_negb (fun o => starts_trigger o || is_dma_arm o)).
    apply (all_ops_silent (fun o => negb (starts_trigger o || is_dma_arm o))).
    all_ops_app.
  - apply (Forall_negb is_dma_arm).
    apply (all_ops_events (fun o => negb (is_dma_arm o))).
    all_ops_app.
Qed.

(** C7. Every iteration ends with, in this order: the EPWM ADC triggers A
    and B disabled and the EPWM counter frozen (the trigger generator
    stopped), then the hardware trigger of the sampler disabled, then the
    notification of every group disabled. *)
Theorem C7_disarm_order (loopcnt : nat) (w : World) :
  events env (Adc_appTest_iteration loopcnt) w
  = events env (Adc_appTest_arm ;; Adc_appPrintResult loopcnt) w
    ++ [Ev (EPWM_disableADCTrigger ADC_APP_EPWM_BASE_ADDR EPWM_SOC_A) 0;
        Ev (EPWM_disableADCTrigger ADC_APP_EPWM_BASE_ADDR EPWM_SOC_B) 0;
        Ev (EPWM_setTimeBaseCounterMode ADC_APP_EPWM_BASE_ADDR
              EPWM_COUNTER_MODE_STOP_FREEZE) 0;
        Ev (Adc_DisableHardwareTrigger ADC_APP_GROUP_ID) 0]
    ++ List.map (fun g => Ev (Adc_DisableGroupNotification (Z.of_nat g)) 0)
         (seq 0 ADC_MAX_GROUP).
Proof.
  unfold Adc_appTest_iteration.
  rewrite !events_bind, Adc_appTest_disarm_events, <- !app_assoc.
  reflexivity.
Qed.

End IterationClaims.

(** ** The application log *)

(** The slots of [gAdcAppLog] the events store to, in order. *)
Definition log_stores (evs : list Event) : list (nat * LogField) :=
  flat_map (fun e => match ev_op e with
                     | Store_gAdcAppLog idx f _ => [(idx, f)]
                     | _ => []
                     end) evs.

Definition LogField_eqb (f1 f2 : LogField) : bool :=
  match f1, f2 with
  | F_dmaBuff, F_dmaBuff | F_hwResult, F_hwResult | F_status, F_status => true
  | _, _ => false
  end.

Definition slot_eqb (k1 k2 : nat * LogField) : bool :=
  (k1.1 =? k2.1)%nat && LogField_eqb k1.2 k2.2.

(** The indices never go back. *)
Fixpoint index_order (l : list nat) : bool :=
  match l with
  | a :: (b :: _) as t => (a <=? b)%nat && index_order t
  | _ => true
  end.

(** No slot is stored to twice. *)
Fixpoint written_once (l : list (nat * LogField)) : bool :=
  match l with
  | [] => true
  | k :: t => negb (existsb (slot_eqb k) t) && written_once t
  end.

(** Entries are populated in increasing index order and an entry that has
    been written is not written again. *)
Definition log_discipline (keys : list (nat * LogField)) : bool :=
  index_order (List.map fst keys) && written_once keys.

(** Entry 0, then entry 1, ... up to entry [ADC_APP_LOG_SIZE - 1]; of each
    entry [dmaBuff], [hwResult], [status]. *)
Definition log_order : list (nat * LogField) :=
  flat_map (fun i => [(i, F_dmaBuff); (i, F_hwResult); (i, F_status)])
           (seq 0 ADC_APP_LOG_SIZE).

Definition is_log_store (o : Op) : bool :=
  match o with
  | Store_gAdcAppLog _ _ _ => true
  | _ => false
  end.

Lemma log_stores_app (l1 l2 : list Event) :
  log_stores (l1 ++ l2) = log_stores l1 ++ log_stores l2.
Proof. apply flat_map_app. Qed.

Lemma no_log_stores (evs : list Event) :
  Forall (fun e => negb (is_log_store (ev_op e)) = true) evs ->
  log_stores evs = [].
Proof.
  induction 1 as [| e l He Hl IH]; [reflexivity |].
  unfold log_stores in *. simpl. rewrite IH.
  destruct e as [o r]; destruct o; simpl in *; try discriminate; reflexivity.
Qed.

Lemma no_log_stores_events {A : Type} (env : Env) (p : Prog A) (w : World) :
  all_ops (fun o => negb (is_log_store o)) p -> log_stores (events env p w) = [].
Proof.
  intros Hp. apply no_log_stores.
  apply (all_ops_events (fun o => negb (is_log_store o))). exact Hp.
Qed.

Lemma log_stores_for_each (env : Env) (body : nat -> Prog unit)
      (c : list (nat * LogField)) (n : nat) :
  (forall i w, log_stores (events env (body i) w) = c) ->
  forall start w,
    log_stores (events env (for_acc start n (fun i _ => body i) tt) w)
    = concat (replicate n c).
Proof.
  intros Hb. induction n as [| n IH]; intros start w; [reflexivity |].
  cbn [for_acc replicate concat].
  rewrite events_bind, log_stores_app, Hb. f_equal.
  destruct (exec env (body start) w).1. apply IH.
Qed.

Section LogClaims.
Context `{Config}.
Variable env : Env.

Lemma log_stores_polls (addr : Z) (xs : list (Z * Z * Z)) :
  length xs = ADC_APP_LOG_SIZE ->
  log_stores (concat (zip_with (poll_events addr) (seq 0 ADC_APP_LOG_SIZE) xs))
  = log_order.
Proof.
  intros Hlen.
  do 10 (destruct xs as [| [[? ?] ?] xs]; [discriminate Hlen |]).
  destruct xs; [reflexivity | discriminate Hlen].
Qed.

Lemma log_stores_iteration (loopcnt : nat) (w : World) :
  log_stores (events env (Adc_appTest_iteration loopcnt) w) = log_order.
Proof.
  unfold Adc_appTest_iteration.
  rewrite !events_bind, !log_stores_app.
  destruct (Adc_appPrintResult_events env loopcnt (exec env Adc_appTest_arm w).2)
    as (addr & xs & report & Hlen & Hrep & Hdrain).
  destruct (exec env Adc_appTest_arm w).1.
  rewrite Hdrain. unfold drain_events.
  rewrite !no_log_stores_events by all_ops_app.
  rewrite log_stores_app.
  change (Ev (Adc_GetReadResultBaseAddress ADC_APP_GROUP_ID) addr
          :: concat (zip_with (poll_events addr) (seq 0 ADC_APP_LOG_SIZE) xs)
          ++ report)
    with ([Ev (Adc_GetReadResultBaseAddress ADC_APP_GROUP_ID) addr]
          ++ concat (zip_with (poll_events addr) (seq 0 ADC_APP_LOG_SIZE) xs)
          ++ report).
  rewrite !log_stores_app, (log_stores_polls addr xs Hlen).
  rewrite (no_log_stores (silent _)).
  - rewrite (no_log_stores report).
    + rewrite app_nil_r. reflexivity.
    + revert Hrep. apply List.Forall_impl. intros [o r]. simpl.
      destruct o; simpl; intros Hr; try discriminate; reflexivity.
  - apply (all_ops_silent (fun o => negb (is_log_store o))). all_ops_app.
Qed.

(** C8, as amended.  Within each iteration of the capture loop the log
    entries are populated in increasing index order, entry 0 first, and once
    an entry has been written it is not written again in that iteration
    (each of its three fields is stored once).  Over the run, each of the
    [ADC_APP_LOOPCNT] iterations stores to the same entries again, in the
    same order. *)
Theorem C8_log_order_within_iteration (loopcnt : nat) (w : World) :
  log_stores (events env (Adc_appTest_iteration loopcnt) w) = log_order
  /\ log_discipline log_order = true
  /\ log_stores (events env main initial_world)
     = concat (replicate ADC_APP_LOOPCNT log_order).
Proof.
  split; [apply log_stores_iteration |]. split; [reflexivity |].
  unfold main, Adc_appTest.
  rewrite !events_bind, !log_stores_app.
  unfold for_each at 1.
  rewrite (log_stores_for_each env Adc_appTest_iteration log_order
             ADC_APP_LOOPCNT log_stores_iteration).
  rewrite !no_log_stores_events by all_ops_app.
  rewrite app_nil_r. reflexivity.
Qed.

End LogClaims.

(** ** A configuration and environments to run the application on *)

Definition sample_group (hwUnit : Z) : Adc_GroupConfigType :=
  {| groupId := 0; groupPriority := 0; hwUnitId := hwUnit;
     Adc_GroupEndNotification := 0; streamNumSamples := 1; resolution := 12;
     convMode := 0; triggSrc := 1; accessMode := 0; streamBufMode := 0;
     hwTrigSignal := 0; hwTrigTimer := 0; groupReplacement := 0;
     groupChannelMask := 1; groupDataAccessMode := 0; numChannels := 1;
     groupDmaChannelId := 0;
     channelConfig := [{| hwChannelId := 0; samplewindow := 16 |}] |}.

(** Two groups on one hardware unit; [E_OK] = 0, [E_NOT_OK] = 1 and the
    status values 0..3 as in the AUTOSAR headers, the option bits as in the
    EDMA parameter set (TCINTEN bit 20, ITCINTEN bit 21, SYNCDIM bit 2,
    STATIC bit 3). *)
Definition sample_config : Config :=
  {| ADC_MAX_GROUP := 2;
     ADC_MAX_HW_UNIT := 1;
     AdcConfigSet :=
       {| maxGroup := 2; maxHwUnit := 1;
          groupCfg := [sample_group 0; sample_group 0];
          hwUnitCfg := [{| hwUnit_hwUnitId := 0; hwUnit_baseAddr := 0x502C0000;
                           hwUnit_prescale := 0; hwUnit_resolution := 12 |}] |};
     APP_NAME := "ADC_APP";
     E_OK := 0;
     E_NOT_OK := 1;
     ADC_IDLE := 0;
     ADC_BUSY := 1;
     ADC_COMPLETED := 2;
     ADC_STREAM_COMPLETED := 3;
     CDD_EDMA_OPT_TCINTEN_MASK := 0x00100000;
     CDD_EDMA_OPT_ITCINTEN_MASK := 0x00200000;
     CDD_EDMA_OPT_SYNCDIM_MASK := 0x00000004;
     CDD_EDMA_OPT_STATIC_MASK := 0x00000008;
     E_OK_NOT_OK := ltac:(discriminate);
     ADC_MAX_GROUP_uint8 := ltac:(repeat constructor);
     ADC_MAX_HW_UNIT_uint8 := ltac:(repeat constructor) |}.

(** Every group Idle, every call successful, one completion interrupt after
    each operation. *)
Definition idle_env : Env :=
  {| oracle := fun _ _ => 0; irq := fun _ => 1%nat |}.

(** Group 1 is Busy, everything else as in [idle_env]. *)
Definition busy_env : Env :=
  {| oracle := fun _ o => match o with
                          | Adc_GetGroupStatus 1 => 1
                          | _ => 0
                          end;
     irq := fun _ => 1%nat |}.

(** The result register holds a new sample at each read: here the number of
    events so far. *)
Definition sampling_env : Env :=
  {| oracle := fun h o => match o with
                          | HW_RD_REG16 _ => Z.of_nat (length h)
                          | _ => 0
                          end;
     irq := fun _ => O |}.

(** With every group Idle and every check passed the run reports PASS. *)
Example idle_run_passes :
  verdicts (events idle_env (@main sample_config) (@initial_world sample_config))
  = [APP_UTILS_TEST_STATUS_PASS].
Proof. vm_compute. reflexivity. Qed.

(** The values stored to one slot of the log, in order. *)
Definition log_values (idx : nat) (f : LogField) (evs : list Event) : list Z :=
  flat_map (fun e => match ev_op e with
                     | Store_gAdcAppLog i g v =>
                         if slot_eqb (i, g) (idx, f) then [v] else []
                     | _ => []
                     end) evs.

(** C8, as the claim states it, fails: over a run the log does not keep the
    discipline.  With a result register that changes between reads, entry 0
    is written in every one of the ten iterations, each time with another
    value. *)
Lemma C8_counterexample_entry_rewritten :
  let evs := events sampling_env (@main sample_config) (@initial_world sample_config) in
  log_discipline (log_stores evs) = false
  /\ log_values 0 F_hwResult evs
     = [204; 492; 780; 1068; 1356; 1644; 1932; 2220; 2508; 2796].
Proof. split; vm_compute; reflexivity. Qed.

(** ** The transfer descriptor *)

(** The descriptors the events install in the transfer engine. *)
Definition installed (evs : list Event) : list Cdd_Dma_ParamEntry :=
  flat_map (fun e => match ev_op e with
                     | Cdd_Dma_ParamSet _ _ _ p => [p]
                     | _ => []
                     end) evs.

Definition is_param_set (o : Op) : bool :=
  match o with
  | Cdd_Dma_ParamSet _ _ _ _ => true
  | _ => false
  end.

Lemma installed_app (l1 l2 : list Event) :
  installed (l1 ++ l2) = installed l1 ++ installed l2.
Proof. apply flat_map_app. Qed.

Lemma no_installed (evs : list Event) :
  Forall (fun e => negb (is_param_set (ev_op e)) = true) evs ->
  installed evs = [].
Proof.
  induction 1 as [| e l He Hl IH]; [reflexivity |].
  unfold installed in *. simpl. rewrite IH.
  destruct e as [o r]; destruct o; simpl in *; try discriminate; reflexivity.
Qed.

Lemma lor4_has (a b c d : Z) :
  let o := Z.lor (Z.lor (Z.lor a b) c) d in
  Z.land o a = a /\ Z.land o b = b /\ Z.land o c = c /\ Z.land o d = d.
Proof.
  cbv zeta. repeat split; apply Z.bits_inj'; intros n _;
    rewrite Z.land_spec, !Z.lor_spec;
    destruct (Z.testbit a n), (Z.testbit b n), (Z.testbit c n), (Z.testbit d n);
    reflexivity.
Qed.

Section Descriptor.
Context `{Config}.
Variable env : Env.

(** The fields of the descriptor in the words of the specification:
    element count [aCnt], inner and outer frame count [bCnt] and [cCnt],
    reload count [bCntReload], source and destination index stride [srcBIdx]
    and [destBIdx], source and destination frame stride [srcCIdx] and
    [destCIdx]. *)
Definition has_option (p : Cdd_Dma_ParamEntry) (mask : Z) : Prop :=
  Z.land (opt p) mask = mask.

(** Counts and options: one 16-bit sample per channel, one frame, the four
    option flags. *)
Definition descriptor_counts_and_options (p : Cdd_Dma_ParamEntry) : Prop :=
  aCnt p = ADC_APP_NUM_CHANNEL * sizeof_Adc_ValueGroupType
  /\ bCnt p = 1
  /\ cCnt p = 1
  /\ has_option p CDD_EDMA_OPT_TCINTEN_MASK
  /\ has_option p CDD_EDMA_OPT_ITCINTEN_MASK
  /\ has_option p CDD_EDMA_OPT_SYNCDIM_MASK
  /\ has_option p CDD_EDMA_OPT_STATIC_MASK.

(** The invariant as the claim states it: the destination index stride is
    one sample slot. *)
Definition descriptor_invariant_as_claimed (p : Cdd_Dma_ParamEntry) : Prop :=
  descriptor_counts_and_options p
  /\ destBIdx p = sizeof_Adc_ValueGroupType.

(** The invariant the code keeps: the destination frame stride is one
    sample slot, the other strides are 0. *)
Definition descriptor_invariant (p : Cdd_Dma_ParamEntry) : Prop :=
  descriptor_counts_and_options p
  /\ destCIdx p = sizeof_Adc_ValueGroupType
  /\ destBIdx p = 0
  /\ srcBIdx p = 0
  /\ srcCIdx p = 0.

Lemma edmaParam_counts_and_options (addr : Z) :
  descriptor_counts_and_options
    (Adc_appDmaConfigure_edmaParam (Addr_gAdcAppDmaBuffer 0 0)
       (ADC_APP_NUM_CHANNEL * 2) addr).
Proof.
  unfold descriptor_counts_and_options, has_option. cbn [aCnt bCnt cCnt opt
    Adc_appDmaConfigure_edmaParam].
  split; [reflexivity |]. split; [reflexivity |]. split; [reflexivity |].
  apply lor4_has.
Qed.

(** C5, as amended.  Every iteration installs one descriptor in the
    transfer engine.  Its source is the result base address the ADC driver
    returned, its destination the start of the DMA buffer.  Its element
    count is the number of channels times two bytes (one 16-bit sample per
    channel), its inner and outer frame counts are one, its options include
    completion interrupt, intermediate completion interrupt, dimensional
    sync and static reprogram.  Its destination frame stride ([destCIdx]) is
    two bytes, one sample slot; its destination index stride ([destBIdx])
    and its source strides are zero. *)
Theorem C5_descriptor_installed (loopcnt : nat) (w : World) :
  exists addr : Z,
    let p := Adc_appDmaConfigure_edmaParam (Addr_gAdcAppDmaBuffer 0 0)
               (ADC_APP_NUM_CHANNEL * 2) addr in
    installed (events env (Adc_appTest_iteration loopcnt) w) = [p]
    /\ In (Ev (Adc_GetReadResultBaseAddress ADC_APP_GROUP_ID) addr)
          (events env Adc_appTest_arm w)
    /\ srcPtr p = Addr_raw addr
    /\ destPtr p = Addr_gAdcAppDmaBuffer 0 0
    /\ descriptor_invariant p.
Proof.
  destruct (Adc_appTest_arm_events env w) as [addr Harm].
  exists addr. cbv zeta.
  split; [| split; [| split; [reflexivity | split; [reflexivity |]]]].
  - unfold Adc_appTest_iteration.
    rewrite (events_bind env Adc_appTest_arm), installed_app, Harm.
    rewrite (no_installed (events env _ _)).
    + unfold arm_events. rewrite !installed_app.
      rewrite (no_installed (List.map _ _)), (no_installed (silent _)).
      * reflexivity.
      * apply (all_ops_silent (fun o => negb (is_param_set o))). all_ops_app.
      * apply List.Forall_forall. intros e He.
        apply in_map_iff in He. destruct He as (g & <- & _). reflexivity.
    + apply (all_ops_events (fun o => negb (is_param_set o))). all_ops_app.
  - rewrite Harm. unfold arm_events.
    apply in_or_app. right. apply in_or_app. right.
    right. right. left. reflexivity.
  - split; [apply edmaParam_counts_and_options |]. repeat split.
Qed.

End Descriptor.

(** C5, as the claim states it, fails: the destination index stride of the
    descriptor the application installs is 0, not one sample slot. *)
Lemma C5_counterexample_index_stride :
  let p := @Adc_appDmaConfigure_edmaParam sample_config
             (Addr_gAdcAppDmaBuffer 0 0) (ADC_APP_NUM_CHANNEL * 2) 0 in
  installed (events idle_env (@Adc_appTest_iteration sample_config 0)
               (@initial_world sample_config)) = [p]
  /\ destBIdx p = 0
  /\ ~ @descriptor_invariant_as_claimed sample_config p.
Proof.
  cbv zeta. split; [vm_compute; reflexivity |]. split; [reflexivity |].
  intros [_ Hstride]. discriminate Hstride.
Qed.

(** ** Claims about the completion counter *)

Section CounterClaims.
Context `{Config}.
Variable env : Env.

(** C6, as amended.  Every activation of the transfer-completion handler
    adds one to [gAdcAppDmaCallbackCount] in [uint32] arithmetic (the sum
    modulo 2^32, so one more unless the counter is at its maximum) and
    changes nothing else: not the pass flag, not the log, and it performs no
    operation.  Every step of a run is an activation of the handler or leaves
    the counter as it is.  In a run with at most 2^32 - 1 activations the
    counter never decreases and ends at the number of activations. *)
Theorem C6_completion_counter :
  (forall (appData : Ptr) (w : World),
      let w' := Adc_appDmaTransferCallback appData w in
      gAdcAppDmaCallbackCount w' = (gAdcAppDmaCallbackCount w + 1) mod 2 ^ 32
      /\ (0 <= gAdcAppDmaCallbackCount w < UINT32_MAX ->
          gAdcAppDmaCallbackCount w' = gAdcAppDmaCallbackCount w + 1)
      /\ gTestPassed w' = gTestPassed w
      /\ gAdcAppLog w' = gAdcAppLog w
      /\ trace w' = trace w)
  /\ (forall w, chain counter_step w (worlds env main w))
  /\ (Z.of_nat (completions env main initial_world) <= UINT32_MAX ->
      chain counter_le initial_world (worlds env main initial_world)
      /\ gAdcAppDmaCallbackCount (exec env main initial_world).2
         = Z.of_nat (completions env main initial_world)).
Proof.
  split; [| split].
  - intros appData w. cbv zeta.
    split; [reflexivity |].
    split; [apply callback_below_max |].
    repeat split.
  - intros w. apply worlds_counter_step.
  - intros Hmax.
    assert (H0 : gAdcAppDmaCallbackCount initial_world = 0) by reflexivity.
    destruct (worlds_counter env main initial_world) as [Hc He].
    + rewrite H0. lia.
    + rewrite H0. exact Hmax.
    + split; [exact Hc |]. rewrite He, H0. reflexivity.
Qed.

End CounterClaims.

(** C6, as the claim states it, fails at the maximum of the counter: the
    activation takes it from 2^32 - 1 to 0, which is neither one more nor
    at least what it was. *)
Lemma C6_counterexample_wrap :
  let w := {| gTestPassed := 0;
              gAdcAppDmaCallbackCount := UINT32_MAX;
              gAdcAppLog := [];
              trace := [] |} in
  let w' := Adc_appDmaTransferCallback NULL_PTR w in
  gAdcAppDmaCallbackCount w' = 0
  /\ gAdcAppDmaCallbackCount w' <> gAdcAppDmaCallbackCount w + 1
  /\ ~ counter_le w w'.
Proof.
  cbv zeta. split; [reflexivity |]. split.
  - intros E. vm_compute in E. discriminate E.
  - intros Hle. vm_compute in Hle. apply Hle. reflexivity.
Qed.

(** A run of the sample configuration with one completion after each
    operation: 2990 activations. *)
Lemma C6_witness :
  Z.of_nat (completions idle_env (@main sample_config) (@initial_world sample_config))
  <= UINT32_MAX
  /\ chain counter_le (@initial_world sample_config)
       (worlds idle_env (@main sample_config) (@initial_world sample_config))
  /\ gAdcAppDmaCallbackCount
       (exec idle_env (@main sample_config) (@initial_world sample_config)).2
     = 2990.
Proof.
  assert (Hmax : Z.of_nat (completions idle_env (@main sample_config)
                             (@initial_world sample_config)) <= UINT32_MAX).
  { vm_compute. discriminate. }
  split; [exact Hmax |].
  destruct (@C6_completion_counter sample_config idle_env) as (_ & _ & Hrun).
  destruct (Hrun Hmax) as [Hc He].
  split; [exact Hc |]. rewrite He. vm_compute. reflexivity.
Defined.

(** A run of the sample configuration in which group 1 is Busy at Setup. *)
Lemma C1_witness :
  let setup := events busy_env (@Adc_appTest_setup sample_config)
                 (@world_after_init sample_config busy_env) in
  (exists s, In (Ev (Adc_GetGroupStatus 1) s) setup /\ s <> 0)
  /\ In (@not_idle_report 1) setup
  /\ (exists r, In (Ev (Adc_SetupResultBuffer 1 (Addr_gAdcAppSetupBuffer 1 0)) r) setup)
  /\ verdicts (events busy_env (@main sample_config) (@initial_world sample_config))
     = [APP_UTILS_TEST_STATUS_FAIL].
Proof.
  cbv zeta.
  assert (Hin : In (Ev (Adc_GetGroupStatus 1) 1)
                   (events busy_env (@Adc_appTest_setup sample_config)
                      (@world_after_init sample_config busy_env))).
  { vm_compute. do 5 right. left. reflexivity. }
  assert (Hbusy : exists s,
             In (Ev (Adc_GetGroupStatus 1) s)
                (events busy_env (@Adc_appTest_setup sample_config)
                   (@world_after_init sample_config busy_env))
             /\ s <> 0).
  { exists 1. split; [exact Hin | discriminate]. }
  split; [exact Hbusy |].
  destruct (@C1_setup_continues_after_failure sample_config busy_env 1%nat
              (or_introl Hbusy))
    as (Hrep & _ & Hcall & _ & Hverdict).
  split; [| split; [exact Hcall | exact Hverdict]].
  apply (Hrep 1 Hin). discriminate.
Defined.

(** ** The hardware port and disarming *)

Ltac bitwise :=
  apply Z.bits_inj'; intros ?n _;
  repeat first [rewrite Z.ldiff_spec | rewrite Z.lor_spec | rewrite Z.land_spec];
  repeat match goal with
         | |- context [Z.testbit ?x ?n] => destruct (Z.testbit x n)
         end;
  reflexivity.

Section HardwarePort.

(** The EPWM and ADC drivers, which decide what [EPWM_disableADCTrigger],
    [EPWM_setTimeBaseCounterMode] and [Adc_DisableHardwareTrigger] do to the
    hardware, are not among the sources.  Where their registers are, which
    bits they use and how a counter mode is encoded are parameters. *)
Variable EPWM_O_ETSEL : Z.
Variable EPWM_O_TBCTL : Z.
Variable ETSEL_SOCEN : EPWM_ADCStartOfConversionType -> Z.
Variable TBCTL_CTRMODE_MASK : Z.
Variable TBCTL_CTRMODE : EPWM_TimeBaseCountMode -> Z.
Variable ADC_TRIGGER_REG : Z -> Z.
Variable ADC_TRIGGER_MASK : Z.

(** Modelled from the spec: the hardware port that the driver sources would
    access, "read/write at address, with a test double backed by an
    in-memory map" (section 9).  A register reads 0 until it is written. *)
Definition port_read (port : gmap Z Z) (addr : Z) : Z :=
  default 0 (port !! addr).

(** Modelled from the spec: the write of the hardware port (section 9). *)
Definition port_write (port : gmap Z Z) (addr v : Z) : gmap Z Z :=
  <[addr := v]> port.

(** Modelled from the spec: a read-modify-write of one register through the
    port, the form of every register side effect of the absent drivers. *)
Definition port_update (addr : Z) (f : Z -> Z) (port : gmap Z Z) : gmap Z Z :=
  port_write port addr (f (port_read port addr)).

(** Modelled from the spec: what the three driver functions used to disarm
    do, in place of the absent EPWM and ADC driver sources.  The
    specification names what the trigger generator driver offers as the
    "enable/disable of the trigger-to-sampler signal path" and the counter
    mode, what the sampler driver offers as [disableHardwareTrigger(group)],
    and requires that disarming "stops the slot from responding to further
    triggers", "never raises an error" and is "safe and idempotent"
    (sections 4.1, 5, 6, 8).  So a disable clears the enable bits of its
    register, the counter mode replaces the mode field of its register, and
    there is no error outcome. *)
Definition port_step (o : Op) (port : gmap Z Z) : gmap Z Z :=
  match o with
  | EPWM_disableADCTrigger base soc =>
      port_update (base + EPWM_O_ETSEL)
        (fun v => Z.ldiff v (ETSEL_SOCEN soc)) port
  | EPWM_setTimeBaseCounterMode base mode =>
      port_update (base + EPWM_O_TBCTL)
        (fun v => Z.lor (Z.ldiff v TBCTL_CTRMODE_MASK) (TBCTL_CTRMODE mode)) port
  | Adc_DisableHardwareTrigger grp =>
      port_update (ADC_TRIGGER_REG grp)
        (fun v => Z.ldiff v ADC_TRIGGER_MASK) port
  | _ => port
  end.

(** What a program of such operations does to the port. *)
Definition port_run {A : Type} (p : Prog A) (port : gmap Z Z) : gmap Z Z :=
  fold_left (fun s o => port_step o s) (ops p) port.

Lemma lookup_port_update (a b : Z) (f : Z -> Z) (port : gmap Z Z) :
  port_update a f port !! b
  = if decide (a = b) then Some (f (port_read port a)) else port !! b.
Proof.
  unfold port_update, port_write. rewrite lookup_insert.
  destruct (decide (a = b)); reflexivity.
Qed.

Lemma read_port_update (a b : Z) (f : Z -> Z) (port : gmap Z Z) :
  port_read (port_update a f port) b
  = if decide (a = b) then f (port_read port a) else port_read port b.
Proof.
  unfold port_read at 1. rewrite lookup_port_update.
  destruct (decide (a = b)); reflexivity.
Qed.

(** The disarm sequence of the application, for any EPWM base address and
    any group. *)
Definition disarm (base grp : Z) : Prog unit :=
  Adc_appDisableTrigger base ;; call_ (Adc_DisableHardwareTrigger grp).

Lemma disarm_idempotent (base grp : Z) (port : gmap Z Z) :
  port_run (disarm base grp) (port_run (disarm base grp) port)
  = port_run (disarm base grp) port.
Proof.
  unfold port_run. cbn [ops disarm Adc_appDisableTrigger bind call_ fold_left
                        port_step].
  generalize (base + EPWM_O_ETSEL) (base + EPWM_O_TBCTL) (ADC_TRIGGER_REG grp).
  intros etsel tbctl trig.
  apply map_eq. intros b.
  rewrite !lookup_port_update, !read_port_update.
  repeat case_decide; subst; try congruence; try reflexivity;
    f_equal; bitwise.
Qed.

(** C9. For every state of the hardware port, the disarm sequence of the
    application (the EPWM ADC triggers A and B disabled, the time-base
    counter frozen, the hardware trigger of the sampler disabled) done twice
    in succession leaves the port in the state it is in after the first time;
    the sequence has no error outcome. *)
Theorem C9_disarm_idempotent (port : gmap Z Z) :
  ops Adc_appTest_disableTrigger
  = [EPWM_disableADCTrigger ADC_APP_EPWM_BASE_ADDR EPWM_SOC_A;
     EPWM_disableADCTrigger ADC_APP_EPWM_BASE_ADDR EPWM_SOC_B;
     EPWM_setTimeBaseCounterMode ADC_APP_EPWM_BASE_ADDR
       EPWM_COUNTER_MODE_STOP_FREEZE;
     Adc_DisableHardwareTrigger ADC_APP_GROUP_ID]
  /\ port_run Adc_appTest_disableTrigger (port_run Adc_appTest_disableTrigger port)
     = port_run Adc_appTest_disableTrigger port.
Proof.
  split; [reflexivity |].
  apply (disarm_idempotent ADC_APP_EPWM_BASE_ADDR ADC_APP_GROUP_ID).
Qed.

End HardwarePort.

(** * Further properties of AdcApp.c *)

(** ** The trigger path over an iteration *)

(** The operations that switch the trigger path: the hardware trigger of
    the sampler, the ADC triggers of the EPWM and the mode of its counter. *)
Definition is_trigger_op (o : Op) : bool :=
  match o with
  | Adc_EnableHardwareTrigger _ | Adc_DisableHardwareTrigger _
  | EPWM_enableADCTrigger _ _ | EPWM_disableADCTrigger _ _
  | EPWM_setTimeBaseCounterMode _ _ => true
  | _ => false
  end.

Definition trigger_ops (evs : list Event) : list Op :=
  List.filter is_trigger_op (List.map ev_op evs).

Lemma trigger_ops_app (l1 l2 : list Event) :
  trigger_ops (l1 ++ l2) = trigger_ops l1 ++ trigger_ops l2.
Proof. unfold trigger_ops. rewrite List.map_app, List.filter_app. reflexivity. Qed.

Lemma no_trigger_ops (evs : list Event) :
  Forall (fun e => negb (is_trigger_op (ev_op e)) = true) evs ->
  trigger_ops evs = [].
Proof.
  induction 1 as [| e l He Hl IH]; [reflexivity |].
  unfold trigger_ops in *. cbn [List.map List.filter].
  apply negb_true_iff in He. rewrite He. exact IH.
Qed.

Section TriggerPath.
Context `{Config}.
Variable env : Env.

(** X1. In every iteration of the capture loop, whatever the drivers
    answer, the trigger path is switched by these operations and in this
    order: the hardware trigger of the group is enabled, the EPWM counter is
    frozen, SOC-A is enabled and SOC-B disabled, the counter is set to count
    up; then SOC-A and SOC-B are disabled, the counter is frozen and the
    hardware trigger of the group is disabled.  Every enable has its disable
    in the same iteration, and the polling and printing in between do not
    touch the trigger path. *)
Theorem trigger_path_of_iteration (loopcnt : nat) (w : World) :
  trigger_ops (events env (Adc_appTest_iteration loopcnt) w)
  = [Adc_EnableHardwareTrigger ADC_APP_GROUP_ID;
     EPWM_setTimeBaseCounterMode ADC_APP_EPWM_BASE_ADDR EPWM_COUNTER_MODE_STOP_FREEZE;
     EPWM_enableADCTrigger ADC_APP_EPWM_BASE_ADDR EPWM_SOC_A;
     EPWM_disableADCTrigger ADC_APP_EPWM_BASE_ADDR EPWM_SOC_B;
     EPWM_setTimeBaseCounterMode ADC_APP_EPWM_BASE_ADDR EPWM_COUNTER_MODE_UP;
     EPWM_disableADCTrigger ADC_APP_EPWM_BASE_ADDR EPWM_SOC_A;
     EPWM_disableADCTrigger ADC_APP_EPWM_BASE_ADDR EPWM_SOC_B;
     EPWM_setTimeBaseCounterMode ADC_APP_EPWM_BASE_ADDR EPWM_COUNTER_MODE_STOP_FREEZE;
     Adc_DisableHardwareTrigger ADC_APP_GROUP_ID].
Proof.
  unfold Adc_appTest_iteration.
  rewrite !events_bind, !trigger_ops_app, Adc_appTest_disarm_events.
  destruct (Adc_appTest_arm_events env w) as [addr ->].
  rewrite (no_trigger_ops (events env (Adc_appPrintResult loopcnt) _))
    by (apply (all_ops_events (fun o => negb (is_trigger_op o))); all_ops_app).
  unfold arm_events, disarm_events.
  rewrite !trigger_ops_app.
  rewrite !(no_trigger_ops (List.map _ _))
    by (apply List.Forall_forall; intros e He; apply in_map_iff in He;
        destruct He as (g & <- & _); reflexivity).
  reflexivity.
Qed.

End TriggerPath.

(** ** Initialisation and the bracket of a run *)

(** What [Adc_appInit] does once the drivers are set up: it reads the
    version of two drivers and prints. *)
Definition is_init_report (o : Op) : bool :=
  match o with
  | AppUtils_printf _ | GT_trace _ _ _
  | Adc_GetVersionInfo | Cdd_Dma_GetVersionInfo | Load_versioninfo _ => true
  | _ => false
  end.

(** The operations that bring the platform and the two drivers up or
    down. *)
Definition is_driver_lifecycle (o : Op) : bool :=
  match o with
  | Adc_appPlatformInit | Cdd_Dma_Init _ | Adc_Init
  | Adc_DeInit | Cdd_Dma_DeInit | Adc_appPlatformDeInit => true
  | _ => false
  end.

Lemma exec_keeps_log {A : Type} (env : Env) (p : Prog A) (w : World) :
  all_ops (fun o => negb (is_log_store o)) p ->
  gAdcAppLog (exec env p w).2 = gAdcAppLog w.
Proof.
  intros Hp. revert w. induction Hp as [a | o k Ho Hk IH]; intros w; simpl.
  - reflexivity.
  - rewrite IH, gAdcAppLog_deliver. destruct o; try reflexivity; discriminate.
Qed.

Section Bracket.
Context `{Config}.
Variable env : Env.

(** X2. [Adc_appInit] initialises the platform, then the DMA driver, then
    the ADC driver, then the interrupt controller; it registers the
    transfer-completion interrupt and after it the DMA callback.  All it
    does afterwards is read and print versions and configuration.  It leaves
    the pass flag and the log as they are. *)
Theorem Adc_appInit_order (w : World) :
  exists rest : list Event,
    events env Adc_appInit w
    = [Ev Adc_appPlatformInit 0;
       Ev (Cdd_Dma_Init NULL_PTR) 0;
       Ev Adc_Init 0;
       Ev vimInit 0;
       Ev (vimRegisterInterrupt
             {| cfg_map := Enum "VIM_INTTYPE_IRQ";
                cfg_type := Enum "VIM_INTTRIGTYPE_PULSE";
                cfg_intNum := Enum "MCAL_CSLR_R5FSS0_CORE0_INTR_TPCC0_INTAGGR";
                cfg_handler := Enum "CDD_EDMA_lld_transferCompletionMasterIsrFxn";
                cfg_priority := Enum "VIM_PRIORITY_4" |}) 0;
       Ev (Cdd_Dma_CbkRegister ADC_APP_DMA_CHANNEL NULL_PTR) 0]
      ++ rest
    /\ Forall (fun e => is_init_report (ev_op e) = true) rest
    /\ gTestPassed (exec env Adc_appInit w).2 = gTestPassed w
    /\ gAdcAppLog (exec env Adc_appInit w).2 = gAdcAppLog w.
Proof.
  eexists. split_and !.
  - unfold Adc_appInit, Adc_appInterruptConfig.
    do 5 (rewrite events_bind; cbv beta zeta).
    rewrite !events_call_. cbn [result app]. reflexivity.
  - apply (all_ops_events is_init_report). all_ops_app.
  - apply exec_keeps_flag. all_ops_app.
  - apply exec_keeps_log. all_ops_app.
Qed.

(** X3. A run of [main] starts by initialising the platform, the DMA driver
    and the ADC driver, and ends by deinitialising them in the reverse
    order: ADC driver, DMA driver, platform.  Nothing in between initialises
    or deinitialises a driver or the platform, whatever the drivers
    answer. *)
Theorem drivers_deinitialised_in_reverse_order (w : World) :
  exists middle : list Event,
    events env main w
    = [Ev Adc_appPlatformInit 0; Ev (Cdd_Dma_Init NULL_PTR) 0; Ev Adc_Init 0]
      ++ middle
      ++ [Ev Adc_DeInit 0; Ev Cdd_Dma_DeInit 0; Ev Adc_appPlatformDeInit 0]
    /\ Forall (fun e => is_driver_lifecycle (ev_op e) = false) middle.
Proof.
  unfold main.
  rewrite (events_bind env Adc_appInit), (events_bind env Adc_appTest),
    (events_bind env Adc_appDeInit), events_ret, app_nil_r.
  set (w1 := (exec env Adc_appInit w).2).
  set (w2 := (exec env Adc_appTest w1).2).
  destruct (Adc_appDeInit_events env w2) as (usage & corrupt & ->).
  unfold Adc_appInit at 1.
  do 3 (rewrite events_bind; cbv beta zeta).
  rewrite !events_call_. cbn [result].
  match goal with
  | |- context [[Ev Adc_Init 0] ++ events env ?p ?w0] =>
      set (tail := events env p w0);
      assert (Htail : Forall (fun e => negb (is_driver_lifecycle (ev_op e)) = true) tail)
        by (apply (all_ops_events (fun o => negb (is_driver_lifecycle o)));
            all_ops_app)
  end.
  set (test := events env Adc_appTest w1).
  assert (Htest : Forall (fun e => negb (is_driver_lifecycle (ev_op e)) = true) test)
    by (apply (all_ops_events (fun o => negb (is_driver_lifecycle o)));
        all_ops_app).
  clearbody tail test. generalize (gTestPassed w2). intros flag. clear w1 w2.
  unfold teardown_events.
  match goal with
  | |- context [?pre ++ ?c ++ ?l :: verdict_events ?f ++ ?post] =>
      exists (tail ++ test ++ pre ++ c ++ l :: verdict_events f)
  end.
  split.
  - rewrite <- ?app_assoc. cbn [app]. rewrite <- ?app_assoc. reflexivity.
  - apply (Forall_negb is_driver_lifecycle).
    rewrite !Forall_app. split_and !; try assumption.
    + repeat constructor.
    + destruct (corrupt =? E_OK); repeat constructor.
    + constructor; [reflexivity |].
      unfold verdict_events. destruct (E_OK =? _); repeat constructor.
Qed.

End Bracket.

(** ** What the log holds and what is printed of it *)

(** The log record of a poll tick that read [v] in the DMA buffer, [h] in
    the result register and the status [s]. *)
Definition log_record (x : Z * Z * Z) : Adc_AppLog_t :=
  let '(v, h, s) := x in {| dmaBuff := v; hwResult := h; status := s |}.

Lemma store_log_record (idx : nat) (v h s : Z) (l : list Adc_AppLog_t) :
  (idx < length l)%nat ->
  store_log idx F_status s (store_log idx F_hwResult h (store_log idx F_dmaBuff v l))
  = <[idx := log_record (v, h, s)]> l.
Proof.
  intros Hi. destruct (lookup_lt_is_Some_2 l idx Hi) as [r Hr].
  unfold store_log. rewrite Hr.
  rewrite list_lookup_insert_eq by exact Hi.
  rewrite list_insert_insert_eq.
  rewrite list_lookup_insert_eq by exact Hi.
  rewrite list_insert_insert_eq. reflexivity.
Qed.

Definition is_sample (x : Z * Z * Z) : Prop :=
  0 <= x.1.1 < 2 ^ 16 /\ 0 <= x.1.2 < 2 ^ 16.

Lemma uint16_range (z : Z) : 0 <= uint16 z < 2 ^ 16.
Proof. unfold uint16, wrap. apply Z.mod_pos_bound. reflexivity. Qed.

(** The log after a program is the log before it with the stores of the
    program applied, in order: nothing else writes it. *)
Definition apply_stores (evs : list Event) (l : list Adc_AppLog_t)
  : list Adc_AppLog_t :=
  fold_left (fun l e => match ev_op e with
                        | Store_gAdcAppLog idx f v => store_log idx f v l
                        | _ => l
                        end) evs l.

Lemma gAdcAppLog_exec {A : Type} (env : Env) (p : Prog A) (w : World) :
  gAdcAppLog (exec env p w).2 = apply_stores (events env p w) (gAdcAppLog w).
Proof.
  revert w. induction p as [a | o k IH]; intros w; [reflexivity |].
  cbn [exec events]. rewrite IH, gAdcAppLog_deliver.
  unfold apply_stores. cbn [fold_left ev_op commit gAdcAppLog].
  destruct o; reflexivity.
Qed.

Lemma result_load_log (env : Env) (idx : nat) (f : LogField) (w : World)
      (r : Adc_AppLog_t) :
  gAdcAppLog w !! idx = Some r ->
  result env (Load_gAdcAppLog idx f) w = get_field f r.
Proof. intros Hr. cbn [result]. rewrite Hr. reflexivity. Qed.

Section LogContents.
Context `{Config}.
Variable env : Env.

(** What the report of one log entry leaves in the history when the entry
    holds the record of [x]. *)
Definition print_events (logIndex : nat) (x : Z * Z * Z) : list Event :=
  let '(v, h, s) := x in
  [Ev (GT_trace GT_INFO " [Log %d] " [Z.of_nat logIndex]) 0;
   Ev (Load_gAdcAppLog logIndex F_dmaBuff) v;
   Ev (GT_trace GT_INFO " dmaBuff: %d," [v]) 0;
   Ev (Load_gAdcAppLog logIndex F_hwResult) h;
   Ev (GT_trace GT_INFO " HWResult: %d," [h]) 0;
   Ev (GT_trace GT_INFO "     " []) 0;
   Ev (Load_gAdcAppLog logIndex F_status) s]
  ++ silent (Adc_appPrintStatus 0 s)
  ++ [Ev (GT_trace GT_INFO " \r\n" []) 0].

Lemma Adc_appPrintResult_poll_state (addr : Z) (logIndex : nat) (w : World) :
  exists x,
    is_sample x
    /\ events env (Adc_appPrintResult_poll addr logIndex) w
       = poll_events addr logIndex x
    /\ ((logIndex < length (gAdcAppLog w))%nat ->
        gAdcAppLog (exec env (Adc_appPrintResult_poll addr logIndex) w).2
        = <[logIndex := log_record x]> (gAdcAppLog w)).
Proof.
  rewrite gAdcAppLog_exec.
  unfold Adc_appPrintResult_poll.
  rewrite !events_bind, !events_call_, !events_call, !exec_call.
  cbn [result is_void].
  match goal with
  | |- context [Ev (Load_gAdcAppDmaBuffer 0 0) ?x] => set (v := x)
  end.
  match goal with
  | |- context [Ev (HW_RD_REG16 addr) ?x] => set (h := x)
  end.
  match goal with
  | |- context [Ev (Adc_GetGroupStatus 0) ?x] => set (s := x)
  end.
  exists (v, h, s). split_and !.
  - split; apply uint16_range.
  - reflexivity.
  - intros Hi. cbn [app apply_stores fold_left ev_op].
    apply store_log_record. exact Hi.
Qed.

(** The poll loop: the ticks, and what they leave in the log entries the
    log has. *)
Lemma Adc_appPrintResult_poll_loop (addr : Z) (n start : nat) (w : World) :
  exists xs,
    length xs = n
    /\ Forall is_sample xs
    /\ events env (for_acc start n (fun i _ => Adc_appPrintResult_poll addr i) tt) w
       = concat (zip_with (poll_events addr) (seq start n) xs)
    /\ ((start + n <= length (gAdcAppLog w))%nat ->
        gAdcAppLog
          (exec env (for_acc start n (fun i _ => Adc_appPrintResult_poll addr i) tt) w).2
        = take start (gAdcAppLog w) ++ List.map log_record xs
          ++ drop (start + n) (gAdcAppLog w)).
Proof.
  revert start w. induction n as [| n IH]; intros start w.
  - exists []. split_and !; try reflexivity; [constructor |].
    intros _. cbn [for_acc exec snd List.map app].
    rewrite Nat.add_0_r, take_drop. reflexivity.
  - destruct (Adc_appPrintResult_poll_state addr start w) as (x & Hx & Hev & Hlog).
    cbn [for_acc]. rewrite events_bind, exec_bind, Hev.
    set (w1 := (exec env (Adc_appPrintResult_poll addr start) w).2) in *.
    destruct (exec env (Adc_appPrintResult_poll addr start) w).1.
    destruct (IH (S start) w1) as (xs & Hn & Hxs & Hevs & Hlogs).
    exists (x :: xs). split_and !.
    + cbn [length]. congruence.
    + constructor; assumption.
    + cbn [seq zip_with concat]. rewrite Hevs. reflexivity.
    + intros Hlen. specialize (Hlog ltac:(lia)).
      rewrite Hlogs by (rewrite Hlog, length_insert; lia).
      rewrite Hlog. cbn [List.map].
      rewrite take_S_r with (x := log_record x)
        by (apply list_lookup_insert_eq; lia).
      rewrite take_insert_ge by lia.
      rewrite drop_insert_lt by lia.
      rewrite <- app_assoc. cbn [app].
      replace (S start + n)%nat with (start + S n)%nat by lia. reflexivity.
Qed.

Lemma Adc_appPrintResult_print_events (logIndex : nat) (x : Z * Z * Z) (w : World) :
  gAdcAppLog w !! logIndex = Some (log_record x) ->
  events env (Adc_appPrintResult_print logIndex) w = print_events logIndex x.
Proof.
  intros Hx. destruct x as [[v h] s].
  unfold Adc_appPrintResult_print.
  rewrite !events_bind, !events_call, !exec_call.
  unfold GT_1trace, GT_0trace. rewrite !events_call_.
  rewrite (events_silent env (Adc_appPrintStatus _ _)) by all_ops_app.
  repeat (rewrite (result_load_log env logIndex _ _ (log_record (v, h, s)))
            by (repeat (rewrite exec_keeps_log by all_ops_app); exact Hx)).
  cbn [result get_field log_record dmaBuff hwResult status].
  unfold print_events. cbn [app]. reflexivity.
Qed.

Lemma Adc_appPrintResult_print_loop (n start : nat) (xs : list (Z * Z * Z)) (w : World) :
  length xs = n ->
  (forall j x, xs !! j = Some x ->
               gAdcAppLog w !! (start + j)%nat = Some (log_record x)) ->
  events env (for_acc start n (fun i _ => Adc_appPrintResult_print i) tt) w
  = concat (zip_with print_events (seq start n) xs).
Proof.
  revert start xs w. induction n as [| n IH]; intros start xs w Hn Hxs.
  - reflexivity.
  - destruct xs as [| x xs]; [discriminate Hn |].
    cbn [for_acc seq zip_with concat]. rewrite events_bind.
    rewrite (Adc_appPrintResult_print_events start x)
      by (rewrite <- (Nat.add_0_r start); apply (Hxs 0%nat); reflexivity).
    f_equal.
    destruct (exec env (Adc_appPrintResult_print start) w).1.
    apply IH; [injection Hn as Hn; exact Hn |].
    intros j y Hy. rewrite exec_keeps_log by all_ops_app.
    replace (S start + j)%nat with (start + S j)%nat by lia.
    apply Hxs. exact Hy.
Qed.

(** C4. In every iteration the poll loop runs [ADC_APP_LOG_SIZE] = 10 ticks.
    Tick [i] is, in this order: the invalidate of the whole DMA buffer
    ([ADC_MAX_GROUP] rows of one 2-byte word, from [gAdcAppDmaBuffer[0][0]]),
    the read of [gAdcAppDmaBuffer[0][0]] right after it and the store of the
    value read in the [dmaBuff] of log entry [i], the read of the result
    register (at the address the ADC driver returned just before the loop)
    and its store in [hwResult], the status of group 0 and its store in
    [status], and the delay of 100.  The iteration reads the DMA buffer and
    writes the log nowhere else, and when it ends the ten entries of the log
    hold the three values of their ticks. *)
Theorem C4_draining_ticks (loopcnt : nat) (w : World) :
  exists (addr : Z) (xs : list (Z * Z * Z)) (before after : list Event),
    length xs = 10%nat
    /\ events env (Adc_appTest_iteration loopcnt) w
       = before
         ++ [Ev (Adc_GetReadResultBaseAddress ADC_APP_GROUP_ID) addr]
         ++ concat (zip_with
              (fun (i : nat) '(v, h, s) =>
                 [Ev (Mcal_CacheP_inv (Addr_gAdcAppDmaBuffer 0 0)
                        (Z.of_nat ADC_MAX_GROUP * 1 * 2) Mcal_CacheP_TYPE_ALL) 0;
                  Ev (Load_gAdcAppDmaBuffer 0 0) v;
                  Ev (Store_gAdcAppLog i F_dmaBuff v) 0;
                  Ev (HW_RD_REG16 addr) h;
                  Ev (Store_gAdcAppLog i F_hwResult h) 0;
                  Ev (Adc_GetGroupStatus 0) s;
                  Ev (Store_gAdcAppLog i F_status s) 0;
                  Ev (AppUtils_delay 100) 0])
              (seq 0 10) xs)
         ++ after
    /\ Forall (fun e => is_poll_op (ev_op e) = false) before
    /\ Forall (fun e => is_poll_op (ev_op e) = false) after
    /\ (length (gAdcAppLog w) = 10%nat ->
        gAdcAppLog (exec env (Adc_appTest_iteration loopcnt) w).2
        = List.map (fun '(v, h, s) => {| dmaBuff := v; hwResult := h; status := s |})
            xs).
Proof.
  unfold Adc_appTest_iteration, Adc_appPrintResult.
  rewrite !events_bind. rewrite !exec_bind. cbv beta.
  set (w0 := (exec env Adc_appTest_arm w).2).
  rewrite (events_silent env (Adc_appPrintResult_header loopcnt)) by all_ops_app.
  set (w1 := (exec env (Adc_appPrintResult_header loopcnt) w0).2).
  rewrite events_call, !exec_call. cbn [fst].
  set (addr := result env (Adc_GetReadResultBaseAddress ADC_APP_GROUP_ID) w1).
  set (w2 := (exec env (call (Adc_GetReadResultBaseAddress ADC_APP_GROUP_ID)) w1).2).
  assert (Hw2 : gAdcAppLog w2 = gAdcAppLog w).
  { unfold w2, w1, w0. rewrite !exec_keeps_log by all_ops_app. reflexivity. }
  destruct (Adc_appPrintResult_poll_loop addr ADC_APP_LOG_SIZE 0%nat w2)
    as (xs & Hn & _ & Hev & Hlog).
  unfold for_each. rewrite Hev.
  set (w3 := (exec env (for_acc 0 ADC_APP_LOG_SIZE
                          (fun i _ => Adc_appPrintResult_poll addr i) tt) w2).2) in *.
  set (prints := for_acc 0 ADC_APP_LOG_SIZE (fun i _ => Adc_appPrintResult_print i) tt).
  set (w4 := (exec env prints w3).2).
  set (w5 := (exec env (GT_0trace GT_INFO " \r\n") w4).2).
  exists addr, xs,
    (events env Adc_appTest_arm w ++ silent (Adc_appPrintResult_header loopcnt)),
    ((events env prints w3 ++ events env (GT_0trace GT_INFO " \r\n") w4)
     ++ events env Adc_appTest_disarm w5).
  split; [exact Hn |]. split; [| split; [| split]].
  - assert (Hsize : sizeof_gAdcAppDmaBuffer = Z.of_nat ADC_MAX_GROUP * 1 * 2)
      by reflexivity.
    rewrite <- Hsize. change 10%nat with ADC_APP_LOG_SIZE.
    rewrite <- !app_assoc. reflexivity.
  - apply (Forall_negb is_poll_op). rewrite Forall_app. split.
    + apply (all_ops_events (fun o => negb (is_poll_op o))). all_ops_app.
    + apply (all_ops_silent (fun o => negb (is_poll_op o))). all_ops_app.
  - apply (Forall_negb is_poll_op). rewrite !Forall_app. split_and !;
      apply (all_ops_events (fun o => negb (is_poll_op o))); unfold prints;
      all_ops_app.
  - intros Hlen.
    assert (Hw5 : gAdcAppLog (exec env Adc_appTest_disarm w5).2 = gAdcAppLog w3).
    { unfold w5, w4, prints. rewrite !exec_keeps_log by all_ops_app. reflexivity. }
    rewrite Hw5, Hlog by (rewrite Hw2, Hlen; reflexivity).
    rewrite Hw2. cbn [take app]. rewrite drop_ge by (rewrite Hlen; reflexivity).
    apply app_nil_r.
Qed.

(** X4. When the log has its [ADC_APP_LOG_SIZE] records,
    [Adc_appPrintResult] prints what it polled: it reads the result base
    address once, polls ten samples (DMA buffer word, result register, group
    status; the two data words are 16-bit values), then prints the ten
    records with exactly the values polled, in the same order, and leaves
    the log holding these ten records. *)
Theorem log_printed_as_polled (loopcnt : nat) (w : World) :
  length (gAdcAppLog w) = ADC_APP_LOG_SIZE ->
  exists (addr : Z) (xs : list (Z * Z * Z)),
    length xs = ADC_APP_LOG_SIZE
    /\ Forall is_sample xs
    /\ events env (Adc_appPrintResult loopcnt) w
       = silent (Adc_appPrintResult_header loopcnt)
         ++ [Ev (Adc_GetReadResultBaseAddress ADC_APP_GROUP_ID) addr]
         ++ concat (zip_with (poll_events addr) (seq 0 ADC_APP_LOG_SIZE) xs)
         ++ concat (zip_with print_events (seq 0 ADC_APP_LOG_SIZE) xs)
         ++ [Ev (GT_trace GT_INFO " \r\n" []) 0]
    /\ gAdcAppLog (exec env (Adc_appPrintResult loopcnt) w).2
       = List.map log_record xs.
Proof.
  intros Hlen. unfold Adc_appPrintResult.
  rewrite !exec_bind, !events_bind.
  rewrite (events_silent env (Adc_appPrintResult_header loopcnt)) by all_ops_app.
  set (w1 := (exec env (Adc_appPrintResult_header loopcnt) w).2).
  rewrite events_call, exec_call.
  set (addr := result env (Adc_GetReadResultBaseAddress ADC_APP_GROUP_ID) w1).
  set (w2 := (exec env (call (Adc_GetReadResultBaseAddress ADC_APP_GROUP_ID)) w1).2).
  assert (Hw2 : gAdcAppLog w2 = gAdcAppLog w).
  { unfold w2, w1. rewrite !exec_keeps_log by all_ops_app. reflexivity. }
  destruct (Adc_appPrintResult_poll_loop addr ADC_APP_LOG_SIZE 0%nat w2)
    as (xs & Hn & Hxs & Hev & Hlog).
  specialize (Hlog ltac:(rewrite Hw2, Hlen; reflexivity)).
  unfold for_each. rewrite Hev.
  set (w3 := (exec env (for_acc 0 ADC_APP_LOG_SIZE
                          (fun i _ => Adc_appPrintResult_poll addr i) tt) w2).2) in *.
  assert (Hw3 : gAdcAppLog w3 = List.map log_record xs).
  { rewrite Hlog, Hw2. cbn [take app]. rewrite drop_ge by lia.
    apply app_nil_r. }
  exists addr, xs. split_and !; try assumption.
  - rewrite (Adc_appPrintResult_print_loop ADC_APP_LOG_SIZE 0%nat xs w3 Hn).
    + unfold GT_0trace. rewrite events_call_. reflexivity.
    + intros j x Hj. rewrite Hw3. cbn [Nat.add].
      rewrite list_lookup_fmap, Hj. reflexivity.
  - rewrite !exec_keeps_log by all_ops_app. exact Hw3.
Qed.

End LogContents.

(** ** Accesses to the arrays of the application *)

Lemma all_ops_for_acc_bounded {S : Type} (P : Op -> bool) (body : nat -> S -> Prog S)
      (n start : nat) (s : S) :
  (forall i s', (start <= i < start + n)%nat -> all_ops P (body i s')) ->
  all_ops P (for_acc start n body s).
Proof.
  revert start s. induction n as [| n IH]; intros start s Hb; cbn [for_acc].
  - constructor.
  - apply all_ops_bind; [apply Hb; lia |].
    intros s'. apply IH. intros i s'' Hi. apply Hb. lia.
Qed.

Lemma all_ops_for_each_bounded (P : Op -> bool) (body : nat -> Prog unit) (n : nat) :
  (forall i, (i < n)%nat -> all_ops P (body i)) -> all_ops P (for_each n body).
Proof.
  intros Hb. apply all_ops_for_acc_bounded. intros i _ Hi. apply Hb. lia.
Qed.

Section Bounds.
Context `{Config}.

(** An operation that stays inside the arrays it names: an index of
    [gAdcAppLog] is below [ADC_APP_LOG_SIZE], and the buffer handed to
    [Adc_SetupResultBuffer] for a group is the start of the row of that
    group in [gAdcAppSetupBuffer], a row the array has. *)
Definition in_bounds (o : Op) : bool :=
  match o with
  | Load_gAdcAppLog idx _ | Store_gAdcAppLog idx _ _ => (idx <? ADC_APP_LOG_SIZE)%nat
  | Adc_SetupResultBuffer grp buf =>
      match buf with
      | Addr_gAdcAppSetupBuffer g idx =>
          (g =? grp) && (0 <=? g) && (g <? Z.of_nat ADC_MAX_GROUP)
          && (0 <=? idx) && (idx <? ADC_APP_READ_BUF_SIZE_WORD)
      | _ => false
      end
  | _ => true
  end.

Ltac in_bounds_step :=
  match goal with
  | |- all_ops _ (bind _ _) => apply all_ops_bind; [| intros ?]
  | |- all_ops _ (for_each _ _) => apply all_ops_for_each_bounded; intros ? ?
  | |- all_ops _ (for_acc _ _ _ _) => apply all_ops_for_acc_bounded; intros ? ? ?
  | |- all_ops _ (call _) => apply all_ops_call
  | |- all_ops _ (call_ _) => apply all_ops_call_
  | |- all_ops _ (Ret _) => constructor
  | |- all_ops _ (if ?b then _ else _) => destruct b
  | |- all_ops _ (let _ := _ in _) => cbv zeta
  end.

Lemma main_in_bounds : all_ops in_bounds main.
Proof.
  unfold main, Adc_appInit, Adc_appTest, Adc_appDeInit, Adc_appInterruptConfig,
    Adc_appTest_setup, Adc_appTest_setup_group, Adc_appTest_iteration,
    Adc_appTest_arm, Adc_appTest_disarm, Adc_appTest_disableTrigger,
    Adc_appPrintResult, Adc_appPrintResult_header, Adc_appPrintResult_poll,
    Adc_appPrintResult_print,
    Adc_appPrintStatus, Adc_appEpwmEnable, Adc_appDisableTrigger,
    Adc_appDmaConfigure, GT_0trace, GT_1trace, GT_3trace, EPWM.
  repeat first [in_bounds_step | progress cbv beta]; try reflexivity.
  all: cbn [in_bounds].
  all: try (apply Nat.ltb_lt; lia).
  rewrite Z.eqb_refl. unfold ADC_APP_READ_BUF_SIZE_WORD.
  repeat (apply andb_true_intro; split); try reflexivity.
  - apply Z.leb_le. lia.
  - apply Z.ltb_lt. lia.
Qed.

(** X5. No run of [main] leaves the arrays of the application, whatever the
    drivers answer: every read and write of [gAdcAppLog] has an index below
    [ADC_APP_LOG_SIZE], and the result buffer handed to
    [Adc_SetupResultBuffer] for a group is the start of the row of that
    group in [gAdcAppSetupBuffer], for a group below [ADC_MAX_GROUP]. *)
Theorem array_accesses_in_bounds (env : Env) (w : World) :
  Forall (fun e => in_bounds (ev_op e) = true) (events env main w).
Proof. apply (all_ops_events in_bounds). exact main_in_bounds. Qed.

End Bounds.

(** ** The orchestrator and the completion interrupts *)

Section Interrupts.
Context `{Config}.
Variable env : Env.

(** X6. The orchestrator does not depend on the completion interrupts: two
    runs of [main] against drivers that answer alike but deliver the
    interrupts differently (more, fewer, none, at other times) have the same
    events, the same pass flag and the same log. *)
Theorem run_independent_of_interrupts (irq' : list Event -> nat) (w : World) :
  let env' := {| oracle := oracle env; irq := irq' |} in
  events env' main w = events env main w
  /\ gTestPassed (exec env' main w).2 = gTestPassed (exec env main w).2
  /\ gAdcAppLog (exec env' main w).2 = gAdcAppLog (exec env main w).2.
Proof.
  cbv zeta. set (env' := {| oracle := oracle env; irq := irq' |}).
  assert (Hq : quiet env' = quiet env) by reflexivity.
  destruct (view_quiet env main w) as (Hp & Hl & _).
  destruct (view_quiet env' main w) as (Hp' & Hl' & _).
  rewrite Hq in Hp', Hl'.
  split_and !.
  - rewrite (events_quiet env), (events_quiet env'), Hq. reflexivity.
  - congruence.
  - congruence.
Qed.

(** [n] increments of a [uint32]. *)
Lemma uint32_iter (n : nat) (c : Z) :
  Nat.iter n (fun c => uint32 (c + 1)) (uint32 c) = uint32 (c + Z.of_nat n).
Proof.
  induction n as [| n IH].
  - cbn. rewrite Z.add_0_r. reflexivity.
  - rewrite Nat.iter_succ, IH. unfold uint32, wrap.
    rewrite Zplus_mod_idemp_l. f_equal. lia.
Qed.

Lemma counter_deliver (w : World) :
  gAdcAppDmaCallbackCount (deliver env w)
  = Nat.iter (irq env (trace w)) (fun c => uint32 (c + 1)) (gAdcAppDmaCallbackCount w).
Proof. unfold deliver. rewrite callback_iter. reflexivity. Qed.

Lemma counter_exec {A : Type} (p : Prog A) (w : World) (c : Z) :
  gAdcAppDmaCallbackCount w = uint32 c ->
  gAdcAppDmaCallbackCount (exec env p w).2
  = uint32 (c + Z.of_nat (completions env p w)).
Proof.
  revert w c. induction p as [a | o k IH]; intros w c Hc.
  - cbn [exec completions snd]. rewrite Z.add_0_r. exact Hc.
  - cbn [exec completions].
    set (r := result env o w). set (w1 := commit o r w).
    rewrite (IH r (deliver env w1) (c + Z.of_nat (irq env (trace w1)))).
    + f_equal. lia.
    + rewrite counter_deliver.
      change (gAdcAppDmaCallbackCount w1) with (gAdcAppDmaCallbackCount w).
      rewrite Hc. apply uint32_iter.
Qed.

(** X7. At the end of a run of [main] the completion counter is the number
    of completion interrupts delivered during the run, modulo 2^32: it
    starts at 0, only the callback writes it, and each activation adds one in
    [uint32] arithmetic. *)
Theorem counter_counts_completions :
  gAdcAppDmaCallbackCount (exec env main initial_world).2
  = Z.of_nat (completions env main initial_world) mod 2 ^ 32.
Proof. apply (counter_exec main initial_world 0). reflexivity. Qed.

End Interrupts.

(** ** The report of a status *)

Section PrintStatus.
Context `{Config}.
Variable env : Env.

Definition status_line (grpIdx : Z) : Event :=
  Ev (GT_trace GT_INFO " ADC Group %d Status: " [grpIdx]) 0.

Definition status_name (name : string) : Event := Ev (GT_trace GT_INFO name []) 0.

(** X8. When the four status codes are distinct, [Adc_appPrintStatus] prints
    the line with the group index followed by exactly one name, the name of
    the status; for a value that is none of the four codes it prints the
    line with the group index and no name. *)
Theorem Adc_appPrintStatus_names (grpIdx status : Z) (w : World) :
  List.NoDup [ADC_IDLE; ADC_BUSY; ADC_COMPLETED; ADC_STREAM_COMPLETED] ->
  (forall name : string,
      In (status, name)
         [(ADC_IDLE, "ADC_IDLE  !"); (ADC_BUSY, "ADC_BUSY !");
          (ADC_COMPLETED, "ADC_COMPLETED !");
          (ADC_STREAM_COMPLETED, "ADC_STREAM_COMPLETED !")]%string ->
      events env (Adc_appPrintStatus grpIdx status) w
      = [status_line grpIdx; status_name name])
  /\ (~ In status [ADC_IDLE; ADC_BUSY; ADC_COMPLETED; ADC_STREAM_COMPLETED] ->
      events env (Adc_appPrintStatus grpIdx status) w = [status_line grpIdx]).
Proof.
  intros Hnd.
  apply List.NoDup_cons_iff in Hnd as [H1 Hnd].
  apply List.NoDup_cons_iff in Hnd as [H2 Hnd].
  apply List.NoDup_cons_iff in Hnd as [H3 _].
  cbn [In] in H1, H2, H3.
  rewrite (events_silent env (Adc_appPrintStatus grpIdx status)) by all_ops_app.
  unfold Adc_appPrintStatus, silent, status_line, status_name.
  split.
  - intros name Hin. cbn [In] in Hin.
    destruct Hin as [E | [E | [E | [E | []]]]]; injection E as <- <-.
    + rewrite Z.eqb_refl. reflexivity.
    + destruct (Z.eqb_spec ADC_BUSY ADC_IDLE); [exfalso; intuition congruence |].
      rewrite Z.eqb_refl. reflexivity.
    + destruct (Z.eqb_spec ADC_COMPLETED ADC_IDLE); [exfalso; intuition congruence |].
      destruct (Z.eqb_spec ADC_COMPLETED ADC_BUSY); [exfalso; intuition congruence |].
      rewrite Z.eqb_refl. reflexivity.
    + destruct (Z.eqb_spec ADC_STREAM_COMPLETED ADC_IDLE);
        [exfalso; intuition congruence |].
      destruct (Z.eqb_spec ADC_STREAM_COMPLETED ADC_BUSY);
        [exfalso; intuition congruence |].
      destruct (Z.eqb_spec ADC_STREAM_COMPLETED ADC_COMPLETED);
        [exfalso; intuition congruence |].
      rewrite Z.eqb_refl. reflexivity.
  - intros Hout. cbn [In] in Hout.
    destruct (Z.eqb_spec status ADC_IDLE); [exfalso; intuition congruence |].
    destruct (Z.eqb_spec status ADC_BUSY); [exfalso; intuition congruence |].
    destruct (Z.eqb_spec status ADC_COMPLETED); [exfalso; intuition congruence |].
    destruct (Z.eqb_spec status ADC_STREAM_COMPLETED);
      [exfalso; intuition congruence |].
    reflexivity.
Qed.

End PrintStatus.

(** ** Error lines and the verdict *)

(** A line traced at level [GT_ERR]. *)
Definition is_error_line (o : Op) : bool :=
  match o with
  | GT_trace GT_ERR _ _ => true
  | _ => false
  end.

Definition error_lines (evs : list Event) : list Event :=
  List.filter (fun e => is_error_line (ev_op e)) evs.

Lemma error_lines_app (l1 l2 : list Event) :
  error_lines (l1 ++ l2) = error_lines l1 ++ error_lines l2.
Proof. apply List.filter_app. Qed.

Lemma no_error_lines (evs : list Event) :
  Forall (fun e => negb (is_error_line (ev_op e)) = true) evs ->
  error_lines evs = [].
Proof.
  induction 1 as [| e l He Hl IH]; [reflexivity |].
  unfold error_lines in *. cbn [List.filter].
  apply negb_true_iff in He. rewrite He. exact IH.
Qed.

Lemma no_error_lines_events {A : Type} (env : Env) (p : Prog A) (w : World) :
  all_ops (fun o => negb (is_error_line o)) p -> error_lines (events env p w) = [].
Proof.
  intros Hp. apply no_error_lines.
  apply (all_ops_events (fun o => negb (is_error_line o))). exact Hp.
Qed.

Section ErrorLines.
Context `{Config}.
Variable env : Env.

Lemma error_lines_setup_group (grpIdx : nat) (x : Z * Z) :
  error_lines (setup_group_events grpIdx x) = [] <-> group_ok x = true.
Proof.
  unfold setup_group_events, group_ok.
  change (Ev (Adc_GetGroupStatus (Z.of_nat grpIdx)) x.1 :: ?l)
    with ([Ev (Adc_GetGroupStatus (Z.of_nat grpIdx)) x.1] ++ l).
  rewrite !error_lines_app.
  rewrite (no_error_lines (silent _))
    by (apply (all_ops_silent (fun o => negb (is_error_line o))); all_ops_app).
  destruct (x.1 =? ADC_IDLE), (x.2 =? E_OK); cbn; split;
    intros E; try reflexivity; discriminate E.
Qed.

Lemma error_lines_setup (ns : list nat) (groups : list (Z * Z)) :
  length ns = length groups ->
  error_lines (concat (zip_with setup_group_events ns groups)) = []
  <-> forallb group_ok groups = true.
Proof.
  revert groups. induction ns as [| n ns IH]; intros [| x groups] Hlen;
    try discriminate Hlen; cbn [zip_with concat forallb].
  - split; reflexivity.
  - rewrite error_lines_app, andb_true_iff, <- IH by (injection Hlen; auto).
    rewrite <- error_lines_setup_group.
    split.
    + intros E. apply app_eq_nil in E. exact E.
    + intros [-> ->]. reflexivity.
Qed.

Lemma error_lines_teardown (flag usage corrupt : Z) :
  error_lines (teardown_events flag usage corrupt) = [] <-> corrupt = E_OK.
Proof.
  unfold teardown_events, verdict_events.
  destruct (Z.eqb_spec corrupt E_OK) as [-> | Hne];
    destruct (E_OK =? final_flag flag _); cbn; split;
    intros E; try reflexivity; try discriminate E; contradiction.
Qed.

Lemma world_after_init_eq :
  world_after_init env = (exec env Adc_appInit initial_world).2.
Proof. reflexivity. Qed.

Lemma error_lines_main :
  exists (groups : list (Z * Z)) (corrupt : Z),
    verdicts (events env main initial_world) = [verdict_of (run_flag groups) corrupt]
    /\ (error_lines (events env main initial_world) = []
        <-> forallb group_ok groups = true /\ corrupt = E_OK).
Proof.
  destruct (main_verdict env)
    as (groups & usage & corrupt & Hg & Hsetup & Hde & Hv & _).
  exists groups, corrupt. split; [exact Hv |].
  rewrite world_after_init_eq in Hsetup, Hde.
  unfold main.
  rewrite (events_bind env Adc_appInit), (events_bind env Adc_appTest),
    (events_bind env Adc_appDeInit), events_ret, app_nil_r.
  cbv beta. rewrite Hde, !error_lines_app.
  rewrite (no_error_lines_events env Adc_appInit) by all_ops_app.
  unfold Adc_appTest.
  rewrite (events_bind env Adc_appTest_setup), Hsetup, error_lines_app.
  rewrite (no_error_lines_events env _ (exec env Adc_appTest_setup _).2)
    by all_ops_app.
  pose proof (error_lines_teardown (run_flag groups) usage corrupt) as Ht.
  assert (Hs := error_lines_setup (seq 0 ADC_MAX_GROUP) groups).
  rewrite length_seq in Hs. specialize (Hs (eq_sym Hg)).
  fold (setup_events groups) in Hs.
  revert Ht Hs.
  generalize (error_lines (setup_events groups))
    (error_lines (teardown_events (run_flag groups) usage corrupt)).
  intros A B Ht Hs. cbn [app]. rewrite app_nil_r. split.
  - intros E. apply app_eq_nil in E. destruct E as [EA EB].
    split; [apply Hs, EA | apply Ht, EB].
  - intros [Hf Hc]. apply Hs in Hf. apply Ht in Hc. subst A B. reflexivity.
Qed.

(** X9. A run of [main] reports one verdict, and the verdict is FAIL exactly
    when the run has printed an error line (a group that is not Idle, a
    result buffer that could not be set up, or stack/section corruption):
    no failure is silent and no error line is followed by PASS. *)
Theorem failure_iff_error_line :
  exists verdict : AppUtils_TestStatus,
    verdicts (events env main initial_world) = [verdict]
    /\ (verdict = APP_UTILS_TEST_STATUS_FAIL
        <-> error_lines (events env main initial_world) <> []).
Proof.
  destruct error_lines_main as (groups & corrupt & Hv & Herr).
  exists (verdict_of (run_flag groups) corrupt). split; [exact Hv |].
  pose proof (verdict_of_pass groups corrupt) as Hp.
  rewrite <- Herr in Hp.
  destruct (verdict_of (run_flag groups) corrupt).
  - split; [intros E; discriminate E |]. intros Hne. destruct Hp as [Hp _].
    elim Hne. exact (Hp eq_refl).
  - split; [| reflexivity]. intros _ E. destruct Hp as [_ Hp].
    discriminate (Hp E).
Qed.

End ErrorLines.

(** ** Runs of the sample configuration *)

(** The first iteration of the sample configuration, from the initial
    state: the log holds the ten records polled. *)
Lemma log_printed_as_polled_witness :
  exists xs : list (Z * Z * Z),
    length xs = ADC_APP_LOG_SIZE
    /\ gAdcAppLog (exec idle_env (@Adc_appPrintResult sample_config 0)
                     (@initial_world sample_config)).2
       = List.map log_record xs.
Proof.
  destruct (@log_printed_as_polled sample_config idle_env 0%nat
              (@initial_world sample_config) eq_refl)
    as (addr & xs & Hlen & _ & _ & Hlog).
  exists xs. split; [exact Hlen | exact Hlog].
Defined.

(** The status codes of the sample configuration are distinct; a Busy group
    is reported by name. *)
Lemma Adc_appPrintStatus_names_witness :
  events idle_env (@Adc_appPrintStatus sample_config 1 1) (@initial_world sample_config)
  = [status_line 1; status_name "ADC_BUSY !"].
Proof.
  assert (Hnd : List.NoDup [@ADC_IDLE sample_config; @ADC_BUSY sample_config;
                            @ADC_COMPLETED sample_config;
                            @ADC_STREAM_COMPLETED sample_config]).
  { repeat (apply List.NoDup_cons; [cbn; intuition discriminate |]).
    apply List.NoDup_nil. }
  destruct (@Adc_appPrintStatus_names sample_config idle_env 1 1
              (@initial_world sample_config) Hnd) as [Hknown _].
  apply (Hknown "ADC_BUSY !"%string). right. left. reflexivity.
Defined.


(** The first iteration of the sample configuration, from the initial
    state, whose log has its ten entries: after the iteration the log holds
    ten records. *)
Lemma C4_witness :
  length (gAdcAppLog (@initial_world sample_config)) = 10%nat
  /\ length (gAdcAppLog (exec idle_env (@Adc_appTest_iteration sample_config 0)
                           (@initial_world sample_config)).2) = 10%nat.
Proof.
  split; [reflexivity |].
  destruct (@C4_draining_ticks sample_config idle_env 0%nat
              (@initial_world sample_config))
    as (addr & xs & before & after & Hn & _ & _ & _ & Hlog).
  rewrite (Hlog eq_refl), length_map. exact Hn.
Defined.

(** * The other example sources

    [mcan_transceiver.c] and [I2cApp.c] are programs of their own, with
    their own globals and their own drivers.  Their functions are programs
    over the operations of each file; what is common to them, the programs,
    their runs and the lemmas about runs, is stated once, for any type of
    operations [Op] and any type [St] of the globals. *)

Module Free.

Section Free.
Context {Op St : Type}.

Inductive Prog (A : Type) : Type :=
| Ret (a : A)
| Do (o : Op) (k : Z -> Prog A).
Arguments Ret {A} a.
Arguments Do {A} o k.

Fixpoint bind {A B : Type} (p : Prog A) (f : A -> Prog B) : Prog B :=
  match p with
  | Ret a => f a
  | Do o k => Do o (fun r => bind (k r) f)
  end.

Definition call (o : Op) : Prog Z := Do o Ret.
Definition call_ (o : Op) : Prog unit := Do o (fun _ => Ret tt).

Record Event : Type := Ev { ev_op : Op; ev_ret : Z }.

Record World : Type := {
  globals : St;
  trace : list Event          (* newest first *)
}.

(** The environment: the drivers and the hardware.  It answers an
    operation from the events before it, and decides how many times the
    callback that writes the globals is run after an event. *)
Record Env : Type := {
  oracle : list Event -> Op -> Z;
  irq : list Event -> nat
}.

(** What the operations are to the globals of a file: the result of an
    operation, from the globals and the answer of the environment; what the
    operation stores; and what the callback that runs in interrupt context
    stores. *)
Record Machine : Type := {
  result_of : St -> Z -> Op -> Z;
  store : Op -> St -> St;
  isr : St -> St
}.

Variable M : Machine.
Variable env : Env.

Definition result (o : Op) (w : World) : Z :=
  result_of M (globals w) (oracle env (trace w) o) o.

Definition commit (o : Op) (r : Z) (w : World) : World :=
  {| globals := store M o (globals w); trace := Ev o r :: trace w |}.

Definition deliver (w : World) : World :=
  {| globals := Nat.iter (irq env (trace w)) (isr M) (globals w);
     trace := trace w |}.

Fixpoint exec {A : Type} (p : Prog A) (w : World) : A * World :=
  match p with
  | Ret a => (a, w)
  | Do o k =>
      let r := result o w in
      exec (k r) (deliver (commit o r w))
  end.

Fixpoint events {A : Type} (p : Prog A) (w : World) : list Event :=
  match p with
  | Ret _ => []
  | Do o k =>
      let r := result o w in
      Ev o r :: events (k r) (deliver (commit o r w))
  end.

Lemma exec_seq {A B : Type} (p : Prog A) (f : A -> Prog B) (w : World) :
  exec (bind p f) w = exec (f (exec p w).1) (exec p w).2.
Proof.
  revert w. induction p as [a | o k IH]; intros w; simpl; [reflexivity | apply IH].
Qed.

Lemma events_seq {A B : Type} (p : Prog A) (f : A -> Prog B) (w : World) :
  events (bind p f) w = events p w ++ events (f (exec p w).1) (exec p w).2.
Proof.
  revert w. induction p as [a | o k IH]; intros w; simpl; [reflexivity |].
  f_equal. apply IH.
Qed.

(** A run of [p] from [w]: its result, the state it ends in and the events
    it leaves. *)
Definition runs {A : Type} (p : Prog A) (w : World) (a : A) (w' : World)
           (evs : list Event) : Prop :=
  exec p w = (a, w') /\ events p w = evs.

Lemma runs_exec {A : Type} (p : Prog A) (w : World) :
  runs p w (exec p w).1 (exec p w).2 (events p w).
Proof. split; [destruct (exec p w); reflexivity | reflexivity]. Qed.

Lemma runs_ret {A : Type} (a : A) (w : World) : runs (Ret a) w a w [].
Proof. split; reflexivity. Qed.

Lemma runs_do {A : Type} (o : Op) (k : Z -> Prog A) (w : World) (a : A)
      (w' : World) (evs : list Event) :
  runs (k (result o w)) (deliver (commit o (result o w) w)) a w' evs ->
  runs (Do o k) w a w' (Ev o (result o w) :: evs).
Proof. intros [He Hv]. split; simpl; [exact He | f_equal; exact Hv]. Qed.

Lemma runs_bind {A B : Type} (p : Prog A) (f : A -> Prog B) (w w1 w2 : World)
      (a : A) (b : B) (e1 e2 : list Event) :
  runs p w a w1 e1 -> runs (f a) w1 b w2 e2 -> runs (bind p f) w b w2 (e1 ++ e2).
Proof.
  intros [He1 Hv1] [He2 Hv2]. split.
  - rewrite exec_seq, He1. exact He2.
  - rewrite events_seq, He1, Hv1. simpl. rewrite Hv2. reflexivity.
Qed.

Lemma runs_call (o : Op) (w : World) :
  runs (call o) w (result o w) (deliver (commit o (result o w) w))
       [Ev o (result o w)].
Proof. split; reflexivity. Qed.

Lemma runs_call_ (o : Op) (w : World) :
  runs (call_ o) w tt (deliver (commit o (result o w) w)) [Ev o (result o w)].
Proof. split; reflexivity. Qed.

(** Programs all of whose operations satisfy [P]. *)
Inductive all_ops {A : Type} (P : Op -> bool) : Prog A -> Prop :=
| all_ops_ret (a : A) : all_ops P (Ret a)
| all_ops_do (o : Op) (k : Z -> Prog A) :
    P o = true -> (forall r, all_ops P (k r)) -> all_ops P (Do o k).

Lemma all_ops_seq {A B : Type} (P : Op -> bool) (p : Prog A) (f : A -> Prog B) :
  all_ops P p -> (forall a, all_ops P (f a)) -> all_ops P (bind p f).
Proof.
  intros Hp Hf. induction Hp as [a | o k Ho Hk IH]; simpl.
  - apply Hf.
  - constructor; [exact Ho | exact IH].
Qed.

Lemma all_ops_one (P : Op -> bool) (o : Op) : P o = true -> all_ops P (call o).
Proof. intros Ho. constructor; [exact Ho | intros r; constructor]. Qed.

Lemma all_ops_one_ (P : Op -> bool) (o : Op) : P o = true -> all_ops P (call_ o).
Proof. intros Ho. constructor; [exact Ho | intros r; constructor]. Qed.

Lemma all_ops_impl {A : Type} (P Q : Op -> bool) (p : Prog A) :
  (forall o, P o = true -> Q o = true) -> all_ops P p -> all_ops Q p.
Proof.
  intros HPQ Hp. induction Hp as [a | o k Ho Hk IH]; constructor; auto.
Qed.

Lemma all_ops_trace {A : Type} (P : Op -> bool) (p : Prog A) (w : World) :
  all_ops P p -> Forall (fun e => P (ev_op e) = true) (events p w).
Proof.
  intros Hp. revert w. induction Hp as [a | o k Ho Hk IH]; intros w; simpl.
  - constructor.
  - constructor; [exact Ho | apply IH].
Qed.

(** Programs all of whose operations satisfy [P] and all of whose results
    satisfy [Q], whatever the operations answer. *)
Inductive yields {A : Type} (P : Op -> bool) (Q : A -> Prop) : Prog A -> Prop :=
| yields_ret (a : A) : Q a -> yields P Q (Ret a)
| yields_do (o : Op) (k : Z -> Prog A) :
    P o = true -> (forall r, yields P Q (k r)) -> yields P Q (Do o k).

Lemma yields_seq {A B : Type} (P : Op -> bool) (Q : A -> Prop) (R : B -> Prop)
      (p : Prog A) (f : A -> Prog B) :
  yields P Q p -> (forall a, Q a -> yields P R (f a)) -> yields P R (bind p f).
Proof.
  intros Hp Hf. induction Hp as [a Ha | o k Ho Hk IH]; simpl.
  - apply Hf, Ha.
  - constructor; [exact Ho | exact IH].
Qed.

Lemma all_ops_yields {A : Type} (P : Op -> bool) (p : Prog A) :
  all_ops P p -> yields P (fun _ => True) p.
Proof.
  intros Hp. induction Hp as [a | o k Ho Hk IH]; constructor; auto.
Qed.

Lemma yields_run {A : Type} (P : Op -> bool) (Q : A -> Prop) (p : Prog A)
      (w : World) :
  yields P Q p ->
  Forall (fun e => P (ev_op e) = true) (events p w) /\ Q (exec p w).1.
Proof.
  intros Hp. revert w. induction Hp as [a Ha | o k Ho Hk IH]; intros w; simpl.
  - split; [constructor | exact Ha].
  - destruct (IH (result o w) (deliver (commit o (result o w) w))) as [Hev Hq].
    split; [constructor; [exact Ho | exact Hev] | exact Hq].
Qed.

(** A property of the globals that the operations of a program and the
    callback keep is kept by the run. *)
Lemma exec_invariant {A : Type} (P : Op -> bool) (I : St -> Prop) (p : Prog A)
      (w : World) :
  (forall o s, P o = true -> I s -> I (store M o s)) ->
  (forall s, I s -> I (isr M s)) ->
  all_ops P p -> I (globals w) -> I (globals (exec p w).2).
Proof.
  intros Hstore Hisr Hp. revert w.
  induction Hp as [a | o k Ho Hk IH]; intros w Hw; simpl; [exact Hw |].
  apply IH. simpl.
  generalize (irq env (Ev o (result o w) :: trace w)). intros n.
  induction n as [| n IHn]; simpl; [apply Hstore; assumption | apply Hisr, IHn].
Qed.

End Free.

Arguments Ret {Op A} a.
Arguments Do {Op A} o k.
Arguments Ev {Op} ev_op ev_ret.
Arguments Prog Op A : clear implicits.
Arguments Event Op : clear implicits.
Arguments World Op St : clear implicits.
Arguments Env Op : clear implicits.
Arguments Machine Op St : clear implicits.

End Free.

Declare Scope free_scope.
Delimit Scope free_scope with free.
Notation "x <- p ;; q" := (Free.bind p (fun x => q))
  (at level 100, p at next level, right associativity) : free_scope.
Notation "p ;; q" := (Free.bind p (fun _ => q))
  (at level 100, right associativity) : free_scope.

(** * The CAN transceiver set-up over the I2C IO expander (mcan_transceiver.c)

    A shallow embedding of [mcal/examples/Utils/am263px/Mcan/mcan_transceiver.c].
    The functions of the file drive an IO expander through the I2C driver:
    they fill [txBufferIomux], start a sequence of the driver and poll for its
    end.  The I2C driver, which is not among the sources, is the environment:
    it answers [Cdd_I2c_GetSequenceResult], fills [rxBufferIomux] (handed to
    it by [Cdd_I2c_SetupEB]) and calls [I2c_Iomux_Read_Callback] back.

    The file waits for the driver in loops without a bound.  A loop takes
    [fuel], the number of times it may test its condition; a function that
    contains such a loop returns [None] when a loop has used it up. *)

Module McanTransceiver.
Import Free.
Local Open Scope free_scope.

Definition uint8 := wrap 8.

(** ** Data model *)

Inductive Ptr : Type :=
| NULL_PTR
| Addr_txBufferIomux (idx : Z)    (* &txBufferIomux[idx] *)
| Addr_rxBufferIomux (idx : Z).   (* &rxBufferIomux[idx] *)

(** Constants of [Std_Types.h], [Platform_Types.h] and the I2C driver
    headers and configuration, which are not among the sources, and whether
    the file is compiled with [AM263PX_C_PACKAGE] defined. *)
Class Config : Type := {
  AM263PX_C_PACKAGE : bool;
  E_OK : Z;
  E_NOT_OK : Z;
  TRUE : Z;
  FALSE : Z;
  CDD_I2C_SEQ_OK : Z;
  CddI2cConf_CddI2cSequence_CddI2cSequence_0 : Z;
  CddI2cConf_CddI2cSequence_CddI2cSequence_1 : Z;
  CddI2cConf_CddI2cSequence_CddI2cSequence_2 : Z;
  CddI2cConf_CddI2cChannel_CddI2cChannel_0 : Z;
  CddI2cConf_CddI2cChannel_CddI2cChannel_1 : Z;
  CddI2cConf_CddI2cChannel_CddI2cChannel_2 : Z;
  CDD_I2C_E_HW_UNIT_BUSY : Z;
  CDD_I2C_E_CHANNEL_BUSY : Z;
  CDD_I2C_E_ARBITRATION_LOSS : Z;
  CDD_I2C_E_NACK : Z;
  CDD_I2C_E_RECEIVE_SHIFT_REGISTER_FULL : Z;
  CDD_I2C_E_PARAM_QUEUE_FULL : Z;
  E_OK_NOT_OK : E_OK <> E_NOT_OK;
  TRUE_FALSE : TRUE <> FALSE
}.

(** Constants the file defines itself, for the TCA6424 (without
    [AM263PX_C_PACKAGE]) and for the TCA6416 (with it). *)
Definition TCA6424_REG_OUTPUT_PORT_0 : Z := 0x04.
Definition TCA6424_REG_CONFIG_PORT_0 : Z := 0x0C.
Definition TCA6424_MODE_INPUT : Z := 0.
Definition TCA6424_MODE_OUTPUT : Z := 1.
Definition TCA6424_OUT_STATE_LOW : Z := 0.
Definition TCA6424_OUT_STATE_HIGH : Z := 1.
Definition TCA6416_REG_OUTPUT_PORT_0 : Z := 0x02.
Definition TCA6416_REG_CONFIG_PORT_0 : Z := 0x06.
Definition TCA6416_MODE_INPUT : Z := 0.
Definition TCA6416_MODE_OUTPUT : Z := 1.
Definition TCA6416_OUT_STATE_LOW : Z := 0.
Definition TCA6416_OUT_STATE_HIGH : Z := 1.
(* PORT 0, PIN 4 -> ioIndex : 0*8 + 4 = 4 *)
Definition IO_MUX_MCAN_SEL : Z := 4.
(* MCAN_SEL PIN OUTPUT -> 0 *)
Definition TCA6424_IO_MUX_MCAN_SEL_PORT_LINE_STATE : Z := TCA6424_OUT_STATE_LOW.
(* MCAN_STB PIN OUTPUT -> 1 *)
Definition TCA6424_IO_MUX_MCAN_STB_PORT_LINE_STATE : Z := TCA6424_OUT_STATE_HIGH.
(* MCAN_STB PIN OUTPUT -> 0 *)
Definition TCA6416_IO_MUX_MCAN_STB_PORT_LINE_STATE : Z := TCA6416_OUT_STATE_LOW.

(** ** Operations *)

Inductive Op : Type :=
(* I2C driver *)
| Cdd_I2c_GetSequenceResult (seq : Z)
| Cdd_I2c_AsyncTransmit (seq : Z)
| Cdd_I2c_SetupEB (ch : Z) (tx rx : Ptr) (len : Z)
(* utilities *)
| AppUtils_printf (msg : string)
| AppUtils_SchM_Enter_EXCLUSIVE_AREA_0
| AppUtils_SchM_Exit_EXCLUSIVE_AREA_0
(* globals of the file *)
| Load_rxDoneIomux
| Store_rxDoneIomux (v : Z)
| Load_rxBufferIomux (idx : nat)
| Store_txBufferIomux (idx : nat) (v : Z).

Arguments AppUtils_printf msg%_string.

(** The globals the processor alone writes.  [rxBufferIomux] is written by
    the I2C driver: what a read of it yields is the environment's to say. *)
Record Globals : Type := {
  rxDoneIomux : Z;
  txBufferIomux : list Z
}.

(** The code after a loop is reached when the loop is left. *)
Definition after {A : Type} (loop : Prog Op bool) (rest : Prog Op (option A))
  : Prog Op (option A) :=
  left <- loop ;; if left then rest else Ret None.

(** The code after a call is reached when the call returns. *)
Definition returned {A B : Type} (p : Prog Op (option A))
           (rest : A -> Prog Op (option B)) : Prog Op (option B) :=
  r <- p ;; match r with Some a => rest a | None => Ret None end.

Notation "'wait' loop ;; rest" := (after loop rest)
  (at level 100, loop at next level, right associativity).
Notation "x <-- p ;; rest" := (returned p (fun x => rest))
  (at level 100, p at next level, right associativity).

Section Transceiver.
Context `{Config}.

(* PORT 2, PIN 1 -> ioIndex : 2*8 + 1 = 17; with AM263PX_C_PACKAGE
   PORT 1, PIN 2 -> ioIndex : 1*8 + 2 = 10 *)
Definition IO_MUX_MCAN_STB : Z := if AM263PX_C_PACKAGE then 10 else 17.

(** The result of an operation: the flag is read from the globals; the
    result of a sequence is what the driver says; a [Std_ReturnType] and an
    element of [rxBufferIomux] are a [uint8]; a function that returns
    nothing and a store are recorded with 0. *)
Definition mcan_result (g : Globals) (answer : Z) (o : Op) : Z :=
  match o with
  | Load_rxDoneIomux => rxDoneIomux g
  | Cdd_I2c_GetSequenceResult _ => answer
  | Cdd_I2c_AsyncTransmit _
  | Cdd_I2c_SetupEB _ _ _ _
  | Load_rxBufferIomux _ => uint8 answer
  | _ => 0
  end.

Definition mcan_store (o : Op) (g : Globals) : Globals :=
  match o with
  | Store_rxDoneIomux v => {| rxDoneIomux := v; txBufferIomux := txBufferIomux g |}
  | Store_txBufferIomux idx v =>
      {| rxDoneIomux := rxDoneIomux g; txBufferIomux := <[idx := v]> (txBufferIomux g) |}
  | _ => g
  end.

(** [void I2c_Iomux_Read_Callback(void)], which the driver calls when the
    read sequence is complete. *)
Definition I2c_Iomux_Read_Callback : Prog Op unit :=
  call_ (Store_rxDoneIomux TRUE).

Definition machine : Machine Op Globals :=
  {| result_of := mcan_result;
     store := mcan_store;
     isr := mcan_store (Store_rxDoneIomux TRUE) |}.

(** The state the file starts in: [rxDoneIomux = FALSE], the buffers
    zeroed. *)
Definition initial_world : World Op Globals :=
  {| globals := {| rxDoneIomux := FALSE; txBufferIomux := [0; 0] |};
     trace := [] |}.

(** ** Waiting for the driver *)

(** [while (CDD_I2C_SEQ_OK != Cdd_I2c_GetSequenceResult(seq)) ;]
    The result is whether the loop was left. *)
Fixpoint wait_sequence (fuel : nat) (seq : Z) : Prog Op bool :=
  match fuel with
  | O => Ret false
  | S fuel' =>
      r <- call (Cdd_I2c_GetSequenceResult seq) ;;
      if negb (CDD_I2C_SEQ_OK =? r) then wait_sequence fuel' seq else Ret true
  end.

(** [while (TRUE != rxDoneIomux) { }] *)
Fixpoint wait_rxDone (fuel : nat) : Prog Op bool :=
  match fuel with
  | O => Ret false
  | S fuel' =>
      d <- call Load_rxDoneIomux ;;
      if negb (TRUE =? d) then wait_rxDone fuel' else Ret true
  end.

(** [rxBufferIomux[0] | (0x01 << portPin)] and
    [(rxBufferIomux[0]) & (~(0x01 << portPin))], as stored in a [uint8]. *)
Definition pin_set (rx portPin : Z) : Z := uint8 (Z.lor rx (Z.shiftl 0x01 portPin)).
Definition pin_clear (rx portPin : Z) : Z :=
  uint8 (Z.land rx (Z.lnot (Z.shiftl 0x01 portPin))).

(** ** The functions of the file *)

(** [uint32 TCA6424_setOutput(uint32 ioIndex, uint32 state)] *)
Definition TCA6424_setOutput (fuel : nat) (ioIndex state : Z) : Prog Op (option Z) :=
  let status := E_OK in
  let numIo := 24 in
  (* Validate input IO number *)
  let status := if numIo <=? ioIndex then E_NOT_OK else status in
  if status =? E_OK
  then
    (* Each port contains 8 IOs *)
    let port := Z.shiftr ioIndex 3 in     (* /8 gives port *)
    let portPin := Z.land ioIndex 0x07 in (* %8 gives pin within port *)
    if AM263PX_C_PACKAGE
    then
      call_ (Store_txBufferIomux 0 (uint8 (TCA6416_REG_OUTPUT_PORT_0 + port))) ;;
      (* Wait for sequence to be ready *)
      wait wait_sequence fuel CddI2cConf_CddI2cSequence_CddI2cSequence_1 ;;
      (* Start transmission *)
      call_ (Cdd_I2c_AsyncTransmit CddI2cConf_CddI2cSequence_CddI2cSequence_1) ;;
      wait wait_sequence fuel CddI2cConf_CddI2cSequence_CddI2cSequence_1 ;;
      (* Wait for sequence to be ready *)
      wait wait_sequence fuel CddI2cConf_CddI2cSequence_CddI2cSequence_0 ;;
      (* Read data *)
      call_ (Cdd_I2c_AsyncTransmit CddI2cConf_CddI2cSequence_CddI2cSequence_0) ;;
      wait wait_sequence fuel CddI2cConf_CddI2cSequence_CddI2cSequence_0 ;;
      (* Wait till above sequence is completed *)
      wait wait_rxDone fuel ;;
      rx <- call (Load_rxBufferIomux 0) ;;
      (if TCA6416_OUT_STATE_HIGH =? state
       then call_ (Store_txBufferIomux 1 (pin_set rx portPin))
       else call_ (Store_txBufferIomux 1 (pin_clear rx portPin))) ;;
      call_ (Store_txBufferIomux 0 (uint8 (TCA6416_REG_OUTPUT_PORT_0 + port))) ;;
      (* Wait for sequence to be ready *)
      wait wait_sequence fuel CddI2cConf_CddI2cSequence_CddI2cSequence_2 ;;
      call_ (Cdd_I2c_AsyncTransmit CddI2cConf_CddI2cSequence_CddI2cSequence_2) ;;
      wait wait_sequence fuel CddI2cConf_CddI2cSequence_CddI2cSequence_2 ;;
      Ret (Some status)
    else
      call_ (Store_txBufferIomux 0 (uint8 (TCA6424_REG_OUTPUT_PORT_0 + port))) ;;
      (* Wait for sequence to be ready *)
      wait wait_sequence fuel CddI2cConf_CddI2cSequence_CddI2cSequence_1 ;;
      (* Start transmission *)
      call_ (Cdd_I2c_AsyncTransmit CddI2cConf_CddI2cSequence_CddI2cSequence_1) ;;
      wait wait_sequence fuel CddI2cConf_CddI2cSequence_CddI2cSequence_1 ;;
      (* Wait for sequence to be ready *)
      wait wait_sequence fuel CddI2cConf_CddI2cSequence_CddI2cSequence_0 ;;
      (* Read data *)
      call_ (Cdd_I2c_AsyncTransmit CddI2cConf_CddI2cSequence_CddI2cSequence_0) ;;
      wait wait_sequence fuel CddI2cConf_CddI2cSequence_CddI2cSequence_0 ;;
      (* Wait till above sequence is completed *)
      wait wait_rxDone fuel ;;
      rx <- call (Load_rxBufferIomux 0) ;;
      (if TCA6424_OUT_STATE_HIGH =? state
       then call_ (Store_txBufferIomux 1 (pin_set rx portPin))
       else call_ (Store_txBufferIomux 1 (pin_clear rx portPin))) ;;
      call_ (Store_txBufferIomux 0 (uint8 (TCA6424_REG_OUTPUT_PORT_0 + port))) ;;
      (* Wait for sequence to be ready *)
      wait wait_sequence fuel CddI2cConf_CddI2cSequence_CddI2cSequence_2 ;;
      call_ (Cdd_I2c_AsyncTransmit CddI2cConf_CddI2cSequence_CddI2cSequence_2) ;;
      wait wait_sequence fuel CddI2cConf_CddI2cSequence_CddI2cSequence_2 ;;
      Ret (Some status)
  else Ret (Some status).

(** [uint32 TCA6424_config(uint32 ioIndex, uint32 mode)] *)
Definition TCA6424_config (fuel : nat) (ioIndex mode : Z) : Prog Op (option Z) :=
  let status := E_OK in
  let numIo := 24 in
  (* Validate input IO number *)
  let status := if numIo <=? ioIndex then E_NOT_OK else status in
  if status =? E_OK
  then
    (* Each port contains 8 IOs *)
    let port := Z.shiftr ioIndex 3 in     (* /8 gives port *)
    let portPin := Z.land ioIndex 0x07 in (* %8 gives pin within port *)
    if AM263PX_C_PACKAGE
    then
      (* Set config register address - needed for next read *)
      call_ (Store_txBufferIomux 0 (uint8 (TCA6416_REG_CONFIG_PORT_0 + port))) ;;
      (* Wait for sequence to be ready *)
      wait wait_sequence fuel CddI2cConf_CddI2cSequence_CddI2cSequence_1 ;;
      (* Start transmission *)
      call_ (Cdd_I2c_AsyncTransmit CddI2cConf_CddI2cSequence_CddI2cSequence_1) ;;
      wait wait_sequence fuel CddI2cConf_CddI2cSequence_CddI2cSequence_1 ;;
      (* Read config register value *)
      (* Wait for sequence to be ready *)
      wait wait_sequence fuel CddI2cConf_CddI2cSequence_CddI2cSequence_0 ;;
      (* Read data *)
      call_ (Cdd_I2c_AsyncTransmit CddI2cConf_CddI2cSequence_CddI2cSequence_0) ;;
      wait wait_sequence fuel CddI2cConf_CddI2cSequence_CddI2cSequence_0 ;;
      (* Wait till above sequence is completed *)
      wait wait_rxDone fuel ;;
      (* Set output or input mode to particular IO pin - read/modify/write *)
      rx <- call (Load_rxBufferIomux 0) ;;
      (if TCA6416_MODE_INPUT =? mode
       then call_ (Store_txBufferIomux 1 (pin_set rx portPin))
       else call_ (Store_txBufferIomux 1 (pin_clear rx portPin))) ;;
      call_ (Store_txBufferIomux 0 (uint8 (TCA6416_REG_CONFIG_PORT_0 + port))) ;;
      (* Wait for sequence to be ready *)
      wait wait_sequence fuel CddI2cConf_CddI2cSequence_CddI2cSequence_2 ;;
      call_ (Cdd_I2c_AsyncTransmit CddI2cConf_CddI2cSequence_CddI2cSequence_2) ;;
      wait wait_sequence fuel CddI2cConf_CddI2cSequence_CddI2cSequence_2 ;;
      Ret (Some status)
    else
      (* Set config register address - needed for next read *)
      call_ (Store_txBufferIomux 0 (uint8 (TCA6424_REG_CONFIG_PORT_0 + port))) ;;
      (* Wait for sequence to be ready *)
      wait wait_sequence fuel CddI2cConf_CddI2cSequence_CddI2cSequence_1 ;;
      (* Start transmission *)
      call_ (Cdd_I2c_AsyncTransmit CddI2cConf_CddI2cSequence_CddI2cSequence_1) ;;
      wait wait_sequence fuel CddI2cConf_CddI2cSequence_CddI2cSequence_1 ;;
      (* Read config register value *)
      (* Wait for sequence to be ready *)
      wait wait_sequence fuel CddI2cConf_CddI2cSequence_CddI2cSequence_0 ;;
      (* Read data *)
      call_ (Cdd_I2c_AsyncTransmit CddI2cConf_CddI2cSequence_CddI2cSequence_0) ;;
      wait wait_sequence fuel CddI2cConf_CddI2cSequence_CddI2cSequence_0 ;;
      (* Wait till above sequence is completed *)
      wait wait_rxDone fuel ;;
      (* Set output or input mode to particular IO pin - read/modify/write *)
      rx <- call (Load_rxBufferIomux 0) ;;
      (if TCA6424_MODE_INPUT =? mode
       then call_ (Store_txBufferIomux 1 (pin_set rx portPin))
       else call_ (Store_txBufferIomux 1 (pin_clear rx portPin))) ;;
      call_ (Store_txBufferIomux 0 (uint8 (TCA6424_REG_CONFIG_PORT_0 + port))) ;;
      (* Wait for sequence to be ready *)
      wait wait_sequence fuel CddI2cConf_CddI2cSequence_CddI2cSequence_2 ;;
      call_ (Cdd_I2c_AsyncTransmit CddI2cConf_CddI2cSequence_CddI2cSequence_2) ;;
      wait wait_sequence fuel CddI2cConf_CddI2cSequence_CddI2cSequence_2 ;;
      Ret (Some status)
  else Ret (Some status).

(** The end of [TCA6424_Transceiver], from [if (status != E_OK)]. *)
Definition TCA6424_Transceiver_report (status : Z) : Prog Op (option Z) :=
  (if negb (status =? E_OK)
   then call_ (AppUtils_printf "IOMUX setup for CAN failed \n\r")
   else Ret tt) ;;
  Ret (Some status).

(** [uint32 TCA6424_Transceiver(void)] *)
Definition TCA6424_Transceiver (fuel : nat) : Prog Op (option Z) :=
  let status := E_OK in
  if AM263PX_C_PACKAGE
  then
    (* For MCAN_STB *)
    r <-- TCA6424_setOutput fuel IO_MUX_MCAN_STB
            TCA6416_IO_MUX_MCAN_STB_PORT_LINE_STATE ;;
    let status := uint32 (status + r) in
    r <-- TCA6424_config fuel IO_MUX_MCAN_STB TCA6416_MODE_OUTPUT ;;
    let status := uint32 (status + r) in
    TCA6424_Transceiver_report status
  else
    (* For MCAN_SEL *)
    r <-- TCA6424_setOutput fuel IO_MUX_MCAN_SEL
            TCA6424_IO_MUX_MCAN_SEL_PORT_LINE_STATE ;;
    let status := r in
    r <-- TCA6424_config fuel IO_MUX_MCAN_SEL TCA6424_MODE_OUTPUT ;;
    let status := uint32 (status + r) in
    (* For MCAN_STB *)
    r <-- TCA6424_setOutput fuel IO_MUX_MCAN_STB
            TCA6424_IO_MUX_MCAN_STB_PORT_LINE_STATE ;;
    let status := uint32 (status + r) in
    r <-- TCA6424_config fuel IO_MUX_MCAN_STB TCA6424_MODE_OUTPUT ;;
    let status := uint32 (status + r) in
    TCA6424_Transceiver_report status.

(** [uint8 I2c_Buffer_Setup(void)] *)
Definition I2c_Buffer_Setup : Prog Op Z :=
  let returnValue := uint8 E_OK in
  (* Setup I2c channels *)
  r <- call (Cdd_I2c_SetupEB CddI2cConf_CddI2cChannel_CddI2cChannel_0
               NULL_PTR (Addr_rxBufferIomux 0) 1) ;;
  let returnValue := uint8 (Z.lor returnValue r) in
  r <- call (Cdd_I2c_SetupEB CddI2cConf_CddI2cChannel_CddI2cChannel_1
               (Addr_txBufferIomux 0) NULL_PTR 1) ;;
  let returnValue := uint8 (Z.lor returnValue r) in
  r <- call (Cdd_I2c_SetupEB CddI2cConf_CddI2cChannel_CddI2cChannel_2
               (Addr_txBufferIomux 0) NULL_PTR 2) ;;
  let returnValue := uint8 (Z.lor returnValue r) in
  Ret returnValue.

(** [void mcanEnableTransceiver(void)] *)
Definition mcanEnableTransceiver (fuel : nat) : Prog Op (option unit) :=
  I2c_Buffer_Setup ;;
  (* boardVer is E2 *)
  status <-- TCA6424_Transceiver fuel ;;
  (if status =? E_OK
   then call_ (AppUtils_printf "IOMUX setup for CAN successful \n\r")
   else Ret tt) ;;
  Ret (Some tt).

(** [void I2c_Iomux_Write_Callback(void)] *)
Definition I2c_Iomux_Write_Callback : Prog Op unit :=
  call_ (AppUtils_printf "Iomux write SuccessFul \n\r").

(** [void I2c_Iomux_Write_Callback_Ptr(void)] *)
Definition I2c_Iomux_Write_Callback_Ptr : Prog Op unit :=
  call_ (AppUtils_printf "Iomux address reset SuccessFul \n\r").

(** [void I2c_Sequence_Error_Report(uint8 Error_code)] *)
Definition I2c_Sequence_Error_Report (Error_code : Z) : Prog Op unit :=
  if CDD_I2C_E_HW_UNIT_BUSY =? Error_code
  then call_ (AppUtils_printf "Hardware unit busy\n\r")
  else if CDD_I2C_E_CHANNEL_BUSY =? Error_code
  then call_ (AppUtils_printf "Channels busy\n\r")
  else if CDD_I2C_E_ARBITRATION_LOSS =? Error_code
  then call_ (AppUtils_printf "Arbitration lost\n\r")
  else if CDD_I2C_E_NACK =? Error_code
  then call_ (AppUtils_printf "No Acknowledgement\n\r")
  else if CDD_I2C_E_RECEIVE_SHIFT_REGISTER_FULL =? Error_code
  then call_ (AppUtils_printf "Receive shift register full\n\r")
  else if CDD_I2C_E_PARAM_QUEUE_FULL =? Error_code
  then call_ (AppUtils_printf "Queue full\n\r")
  else Ret tt.

(** [void I2c_Iomux_Read_Callback_Fail(uint8 Error_Code)] *)
Definition I2c_Iomux_Read_Callback_Fail (Error_Code : Z) : Prog Op unit :=
  call_ (AppUtils_printf "Sequence failed while trying to read data from IOMUX\n\r") ;;
  I2c_Sequence_Error_Report Error_Code.

(** [void I2c_Iomux_Write_Callback_Ptr_Fail(uint8 Error_Code)] *)
Definition I2c_Iomux_Write_Callback_Ptr_Fail (Error_Code : Z) : Prog Op unit :=
  call_ (AppUtils_printf
           "Sequence failed while trying to reset Iomux address pointer\n\r") ;;
  I2c_Sequence_Error_Report Error_Code.

(** [void I2c_Iomux_Write_Callback_Fail(uint8 Error_Code)] *)
Definition I2c_Iomux_Write_Callback_Fail (Error_Code : Z) : Prog Op unit :=
  call_ (AppUtils_printf "Sequence failed while trying to write to Iomux\n\r") ;;
  I2c_Sequence_Error_Report Error_Code.

(** [void SchM_Enter_Cdd_I2c_I2C_EXCLUSIVE_AREA_0()] and
    [void SchM_Exit_Cdd_I2c_I2C_EXCLUSIVE_AREA_0()] *)
Definition SchM_Enter_Cdd_I2c_I2C_EXCLUSIVE_AREA_0 : Prog Op unit :=
  call_ AppUtils_SchM_Enter_EXCLUSIVE_AREA_0.
Definition SchM_Exit_Cdd_I2c_I2C_EXCLUSIVE_AREA_0 : Prog Op unit :=
  call_ AppUtils_SchM_Exit_EXCLUSIVE_AREA_0.

(** ** Properties *)

(** The bits of the byte written back. *)

Lemma uint8_range (z : Z) : 0 <= uint8 z < 256.
Proof. unfold uint8, wrap. apply Z.mod_pos_bound. reflexivity. Qed.

Lemma uint8_small (z : Z) : 0 <= z < 256 -> uint8 z = z.
Proof. intros Hz. unfold uint8, wrap. apply Z.mod_small. exact Hz. Qed.

Lemma testbit_uint8 (z k : Z) :
  Z.testbit (uint8 z) k = (k <? 8) && Z.testbit z k.
Proof.
  unfold uint8, wrap. destruct (Z.ltb_spec k 8) as [Hk | Hk]; cbn [andb].
  - destruct (Z.leb_spec 0 k) as [H0 | H0].
    + apply Z.mod_pow2_bits_low. lia.
    + rewrite !Z.testbit_neg_r by lia. reflexivity.
  - apply Z.mod_pow2_bits_high. lia.
Qed.

Lemma testbit_byte_high (rx k : Z) : 0 <= rx < 256 -> 8 <= k -> Z.testbit rx k = false.
Proof.
  intros Hrx Hk. rewrite <- (uint8_small rx Hrx), testbit_uint8.
  destruct (Z.ltb_spec k 8); [lia | reflexivity].
Qed.

Lemma testbit_pin (portPin k : Z) :
  0 <= portPin -> 0 <= k -> Z.testbit (Z.shiftl 1 portPin) k = (k =? portPin).
Proof.
  intros Hp Hk. rewrite Z.shiftl_1_l, Z.pow2_bits_eqb by exact Hp.
  apply Z.eqb_sym.
Qed.

Lemma testbit_pin_set (rx portPin k : Z) :
  0 <= rx < 256 -> 0 <= portPin < 8 -> 0 <= k ->
  Z.testbit (pin_set rx portPin) k = (k =? portPin) || Z.testbit rx k.
Proof.
  intros Hrx Hp Hk. unfold pin_set.
  rewrite testbit_uint8, Z.lor_spec, testbit_pin by lia.
  destruct (Z.ltb_spec k 8) as [Hk8 | Hk8]; cbn [andb].
  - apply orb_comm.
  - rewrite (testbit_byte_high rx k Hrx Hk8).
    destruct (Z.eqb_spec k portPin); [lia | reflexivity].
Qed.

Lemma testbit_pin_clear (rx portPin k : Z) :
  0 <= rx < 256 -> 0 <= portPin < 8 -> 0 <= k ->
  Z.testbit (pin_clear rx portPin) k = negb (k =? portPin) && Z.testbit rx k.
Proof.
  intros Hrx Hp Hk. unfold pin_clear.
  rewrite testbit_uint8, Z.land_spec, Z.lnot_spec, testbit_pin by lia.
  destruct (Z.ltb_spec k 8) as [Hk8 | Hk8]; cbn [andb].
  - apply andb_comm.
  - rewrite (testbit_byte_high rx k Hrx Hk8). symmetry. apply andb_false_r.
Qed.

(** The port and the pin of an IO below 24. *)
Lemma port_of_io (ioIndex : Z) :
  0 <= ioIndex < 24 -> Z.shiftr ioIndex 3 = ioIndex / 8 /\ 0 <= ioIndex / 8 < 3.
Proof.
  intros Hio. rewrite Z.shiftr_div_pow2 by lia. change (2 ^ 3) with 8.
  split; [reflexivity |].
  split; [apply Z.div_pos; lia | apply Z.div_lt_upper_bound; lia].
Qed.

Lemma pin_of_io (ioIndex : Z) :
  0 <= ioIndex -> Z.land ioIndex 0x07 = ioIndex mod 8 /\ 0 <= ioIndex mod 8 < 8.
Proof.
  intros Hio. change 0x07 with (Z.ones 3). rewrite Z.land_ones by lia.
  change (2 ^ 3) with 8. split; [reflexivity | apply Z.mod_pos_bound; lia].
Qed.

End Transceiver.

(** The operations that only poll: the test of a loop. *)
Definition is_poll (o : Op) : bool :=
  match o with
  | Cdd_I2c_GetSequenceResult _ | Load_rxDoneIomux => true
  | _ => false
  end.

(** The events of a run without the polls. *)
Definition bus_events (evs : list (Event Op)) : list (Event Op) :=
  List.filter (fun e => negb (is_poll (ev_op e))) evs.

(** The sequences started, in order. *)
Definition transmits (evs : list (Event Op)) : list Z :=
  flat_map (fun e => match ev_op e with
                     | Cdd_I2c_AsyncTransmit seq => [seq]
                     | _ => []
                     end) evs.

(** The messages printed, in order. *)
Definition prints (evs : list (Event Op)) : list string :=
  flat_map (fun e => match ev_op e with
                     | AppUtils_printf msg => [msg]
                     | _ => []
                     end) evs.

Lemma bus_events_app (l1 l2 : list (Event Op)) :
  bus_events (l1 ++ l2) = bus_events l1 ++ bus_events l2.
Proof. apply List.filter_app. Qed.

Lemma bus_events_polls (evs : list (Event Op)) :
  Forall (fun e => is_poll (ev_op e) = true) evs -> bus_events evs = [].
Proof.
  induction 1 as [| e l He Hl IH]; [reflexivity |].
  unfold bus_events in *. cbn [List.filter]. rewrite He. exact IH.
Qed.

Lemma transmits_bus_events (evs : list (Event Op)) :
  transmits (bus_events evs) = transmits evs.
Proof.
  induction evs as [| [o r] l IH]; [reflexivity |].
  unfold bus_events in *. cbn [List.filter ev_op].
  destruct o; cbn [is_poll negb transmits flat_map ev_op app];
    try exact IH; f_equal; exact IH.
Qed.

Lemma prints_bus_events (evs : list (Event Op)) :
  prints (bus_events evs) = prints evs.
Proof.
  induction evs as [| [o r] l IH]; [reflexivity |].
  unfold bus_events in *. cbn [List.filter ev_op].
  destruct o; cbn [is_poll negb prints flat_map ev_op app];
    try exact IH; f_equal; exact IH.
Qed.

Section Runs.
Context `{Config}.
Variable env : Env Op.

Local Abbreviation exec := (Free.exec machine env).
Local Abbreviation events := (Free.events machine env).
Local Abbreviation result := (Free.result machine env).
Local Abbreviation commit := (@Free.commit Op Globals machine).
Local Abbreviation deliver := (Free.deliver machine env).

(** The callback sets the flag and nothing else. *)
Lemma isr_iter (n : nat) (g : Globals) :
  txBufferIomux (Nat.iter n (isr machine) g) = txBufferIomux g
  /\ (rxDoneIomux g = TRUE -> rxDoneIomux (Nat.iter n (isr machine) g) = TRUE).
Proof.
  induction n as [| n [IH1 IH2]]; [split; auto |].
  rewrite Nat.iter_succ. split; [exact IH1 | reflexivity].
Qed.

Lemma txBufferIomux_step (o : Op) (r : Z) (w : World Op Globals) :
  txBufferIomux (globals (deliver (commit o r w)))
  = txBufferIomux (mcan_store o (globals w)).
Proof. apply isr_iter. Qed.

Lemma rxDoneIomux_step (o : Op) (r : Z) (w : World Op Globals) :
  rxDoneIomux (mcan_store o (globals w)) = TRUE ->
  rxDoneIomux (globals (deliver (commit o r w))) = TRUE.
Proof. apply isr_iter. Qed.

Lemma all_ops_wait_sequence (fuel : nat) (seq : Z) :
  all_ops is_poll (wait_sequence fuel seq).
Proof.
  induction fuel as [| fuel IH]; cbn [wait_sequence]; [constructor |].
  constructor; [reflexivity |]. intros r. cbn [bind].
  destruct (negb _); [exact IH | constructor].
Qed.

Lemma all_ops_wait_rxDone (fuel : nat) : all_ops is_poll (wait_rxDone fuel).
Proof.
  induction fuel as [| fuel IH]; cbn [wait_rxDone]; [constructor |].
  constructor; [reflexivity |]. intros r. cbn [bind].
  destruct (negb _); [exact IH | constructor].
Qed.

(** A poll stores nothing. *)
Lemma polls_keep_globals {A : Type} (p : Prog Op A) (w : World Op Globals) :
  all_ops is_poll p ->
  txBufferIomux (globals (exec p w).2) = txBufferIomux (globals w)
  /\ (rxDoneIomux (globals w) = TRUE -> rxDoneIomux (globals (exec p w).2) = TRUE).
Proof.
  intros Hp. revert w. induction Hp as [a | o k Ho Hk IH]; intros w.
  - split; auto.
  - cbn [Free.exec]. destruct (IH (result o w) (deliver (commit o (result o w) w)))
      as [IH1 IH2].
    rewrite IH1, txBufferIomux_step.
    split.
    + destruct o; try discriminate Ho; reflexivity.
    + intros Hd. apply IH2, rxDoneIomux_step.
      destruct o; try discriminate Ho; exact Hd.
Qed.

(** A loop that is left with fuel [k] is left with any fuel from [k] on, in
    the same way. *)
Lemma wait_sequence_mono (k fuel : nat) (seq : Z) (w : World Op Globals) :
  (exec (wait_sequence k seq) w).1 = true -> (k <= fuel)%nat ->
  exec (wait_sequence fuel seq) w = exec (wait_sequence k seq) w
  /\ events (wait_sequence fuel seq) w = events (wait_sequence k seq) w.
Proof.
  revert fuel w. induction k as [| k IH]; intros fuel w Hk Hle.
  - discriminate Hk.
  - destruct fuel as [| fuel]; [lia |].
    cbn [wait_sequence bind call Free.exec Free.events] in *.
    destruct (negb _).
    + destruct (IH fuel _ Hk) as [-> ->]; [lia |]. split; reflexivity.
    + split; reflexivity.
Qed.

Lemma wait_rxDone_mono (k fuel : nat) (w : World Op Globals) :
  (exec (wait_rxDone k) w).1 = true -> (k <= fuel)%nat ->
  exec (wait_rxDone fuel) w = exec (wait_rxDone k) w
  /\ events (wait_rxDone fuel) w = events (wait_rxDone k) w.
Proof.
  revert fuel w. induction k as [| k IH]; intros fuel w Hk Hle.
  - discriminate Hk.
  - destruct fuel as [| fuel]; [lia |].
    cbn [wait_rxDone bind call Free.exec Free.events] in *.
    destruct (negb _).
    + destruct (IH fuel _ Hk) as [-> ->]; [lia |]. split; reflexivity.
    + split; reflexivity.
Qed.

(** The driver ends every sequence within [n] polls: a loop on the result
    of a sequence, wherever it is started, is left after at most [n]
    tests. *)
Definition sequences_end (n : nat) : Prop :=
  forall (seq : Z) (w : World Op Globals),
    exists k, (k <= n)%nat /\ (exec (wait_sequence k seq) w).1 = true.

(** The read callback follows the read sequence: wherever the read
    sequence (sequence 0) is started, once the loop on its result has been
    left, the loop on the flag is left after at most [n] tests.  Nothing is
    asked of the driver where no read sequence has been started: a driver
    that runs [I2c_Iomux_Read_Callback] on the completion of a read, and at
    no other time, is of this kind. *)
Definition callback_follows_read (n : nat) : Prop :=
  forall (fuel : nat) (w : World Op Globals),
    let started :=
      (exec (call_ (Cdd_I2c_AsyncTransmit CddI2cConf_CddI2cSequence_CddI2cSequence_0))
            w).2 in
    let ended :=
      exec (wait_sequence fuel CddI2cConf_CddI2cSequence_CddI2cSequence_0) started in
    ended.1 = true ->
    exists k, (k <= n)%nat /\ (exec (wait_rxDone k) ended.2).1 = true.

Definition responsive (n : nat) : Prop := sequences_end n /\ callback_follows_read n.

(** No callback is ever run. *)
Definition no_callback : Prop := forall h, irq env h = O.

Lemma rxDoneIomux_quiet_step (o : Op) (r : Z) (w : World Op Globals) :
  no_callback ->
  rxDoneIomux (globals (deliver (commit o r w)))
  = rxDoneIomux (mcan_store o (globals w)).
Proof. intros Hq. unfold Free.deliver. rewrite Hq. reflexivity. Qed.

Lemma polls_keep_flag {A : Type} (p : Prog Op A) (w : World Op Globals) :
  no_callback -> all_ops is_poll p ->
  rxDoneIomux (globals (exec p w).2) = rxDoneIomux (globals w).
Proof.
  intros Hq Hp. revert w. induction Hp as [a | o k Ho Hk IH]; intros w.
  - reflexivity.
  - cbn [Free.exec]. rewrite IH, rxDoneIomux_quiet_step by exact Hq.
    destruct o; try discriminate Ho; reflexivity.
Qed.

(** What is after a loop, when the driver is responsive. *)
Lemma after_wait_sequence (n fuel : nat) {A : Type} (rest : Prog Op (option A))
      (seq : Z) (w : World Op Globals) :
  sequences_end n -> (n <= fuel)%nat ->
  exists w',
    exec (after (wait_sequence fuel seq) rest) w = exec rest w'
    /\ bus_events (events (after (wait_sequence fuel seq) rest) w)
       = bus_events (events rest w')
    /\ txBufferIomux (globals w') = txBufferIomux (globals w)
    /\ (rxDoneIomux (globals w) = TRUE -> rxDoneIomux (globals w') = TRUE)
    /\ (no_callback -> rxDoneIomux (globals w') = rxDoneIomux (globals w)).
Proof.
  intros Hseq Hfuel. destruct (Hseq seq w) as (k & Hk & Hleft).
  destruct (wait_sequence_mono k fuel seq w Hleft) as [He Hv]; [lia |].
  exists (exec (wait_sequence fuel seq) w).2.
  unfold after. rewrite exec_seq, events_seq, bus_events_app.
  rewrite (bus_events_polls (events (wait_sequence fuel seq) w))
    by (apply (all_ops_trace machine env is_poll), all_ops_wait_sequence).
  rewrite He, Hleft. cbn [app]. rewrite <- He.
  split; [reflexivity |]. split; [reflexivity |].
  split; [apply polls_keep_globals, all_ops_wait_sequence |].
  split; [apply polls_keep_globals, all_ops_wait_sequence |].
  intros Hq. apply polls_keep_flag; [exact Hq | apply all_ops_wait_sequence].
Qed.

Lemma wait_rxDone_left (k : nat) (w : World Op Globals) :
  (exec (wait_rxDone k) w).1 = true ->
  rxDoneIomux (globals (exec (wait_rxDone k) w).2) = TRUE.
Proof.
  revert w. induction k as [| k IH]; intros w Hk; [discriminate Hk |].
  cbn [wait_rxDone bind call Free.exec] in *.
  destruct (Z.eqb_spec TRUE (result Load_rxDoneIomux w)) as [Hd | Hd]; cbn [negb] in *.
  - cbn [Free.exec snd]. apply rxDoneIomux_step. symmetry. exact Hd.
  - apply IH. exact Hk.
Qed.

(** What is observed of a run: its result, the globals it ends with and
    its events without the polls. *)
Definition obs {A : Type} (p : Prog Op A) (w : World Op Globals)
  : A * Globals * list (Event Op) :=
  ((exec p w).1, globals (exec p w).2, bus_events (events p w)).

Definition emit {A : Type} (e : Event Op) (x : A * Globals * list (Event Op))
  : A * Globals * list (Event Op) :=
  (x.1.1, x.1.2, if is_poll (ev_op e) then x.2 else e :: x.2).

Lemma obs_ret {A : Type} (a : A) (w : World Op Globals) :
  obs (Ret a) w = (a, globals w, []).
Proof. reflexivity. Qed.

Lemma obs_do {A : Type} (o : Op) (k : Z -> Prog Op A) (w : World Op Globals) :
  obs (Do o k) w
  = emit (Ev o (result o w)) (obs (k (result o w)) (deliver (commit o (result o w) w))).
Proof.
  unfold obs, emit, bus_events. cbn [Free.exec Free.events List.filter ev_op fst snd].
  destruct (is_poll o); reflexivity.
Qed.

Lemma obs_after_wait_sequence (n fuel : nat) {A : Type} (rest : Prog Op (option A))
      (seq : Z) (w : World Op Globals) :
  sequences_end n -> (n <= fuel)%nat ->
  exists w',
    obs (after (wait_sequence fuel seq) rest) w = obs rest w'
    /\ txBufferIomux (globals w') = txBufferIomux (globals w)
    /\ (rxDoneIomux (globals w) = TRUE -> rxDoneIomux (globals w') = TRUE)
    /\ (no_callback -> rxDoneIomux (globals w') = rxDoneIomux (globals w)).
Proof.
  intros Hresp Hfuel.
  destruct (after_wait_sequence n fuel rest seq w Hresp Hfuel)
    as (w' & He & Hb & Ht & Hd & Hq).
  exists w'. unfold obs. rewrite He, Hb. auto.
Qed.

(** A loop that is left: what is after it runs from where the loop ends. *)
Lemma obs_after_left {A : Type} (loop : Prog Op bool) (rest : Prog Op (option A))
      (w : World Op Globals) :
  (exec loop w).1 = true -> all_ops is_poll loop ->
  obs (after loop rest) w = obs rest (exec loop w).2.
Proof.
  intros Hleft Hpoll. unfold obs, after.
  rewrite exec_seq, events_seq, bus_events_app, Hleft.
  rewrite (bus_events_polls (events loop w))
    by (apply (all_ops_trace machine env is_poll), Hpoll).
  reflexivity.
Qed.

(** The two loops after the start of the read sequence, at
    [while (CDD_I2C_SEQ_OK != Cdd_I2c_GetSequenceResult(...Sequence_0))] and
    [while (TRUE != rxDoneIomux)]: both are left, and the flag is set. *)
Lemma obs_after_read (n fuel : nat) {A : Type} (rest : Prog Op (option A))
      (w : World Op Globals) :
  responsive n -> (n <= fuel)%nat ->
  exists w',
    obs (after (wait_sequence fuel CddI2cConf_CddI2cSequence_CddI2cSequence_0)
           (after (wait_rxDone fuel) rest))
        (deliver
           (commit (Cdd_I2c_AsyncTransmit CddI2cConf_CddI2cSequence_CddI2cSequence_0)
              (result (Cdd_I2c_AsyncTransmit CddI2cConf_CddI2cSequence_CddI2cSequence_0)
                 w) w))
    = obs rest w'
    /\ txBufferIomux (globals w') = txBufferIomux (globals w)
    /\ rxDoneIomux (globals w') = TRUE.
Proof.
  intros [Hseq Hcb] Hfuel.
  set (seq0 := CddI2cConf_CddI2cSequence_CddI2cSequence_0).
  set (started := deliver (commit (Cdd_I2c_AsyncTransmit seq0)
                             (result (Cdd_I2c_AsyncTransmit seq0) w) w)).
  assert (Hstarted : txBufferIomux (globals started) = txBufferIomux (globals w))
    by (unfold started; rewrite txBufferIomux_step; reflexivity).
  destruct (Hseq seq0 started) as (k1 & Hk1 & Hleft1).
  destruct (wait_sequence_mono k1 fuel seq0 started Hleft1) as [He1 _]; [lia |].
  assert (Hleft : (exec (wait_sequence fuel seq0) started).1 = true)
    by (rewrite He1; exact Hleft1).
  destruct (Hcb fuel w Hleft) as (k & Hk & Hdone').
  assert (Hdone : (exec (wait_rxDone k) (exec (wait_sequence fuel seq0) started).2).1
                  = true) by exact Hdone'.
  clear Hdone'. clearbody started.
  set (ended := (exec (wait_sequence fuel seq0) started).2) in *.
  assert (Hended : txBufferIomux (globals ended) = txBufferIomux (globals started))
    by (apply polls_keep_globals, all_ops_wait_sequence).
  destruct (wait_rxDone_mono k fuel ended Hdone) as [He2 _]; [lia |].
  exists (exec (wait_rxDone fuel) ended).2.
  rewrite (obs_after_left (wait_sequence fuel seq0))
    by (try exact Hleft; apply all_ops_wait_sequence).
  fold ended.
  rewrite (obs_after_left (wait_rxDone fuel))
    by (try (rewrite He2; exact Hdone); apply all_ops_wait_rxDone).
  split; [reflexivity |]. split.
  - rewrite <- Hstarted, <- Hended. apply polls_keep_globals, all_ops_wait_rxDone.
  - rewrite He2. apply wait_rxDone_left, Hdone.
Qed.

(** The read-modify-write of one register of the expander: what the four
    branches of [TCA6424_setOutput] and [TCA6424_config] have in common.
    [reg] is the register, [set] whether the bit of the pin is set or
    cleared. *)
Definition transaction (fuel : nat) (reg : Z) (set : bool) (portPin status : Z)
  : Prog Op (option Z) :=
  call_ (Store_txBufferIomux 0 (uint8 reg)) ;;
  wait wait_sequence fuel CddI2cConf_CddI2cSequence_CddI2cSequence_1 ;;
  call_ (Cdd_I2c_AsyncTransmit CddI2cConf_CddI2cSequence_CddI2cSequence_1) ;;
  wait wait_sequence fuel CddI2cConf_CddI2cSequence_CddI2cSequence_1 ;;
  wait wait_sequence fuel CddI2cConf_CddI2cSequence_CddI2cSequence_0 ;;
  call_ (Cdd_I2c_AsyncTransmit CddI2cConf_CddI2cSequence_CddI2cSequence_0) ;;
  wait wait_sequence fuel CddI2cConf_CddI2cSequence_CddI2cSequence_0 ;;
  wait wait_rxDone fuel ;;
  rx <- call (Load_rxBufferIomux 0) ;;
  (if set
   then call_ (Store_txBufferIomux 1 (pin_set rx portPin))
   else call_ (Store_txBufferIomux 1 (pin_clear rx portPin))) ;;
  call_ (Store_txBufferIomux 0 (uint8 reg)) ;;
  wait wait_sequence fuel CddI2cConf_CddI2cSequence_CddI2cSequence_2 ;;
  call_ (Cdd_I2c_AsyncTransmit CddI2cConf_CddI2cSequence_CddI2cSequence_2) ;;
  wait wait_sequence fuel CddI2cConf_CddI2cSequence_CddI2cSequence_2 ;;
  Ret (Some status).

Definition REG_OUTPUT_PORT_0 : Z :=
  if AM263PX_C_PACKAGE then TCA6416_REG_OUTPUT_PORT_0 else TCA6424_REG_OUTPUT_PORT_0.
Definition REG_CONFIG_PORT_0 : Z :=
  if AM263PX_C_PACKAGE then TCA6416_REG_CONFIG_PORT_0 else TCA6424_REG_CONFIG_PORT_0.

Lemma status_not_ok_eqb : (E_NOT_OK =? E_OK) = false.
Proof. apply Z.eqb_neq. intros E. apply E_OK_NOT_OK. symmetry. exact E. Qed.

Lemma TCA6424_setOutput_eq (fuel : nat) (ioIndex state : Z) :
  TCA6424_setOutput fuel ioIndex state
  = if 24 <=? ioIndex then Ret (Some E_NOT_OK)
    else transaction fuel (REG_OUTPUT_PORT_0 + Z.shiftr ioIndex 3) (1 =? state)
           (Z.land ioIndex 0x07) E_OK.
Proof.
  unfold TCA6424_setOutput, REG_OUTPUT_PORT_0, transaction.
  destruct (24 <=? ioIndex).
  - rewrite status_not_ok_eqb. reflexivity.
  - rewrite Z.eqb_refl. destruct AM263PX_C_PACKAGE; reflexivity.
Qed.

Lemma TCA6424_config_eq (fuel : nat) (ioIndex mode : Z) :
  TCA6424_config fuel ioIndex mode
  = if 24 <=? ioIndex then Ret (Some E_NOT_OK)
    else transaction fuel (REG_CONFIG_PORT_0 + Z.shiftr ioIndex 3) (0 =? mode)
           (Z.land ioIndex 0x07) E_OK.
Proof.
  unfold TCA6424_config, REG_CONFIG_PORT_0, transaction.
  destruct (24 <=? ioIndex).
  - rewrite status_not_ok_eqb. reflexivity.
  - rewrite Z.eqb_refl. destruct AM263PX_C_PACKAGE; reflexivity.
Qed.

(** What a transaction does when the driver is responsive. *)
Ltac step_do := cbn [bind call_ call]; rewrite obs_do.

Ltac step_wait Hseq Hfuel w' Ht Hd Hq :=
  match goal with
  | |- context [obs (after (wait_sequence ?fuel ?seq) ?rest) ?w0] =>
      destruct (obs_after_wait_sequence _ fuel rest seq w0 Hseq Hfuel)
        as (w' & -> & Ht & Hd & Hq)
  end.

Ltac step_read Hresp Hfuel w' Ht Hd :=
  match goal with
  | |- context [obs (after (wait_sequence ?fuel _) (after (wait_rxDone ?fuel) ?rest))
                    (deliver (commit (Cdd_I2c_AsyncTransmit _) _ ?w0))] =>
      destruct (obs_after_read _ fuel rest w0 Hresp Hfuel) as (w' & -> & Ht & Hd)
  end.

Lemma transaction_obs (n fuel : nat) (reg : Z) (set : bool) (portPin status : Z)
      (w : World Op Globals) :
  responsive n -> (n <= fuel)%nat ->
  exists (rx r1 r0 r2 : Z) (g : Globals),
    0 <= rx < 256
    /\ obs (transaction fuel reg set portPin status) w
       = (Some status, g,
          [Ev (Store_txBufferIomux 0 (uint8 reg)) 0;
           Ev (Cdd_I2c_AsyncTransmit CddI2cConf_CddI2cSequence_CddI2cSequence_1) r1;
           Ev (Cdd_I2c_AsyncTransmit CddI2cConf_CddI2cSequence_CddI2cSequence_0) r0;
           Ev (Load_rxBufferIomux 0) rx;
           Ev (Store_txBufferIomux 1
                 (if set then pin_set rx portPin else pin_clear rx portPin)) 0;
           Ev (Store_txBufferIomux 0 (uint8 reg)) 0;
           Ev (Cdd_I2c_AsyncTransmit CddI2cConf_CddI2cSequence_CddI2cSequence_2) r2])
    /\ txBufferIomux g
       = <[0%nat := uint8 reg]>
           (<[1%nat := if set then pin_set rx portPin else pin_clear rx portPin]>
              (<[0%nat := uint8 reg]> (txBufferIomux (globals w))))
    /\ rxDoneIomux g = TRUE.
Proof.
  intros Hresp Hfuel. pose proof Hresp as [Hseq _]. unfold transaction.
  step_do. step_wait Hseq Hfuel w1 Ht1 Hd1 Hq1.
  step_do. step_wait Hseq Hfuel w2 Ht2 Hd2 Hq2.
  step_wait Hseq Hfuel w3 Ht3 Hd3 Hq3.
  step_do. step_read Hresp Hfuel w5 Ht5 Hd5.
  step_do.
  assert (Hrx : 0 <= result (Load_rxBufferIomux 0) w5 < 256) by apply uint8_range.
  set (rx := result (Load_rxBufferIomux 0) w5) in *.
  assert (Hdata : forall (A : Type) (f : unit -> Prog Op A),
             bind (if set
                   then call_ (Store_txBufferIomux 1 (pin_set rx portPin))
                   else call_ (Store_txBufferIomux 1 (pin_clear rx portPin))) f
             = Do (Store_txBufferIomux 1
                     (if set then pin_set rx portPin else pin_clear rx portPin))
                  (fun _ => f tt))
    by (intros A f; destruct set; reflexivity).
  rewrite Hdata, obs_do.
  step_do. step_wait Hseq Hfuel w6 Ht6 Hd6 Hq6.
  step_do. step_wait Hseq Hfuel w7 Ht7 Hd7 Hq7.
  rewrite obs_ret.
  exists rx, (result (Cdd_I2c_AsyncTransmit CddI2cConf_CddI2cSequence_CddI2cSequence_1) w1),
    (result (Cdd_I2c_AsyncTransmit CddI2cConf_CddI2cSequence_CddI2cSequence_0) w3),
    (result (Cdd_I2c_AsyncTransmit CddI2cConf_CddI2cSequence_CddI2cSequence_2) w6),
    (globals w7).
  split; [exact Hrx |]. split; [reflexivity |]. split.
  - repeat first [ rewrite txBufferIomux_step
                 | progress cbn [mcan_store txBufferIomux]
                 | rewrite Ht7 | rewrite Ht6 | rewrite Ht5
                 | rewrite Ht3 | rewrite Ht2 | rewrite Ht1 ].
    reflexivity.
  - apply Hd7, rxDoneIomux_step, Hd6, rxDoneIomux_step, rxDoneIomux_step,
      rxDoneIomux_step. exact Hd5.
Qed.

Lemma pin_byte (rx portPin : Z) (set : bool) :
  0 <= rx < 256 -> 0 <= portPin < 8 ->
  let data := if set then pin_set rx portPin else pin_clear rx portPin in
  0 <= data < 256
  /\ forall k, 0 <= k ->
       Z.testbit data k = if k =? portPin then set else Z.testbit rx k.
Proof.
  intros Hrx Hp. cbv zeta. split.
  - destruct set; apply uint8_range.
  - intros k Hk. destruct set.
    + rewrite testbit_pin_set by assumption. destruct (k =? portPin); reflexivity.
    + rewrite testbit_pin_clear by assumption. destruct (k =? portPin); reflexivity.
Qed.

(** A transaction on the register [base + port] of an IO below 24. *)
Lemma transaction_io (n fuel : nat) (base ioIndex : Z) (set : bool)
      (w : World Op Globals) :
  responsive n -> (n <= fuel)%nat -> 0 <= ioIndex < 24 -> 0 <= base < 200 ->
  length (txBufferIomux (globals w)) = 2%nat ->
  let p := transaction fuel (base + Z.shiftr ioIndex 3) set (Z.land ioIndex 0x07) E_OK in
  exists rx r1 r0 r2 data : Z,
    0 <= rx < 256
    /\ 0 <= data < 256
    /\ (forall k, 0 <= k ->
          Z.testbit data k = if k =? ioIndex mod 8 then set else Z.testbit rx k)
    /\ (exec p w).1 = Some E_OK
    /\ bus_events (events p w)
       = [Ev (Store_txBufferIomux 0 (base + ioIndex / 8)) 0;
          Ev (Cdd_I2c_AsyncTransmit CddI2cConf_CddI2cSequence_CddI2cSequence_1) r1;
          Ev (Cdd_I2c_AsyncTransmit CddI2cConf_CddI2cSequence_CddI2cSequence_0) r0;
          Ev (Load_rxBufferIomux 0) rx;
          Ev (Store_txBufferIomux 1 data) 0;
          Ev (Store_txBufferIomux 0 (base + ioIndex / 8)) 0;
          Ev (Cdd_I2c_AsyncTransmit CddI2cConf_CddI2cSequence_CddI2cSequence_2) r2]
    /\ txBufferIomux (globals (exec p w).2) = [base + ioIndex / 8; data]
    /\ rxDoneIomux (globals (exec p w).2) = TRUE.
Proof.
  intros Hresp Hfuel Hio Hbase Hlen. cbv zeta.
  destruct (port_of_io ioIndex Hio) as [-> Hport].
  destruct (pin_of_io ioIndex) as [-> Hpin]; [lia |].
  destruct (transaction_obs n fuel (base + ioIndex / 8) set (ioIndex mod 8) E_OK w
              Hresp Hfuel) as (rx & r1 & r0 & r2 & g & Hrx & Hobs & Htx & Hdone).
  rewrite (uint8_small (base + ioIndex / 8)) in Hobs, Htx by lia.
  pose proof (f_equal (fun x => x.1.1) Hobs) as Hres.
  pose proof (f_equal (fun x => x.1.2) Hobs) as Hg.
  pose proof (f_equal (fun x => x.2) Hobs) as Hev.
  cbv beta in Hres, Hg, Hev. unfold obs in Hres, Hg, Hev.
  cbn [fst snd] in Hres, Hg, Hev. clear Hobs.
  destruct (pin_byte rx (ioIndex mod 8) set Hrx Hpin) as [Hdata Hbits].
  exists rx, r1, r0, r2,
    (if set then pin_set rx (ioIndex mod 8) else pin_clear rx (ioIndex mod 8)).
  repeat (split; [assumption |]).
  rewrite Hg, Htx. split; [| exact Hdone].
  destruct (txBufferIomux (globals w)) as [| a [| b [| c l]]];
    try discriminate Hlen. reflexivity.
Qed.

(** X10. Against a responsive driver (every sequence ends within [n]
    polls, and the read callback follows every start of the read sequence
    within [n] polls of the flag; nothing is asked where no read was
    started) and with a valid pin ([ioIndex] below 24), [TCA6424_setOutput]
    is a read-modify-write of the output register of the pin's port: it
    writes the register address (output port 0 of the expander plus
    [ioIndex / 8]), starts sequence 1 (address), then sequence 0 (read),
    reads the byte received, writes back the address and the byte with bit
    [ioIndex mod 8] set when [state] is HIGH and cleared otherwise, every
    other bit as read, and starts sequence 2 (write).  It returns [E_OK] and
    leaves [txBufferIomux] holding the address and the new byte. *)
Theorem TCA6424_setOutput_sets_pin (n fuel : nat) (ioIndex state : Z)
        (w : World Op Globals) :
  responsive n -> (n <= fuel)%nat -> 0 <= ioIndex < 24 ->
  length (txBufferIomux (globals w)) = 2%nat ->
  let p := TCA6424_setOutput fuel ioIndex state in
  let reg := (if AM263PX_C_PACKAGE then TCA6416_REG_OUTPUT_PORT_0
              else TCA6424_REG_OUTPUT_PORT_0) + ioIndex / 8 in
  exists rx r1 r0 r2 data : Z,
    0 <= rx < 256
    /\ 0 <= data < 256
    /\ (forall k, 0 <= k ->
          Z.testbit data k
          = if k =? ioIndex mod 8 then state =? TCA6424_OUT_STATE_HIGH
            else Z.testbit rx k)
    /\ (exec p w).1 = Some E_OK
    /\ bus_events (events p w)
       = [Ev (Store_txBufferIomux 0 reg) 0;
          Ev (Cdd_I2c_AsyncTransmit CddI2cConf_CddI2cSequence_CddI2cSequence_1) r1;
          Ev (Cdd_I2c_AsyncTransmit CddI2cConf_CddI2cSequence_CddI2cSequence_0) r0;
          Ev (Load_rxBufferIomux 0) rx;
          Ev (Store_txBufferIomux 1 data) 0;
          Ev (Store_txBufferIomux 0 reg) 0;
          Ev (Cdd_I2c_AsyncTransmit CddI2cConf_CddI2cSequence_CddI2cSequence_2) r2]
    /\ txBufferIomux (globals (exec p w).2) = [reg; data].
Proof.
  intros Hresp Hfuel Hio Hlen. cbv zeta.
  rewrite TCA6424_setOutput_eq.
  destruct (Z.leb_spec 24 ioIndex) as [Hge | _]; [lia |].
  destruct (transaction_io n fuel REG_OUTPUT_PORT_0 ioIndex (1 =? state) w
              Hresp Hfuel Hio) as (rx & r1 & r0 & r2 & data & H1 & H2 & H3 & H4 & H5 & H6 & _);
    [unfold REG_OUTPUT_PORT_0; destruct AM263PX_C_PACKAGE; cbv; split; congruence
    | exact Hlen |].
  exists rx, r1, r0, r2, data.
  rewrite (Z.eqb_sym state). unfold REG_OUTPUT_PORT_0 in *.
  repeat (split; [assumption |]). assumption.
Qed.

(** X11. Against a responsive driver (as for [TCA6424_setOutput]: the
    sequences end, and the read callback follows every start of the read
    sequence) and with a valid pin, [TCA6424_config] is the same
    read-modify-write on the configuration register of the pin's port: bit
    [ioIndex mod 8] is set when [mode] is INPUT and cleared otherwise, every
    other bit is written back as read, and the result is [E_OK]. *)
Theorem TCA6424_config_sets_direction (n fuel : nat) (ioIndex mode : Z)
        (w : World Op Globals) :
  responsive n -> (n <= fuel)%nat -> 0 <= ioIndex < 24 ->
  length (txBufferIomux (globals w)) = 2%nat ->
  let p := TCA6424_config fuel ioIndex mode in
  let reg := (if AM263PX_C_PACKAGE then TCA6416_REG_CONFIG_PORT_0
              else TCA6424_REG_CONFIG_PORT_0) + ioIndex / 8 in
  exists rx r1 r0 r2 data : Z,
    0 <= rx < 256
    /\ 0 <= data < 256
    /\ (forall k, 0 <= k ->
          Z.testbit data k
          = if k =? ioIndex mod 8 then mode =? TCA6424_MODE_INPUT
            else Z.testbit rx k)
    /\ (exec p w).1 = Some E_OK
    /\ bus_events (events p w)
       = [Ev (Store_txBufferIomux 0 reg) 0;
          Ev (Cdd_I2c_AsyncTransmit CddI2cConf_CddI2cSequence_CddI2cSequence_1) r1;
          Ev (Cdd_I2c_AsyncTransmit CddI2cConf_CddI2cSequence_CddI2cSequence_0) r0;
          Ev (Load_rxBufferIomux 0) rx;
          Ev (Store_txBufferIomux 1 data) 0;
          Ev (Store_txBufferIomux 0 reg) 0;
          Ev (Cdd_I2c_AsyncTransmit CddI2cConf_CddI2cSequence_CddI2cSequence_2) r2]
    /\ txBufferIomux (globals (exec p w).2) = [reg; data].
Proof.
  intros Hresp Hfuel Hio Hlen. cbv zeta.
  rewrite TCA6424_config_eq.
  destruct (Z.leb_spec 24 ioIndex) as [Hge | _]; [lia |].
  destruct (transaction_io n fuel REG_CONFIG_PORT_0 ioIndex (0 =? mode) w
              Hresp Hfuel Hio) as (rx & r1 & r0 & r2 & data & H1 & H2 & H3 & H4 & H5 & H6 & _);
    [unfold REG_CONFIG_PORT_0; destruct AM263PX_C_PACKAGE; cbv; split; congruence
    | exact Hlen |].
  exists rx, r1, r0, r2, data.
  rewrite (Z.eqb_sym mode). unfold REG_CONFIG_PORT_0 in *.
  repeat (split; [assumption |]). assumption.
Qed.

(** X12. With [ioIndex] 24 or more, [TCA6424_setOutput] and
    [TCA6424_config] return [E_NOT_OK] at once: no buffer is written, no
    sequence is polled or started, the state is as before. *)
Theorem TCA6424_rejects_io_out_of_range (fuel : nat) (ioIndex v : Z)
        (w : World Op Globals) :
  24 <= ioIndex ->
  exec (TCA6424_setOutput fuel ioIndex v) w = (Some E_NOT_OK, w)
  /\ events (TCA6424_setOutput fuel ioIndex v) w = []
  /\ exec (TCA6424_config fuel ioIndex v) w = (Some E_NOT_OK, w)
  /\ events (TCA6424_config fuel ioIndex v) w = [].
Proof.
  intros Hio. rewrite TCA6424_setOutput_eq, TCA6424_config_eq.
  destruct (Z.leb_spec 24 ioIndex) as [_ | Hlt]; [| lia].
  repeat split.
Qed.

(** A loop that is not left: what is after it is not reached. *)
Lemma obs_after_not_left {A : Type} (loop : Prog Op bool) (rest : Prog Op (option A))
      (w : World Op Globals) :
  (exec loop w).1 = false -> all_ops is_poll loop ->
  obs (after loop rest) w = (None, globals (exec loop w).2, []).
Proof.
  intros Hleft Hpoll. unfold obs, after.
  rewrite exec_seq, events_seq, bus_events_app, Hleft.
  rewrite (bus_events_polls (events loop w))
    by (apply (all_ops_trace machine env is_poll), Hpoll).
  reflexivity.
Qed.

Lemma wait_sequence_busy (seq : Z) (fuel : nat) (w : World Op Globals) :
  (forall h, oracle env h (Cdd_I2c_GetSequenceResult seq) <> CDD_I2C_SEQ_OK) ->
  (exec (wait_sequence fuel seq) w).1 = false.
Proof.
  intros Hbusy. revert w. induction fuel as [| fuel IH]; intros w; [reflexivity |].
  cbn [wait_sequence bind call Free.exec].
  destruct (Z.eqb_spec CDD_I2C_SEQ_OK (result (Cdd_I2c_GetSequenceResult seq) w))
    as [E | _]; cbn [negb].
  - exfalso. apply (Hbusy (trace w)). symmetry. exact E.
  - apply IH.
Qed.

Lemma wait_rxDone_never (fuel : nat) (w : World Op Globals) :
  no_callback -> rxDoneIomux (globals w) <> TRUE ->
  (exec (wait_rxDone fuel) w).1 = false.
Proof.
  intros Hq. revert w. induction fuel as [| fuel IH]; intros w Hd; [reflexivity |].
  cbn [wait_rxDone bind call Free.exec].
  destruct (Z.eqb_spec TRUE (result Load_rxDoneIomux w)) as [E | _]; cbn [negb].
  - exfalso. apply Hd. symmetry. exact E.
  - apply IH. rewrite rxDoneIomux_quiet_step by exact Hq. exact Hd.
Qed.

Lemma transaction_busy (fuel : nat) (reg : Z) (set : bool) (portPin status : Z)
      (w : World Op Globals) :
  (forall h, oracle env h
               (Cdd_I2c_GetSequenceResult CddI2cConf_CddI2cSequence_CddI2cSequence_1)
             <> CDD_I2C_SEQ_OK) ->
  exists g, obs (transaction fuel reg set portPin status) w
            = (None, g, [Ev (Store_txBufferIomux 0 (uint8 reg)) 0]).
Proof.
  intros Hbusy. unfold transaction. step_do.
  rewrite obs_after_not_left
    by (try apply wait_sequence_busy; try apply all_ops_wait_sequence; exact Hbusy).
  eexists. reflexivity.
Qed.

Lemma transaction_no_callback (n fuel : nat) (reg : Z) (set : bool)
      (portPin status : Z) (w : World Op Globals) :
  sequences_end n -> (n <= fuel)%nat -> no_callback ->
  rxDoneIomux (globals w) <> TRUE ->
  exists g r1 r0,
    obs (transaction fuel reg set portPin status) w
    = (None, g,
       [Ev (Store_txBufferIomux 0 (uint8 reg)) 0;
        Ev (Cdd_I2c_AsyncTransmit CddI2cConf_CddI2cSequence_CddI2cSequence_1) r1;
        Ev (Cdd_I2c_AsyncTransmit CddI2cConf_CddI2cSequence_CddI2cSequence_0) r0]).
Proof.
  intros Hseq Hfuel Hq Hd. unfold transaction.
  step_do. step_wait Hseq Hfuel w1 Ht1 Hd1 Hq1.
  step_do. step_wait Hseq Hfuel w2 Ht2 Hd2 Hq2.
  step_wait Hseq Hfuel w3 Ht3 Hd3 Hq3.
  step_do. step_wait Hseq Hfuel w4 Ht4 Hd4 Hq4.
  rewrite obs_after_not_left.
  - eexists _, _, _. reflexivity.
  - apply wait_rxDone_never; [exact Hq |].
    rewrite (Hq4 Hq), rxDoneIomux_quiet_step by exact Hq. cbn [mcan_store].
    rewrite (Hq3 Hq), (Hq2 Hq), rxDoneIomux_quiet_step by exact Hq. cbn [mcan_store].
    rewrite (Hq1 Hq), rxDoneIomux_quiet_step by exact Hq. cbn [mcan_store rxDoneIomux].
    exact Hd.
  - apply all_ops_wait_rxDone.
Qed.

Lemma obs_result {A : Type} (p : Prog Op A) (w : World Op Globals) (a : A)
      (g : Globals) (evs : list (Event Op)) :
  obs p w = (a, g, evs) ->
  (exec p w).1 = a /\ bus_events (events p w) = evs.
Proof.
  intros Hobs. split.
  - exact (f_equal (fun x => x.1.1) Hobs).
  - exact (f_equal (fun x => x.2) Hobs).
Qed.

(** X13. While the driver does not report sequence 1 as [CDD_I2C_SEQ_OK],
    [TCA6424_setOutput] and [TCA6424_config] stay in their first loop: for
    every bound on the number of polls they have not returned, and they have
    started no sequence. *)
Theorem TCA6424_spins_while_sequence_busy (fuel : nat) (ioIndex v : Z)
        (w : World Op Globals) :
  ioIndex < 24 ->
  (forall h, oracle env h
               (Cdd_I2c_GetSequenceResult CddI2cConf_CddI2cSequence_CddI2cSequence_1)
             <> CDD_I2C_SEQ_OK) ->
  (exec (TCA6424_setOutput fuel ioIndex v) w).1 = None
  /\ transmits (events (TCA6424_setOutput fuel ioIndex v) w) = []
  /\ (exec (TCA6424_config fuel ioIndex v) w).1 = None
  /\ transmits (events (TCA6424_config fuel ioIndex v) w) = [].
Proof.
  intros Hio Hbusy. rewrite TCA6424_setOutput_eq, TCA6424_config_eq.
  destruct (Z.leb_spec 24 ioIndex) as [Hge | _]; [lia |].
  destruct (transaction_busy fuel (REG_OUTPUT_PORT_0 + Z.shiftr ioIndex 3) (1 =? v)
              (Z.land ioIndex 0x07) E_OK w Hbusy) as [g1 H1].
  destruct (transaction_busy fuel (REG_CONFIG_PORT_0 + Z.shiftr ioIndex 3) (0 =? v)
              (Z.land ioIndex 0x07) E_OK w Hbusy) as [g2 H2].
  apply obs_result in H1, H2. destruct H1 as [H1 H1'], H2 as [H2 H2'].
  rewrite <- (transmits_bus_events (events (transaction _ (REG_OUTPUT_PORT_0 + _) _ _ _) w)).
  rewrite <- (transmits_bus_events (events (transaction _ (REG_CONFIG_PORT_0 + _) _ _ _) w)).
  rewrite H1, H1', H2, H2'. repeat split.
Qed.

(** X14. When the sequences end but the read callback never runs and the
    flag [rxDoneIomux] is not set, [TCA6424_setOutput] and [TCA6424_config]
    stay in the loop on the flag: they have started the address and the
    read sequence, they never start the write sequence and never return. *)
Theorem TCA6424_waits_for_read_callback (n fuel : nat) (ioIndex v : Z)
        (w : World Op Globals) :
  sequences_end n -> (n <= fuel)%nat -> ioIndex < 24 ->
  no_callback -> rxDoneIomux (globals w) <> TRUE ->
  (exec (TCA6424_setOutput fuel ioIndex v) w).1 = None
  /\ transmits (events (TCA6424_setOutput fuel ioIndex v) w)
     = [CddI2cConf_CddI2cSequence_CddI2cSequence_1;
        CddI2cConf_CddI2cSequence_CddI2cSequence_0]
  /\ (exec (TCA6424_config fuel ioIndex v) w).1 = None
  /\ transmits (events (TCA6424_config fuel ioIndex v) w)
     = [CddI2cConf_CddI2cSequence_CddI2cSequence_1;
        CddI2cConf_CddI2cSequence_CddI2cSequence_0].
Proof.
  intros Hseq Hfuel Hio Hq Hd. rewrite TCA6424_setOutput_eq, TCA6424_config_eq.
  destruct (Z.leb_spec 24 ioIndex) as [Hge | _]; [lia |].
  destruct (transaction_no_callback n fuel (REG_OUTPUT_PORT_0 + Z.shiftr ioIndex 3)
              (1 =? v) (Z.land ioIndex 0x07) E_OK w Hseq Hfuel Hq Hd)
    as (g1 & a1 & b1 & H1).
  destruct (transaction_no_callback n fuel (REG_CONFIG_PORT_0 + Z.shiftr ioIndex 3)
              (0 =? v) (Z.land ioIndex 0x07) E_OK w Hseq Hfuel Hq Hd)
    as (g2 & a2 & b2 & H2).
  apply obs_result in H1, H2. destruct H1 as [H1 H1'], H2 as [H2 H2'].
  rewrite <- (transmits_bus_events (events (transaction _ (REG_OUTPUT_PORT_0 + _) _ _ _) w)).
  rewrite <- (transmits_bus_events (events (transaction _ (REG_CONFIG_PORT_0 + _) _ _ _) w)).
  rewrite H1, H1', H2, H2'. repeat split.
Qed.

(** ** The set-up of the transceiver *)

Definition prepend {A : Type} (evs : list (Event Op))
           (x : A * Globals * list (Event Op)) : A * Globals * list (Event Op) :=
  (x.1.1, x.1.2, evs ++ x.2).

Lemma obs_returned {A B : Type} (p : Prog Op (option A))
      (rest : A -> Prog Op (option B)) (w : World Op Globals) (a : A) (g : Globals)
      (evs : list (Event Op)) :
  obs p w = (Some a, g, evs) ->
  exists w', globals w' = g /\ obs (returned p rest) w = prepend evs (obs (rest a) w').
Proof.
  intros Hobs.
  pose proof (f_equal (fun x => x.1.1) Hobs) as Hres.
  pose proof (f_equal (fun x => x.1.2) Hobs) as Hg.
  pose proof (f_equal (fun x => x.2) Hobs) as Hev.
  cbv beta in Hres, Hg, Hev. unfold obs in Hres, Hg, Hev.
  cbn [fst snd] in Hres, Hg, Hev.
  exists (exec p w).2. split; [exact Hg |].
  unfold obs, returned, prepend.
  rewrite exec_seq, events_seq, bus_events_app, Hres, Hev. reflexivity.
Qed.

(** A transaction starts the three sequences, in the order 1, 0, 2, and
    prints nothing. *)
Lemma transaction_summary (n fuel : nat) (reg : Z) (set : bool) (portPin status : Z)
      (w : World Op Globals) :
  responsive n -> (n <= fuel)%nat ->
  exists g evs,
    obs (transaction fuel reg set portPin status) w = (Some status, g, evs)
    /\ prints evs = []
    /\ transmits evs
       = [CddI2cConf_CddI2cSequence_CddI2cSequence_1;
          CddI2cConf_CddI2cSequence_CddI2cSequence_0;
          CddI2cConf_CddI2cSequence_CddI2cSequence_2].
Proof.
  intros Hresp Hfuel.
  destruct (transaction_obs n fuel reg set portPin status w Hresp Hfuel)
    as (rx & r1 & r0 & r2 & g & _ & Hobs & _).
  eexists g, _. split; [exact Hobs |]. split; reflexivity.
Qed.

Definition three_sequences : list Z :=
  [CddI2cConf_CddI2cSequence_CddI2cSequence_1;
   CddI2cConf_CddI2cSequence_CddI2cSequence_0;
   CddI2cConf_CddI2cSequence_CddI2cSequence_2].

Lemma prints_app (l1 l2 : list (Event Op)) : prints (l1 ++ l2) = prints l1 ++ prints l2.
Proof. apply flat_map_app. Qed.

Lemma transmits_app (l1 l2 : list (Event Op)) :
  transmits (l1 ++ l2) = transmits l1 ++ transmits l2.
Proof. apply flat_map_app. Qed.

Ltac step_transaction Hresp Hfuel w' evs Hp Ht :=
  match goal with
  | |- context [obs (returned (transaction ?fuel ?reg ?set ?pin ?status) ?rest) ?w0] =>
      let g := fresh "g" in
      let Hobs := fresh "Hobs" in
      let Hg := fresh "Hg" in
      destruct (transaction_summary _ fuel reg set pin status w0 Hresp Hfuel)
        as (g & evs & Hobs & Hp & Ht);
      destruct (obs_returned _ rest w0 status g evs Hobs) as (w' & Hg & ->);
      clear Hobs Hg g
  end.

Lemma TCA6424_Transceiver_obs (n fuel : nat) (w : World Op Globals) :
  responsive n -> (n <= fuel)%nat -> E_OK = 0 ->
  exists g evs,
    obs (TCA6424_Transceiver fuel) w = (Some E_OK, g, evs)
    /\ prints evs = []
    /\ transmits evs
       = if AM263PX_C_PACKAGE
         then three_sequences ++ three_sequences
         else three_sequences ++ three_sequences ++ three_sequences ++ three_sequences.
Proof.
  intros Hresp Hfuel HE.
  unfold TCA6424_Transceiver, IO_MUX_MCAN_STB.
  rewrite !TCA6424_setOutput_eq, !TCA6424_config_eq.
  destruct AM263PX_C_PACKAGE; cbn [Z.leb Z.compare Pos.compare Pos.compare_cont
                                     IO_MUX_MCAN_SEL].
  - step_transaction Hresp Hfuel w1 evs1 Hp1 Ht1.
    step_transaction Hresp Hfuel w2 evs2 Hp2 Ht2.
    unfold TCA6424_Transceiver_report. rewrite !HE.
    change (uint32 (uint32 (0 + 0) + 0)) with 0.
    cbn [Z.eqb negb bind]. rewrite obs_ret.
    eexists _, _. unfold prepend. cbn [fst snd]. split; [reflexivity |].
    rewrite !prints_app, !transmits_app, Hp1, Hp2, Ht1, Ht2, app_nil_r.
    split; reflexivity.
  - step_transaction Hresp Hfuel w1 evs1 Hp1 Ht1.
    step_transaction Hresp Hfuel w2 evs2 Hp2 Ht2.
    step_transaction Hresp Hfuel w3 evs3 Hp3 Ht3.
    step_transaction Hresp Hfuel w4 evs4 Hp4 Ht4.
    unfold TCA6424_Transceiver_report. rewrite !HE.
    change (uint32 (uint32 (uint32 (0 + 0) + 0) + 0)) with 0.
    cbn [Z.eqb negb bind]. rewrite obs_ret.
    eexists _, _. unfold prepend. cbn [fst snd]. split; [reflexivity |].
    rewrite !prints_app, !transmits_app, Hp1, Hp2, Hp3, Hp4, Ht1, Ht2, Ht3, Ht4,
      app_nil_r.
    split; reflexivity.
Qed.

(** X15. Against a responsive driver (the sequences end, and the read
    callback follows every start of the read sequence), and with [E_OK]
    being 0, [mcanEnableTransceiver] returns and prints the success message
    and nothing else, whatever [Cdd_I2c_SetupEB] returned; it runs the three
    sequences (address, read, write) once per register access: twice with
    [AM263PX_C_PACKAGE] (STB), four times without it (SEL and STB). *)
Theorem mcanEnableTransceiver_reports_success (n fuel : nat) (w : World Op Globals) :
  responsive n -> (n <= fuel)%nat -> E_OK = 0 ->
  (exec (mcanEnableTransceiver fuel) w).1 = Some tt
  /\ prints (events (mcanEnableTransceiver fuel) w)
     = ["IOMUX setup for CAN successful \n\r"%string]
  /\ transmits (events (mcanEnableTransceiver fuel) w)
     = if AM263PX_C_PACKAGE
       then three_sequences ++ three_sequences
       else three_sequences ++ three_sequences ++ three_sequences ++ three_sequences.
Proof.
  intros Hresp Hfuel HE.
  assert (Hobs : exists g evs,
             obs (mcanEnableTransceiver fuel) w = (Some tt, g, evs)
             /\ prints evs = ["IOMUX setup for CAN successful \n\r"%string]
             /\ transmits evs
                = if AM263PX_C_PACKAGE
                  then three_sequences ++ three_sequences
                  else three_sequences ++ three_sequences ++ three_sequences
                       ++ three_sequences).
  { unfold mcanEnableTransceiver, I2c_Buffer_Setup.
    cbn [bind call]. rewrite !obs_do.
    match goal with
    | |- context [obs (returned (TCA6424_Transceiver fuel) ?rest) ?w0] =>
        destruct (TCA6424_Transceiver_obs n fuel w0 Hresp Hfuel HE)
          as (g & evs & Hobs & Hp & Ht);
        destruct (obs_returned _ rest w0 E_OK g evs Hobs) as (w' & _ & ->)
    end.
    rewrite Z.eqb_refl. cbn [bind call_]. rewrite obs_do, obs_ret.
    eexists _, _. unfold prepend, emit. cbn [fst snd ev_op is_poll].
    split; [reflexivity |].
    cbn [prints transmits flat_map ev_op app].
    fold (prints (evs ++ [Ev (AppUtils_printf "IOMUX setup for CAN successful \n\r") 0])).
    fold (transmits (evs ++ [Ev (AppUtils_printf "IOMUX setup for CAN successful \n\r") 0])).
    rewrite prints_app, transmits_app, Hp, Ht, app_nil_r. split; reflexivity. }
  destruct Hobs as (g & evs & Hobs & Hp & Ht).
  apply obs_result in Hobs. destruct Hobs as [Hres Hev].
  rewrite <- (prints_bus_events (events _ w)), <- (transmits_bus_events (events _ w)).
  rewrite Hres, Hev. auto.
Qed.

(** ** The flag of the read callback *)

(** An operation that does not store to [rxDoneIomux], or stores [TRUE]. *)
Definition keeps_flag_set (o : Op) : bool :=
  match o with
  | Store_rxDoneIomux v => v =? TRUE
  | _ => true
  end.

Lemma all_ops_after {A : Type} (P : Op -> bool) (loop : Prog Op bool)
      (rest : Prog Op (option A)) :
  all_ops P loop -> all_ops P rest -> all_ops P (after loop rest).
Proof.
  intros Hl Hr. unfold after. apply all_ops_seq; [exact Hl |].
  intros [|]; [exact Hr | constructor].
Qed.

Lemma all_ops_returned {A B : Type} (P : Op -> bool) (p : Prog Op (option A))
      (rest : A -> Prog Op (option B)) :
  all_ops P p -> (forall a, all_ops P (rest a)) -> all_ops P (returned p rest).
Proof.
  intros Hp Hr. unfold returned. apply all_ops_seq; [exact Hp |].
  intros [a |]; [apply Hr | constructor].
Qed.

Lemma keeps_flag_set_wait_sequence (fuel : nat) (seq : Z) :
  all_ops keeps_flag_set (wait_sequence fuel seq).
Proof.
  apply (all_ops_impl is_poll); [| apply all_ops_wait_sequence].
  intros o Ho. destruct o; try discriminate Ho; reflexivity.
Qed.

Lemma keeps_flag_set_wait_rxDone (fuel : nat) :
  all_ops keeps_flag_set (wait_rxDone fuel).
Proof.
  apply (all_ops_impl is_poll); [| apply all_ops_wait_rxDone].
  intros o Ho. destruct o; try discriminate Ho; reflexivity.
Qed.

Ltac keeps_flag_set_step :=
  match goal with
  | |- all_ops _ (after _ _) => apply all_ops_after
  | |- all_ops _ (returned _ _) => apply all_ops_returned; [| intros ?]
  | |- all_ops _ (bind _ _) => apply all_ops_seq; [| intros ?]
  | |- all_ops _ (wait_sequence _ _) => apply keeps_flag_set_wait_sequence
  | |- all_ops _ (wait_rxDone _) => apply keeps_flag_set_wait_rxDone
  | |- all_ops _ (call _) => apply all_ops_one; try reflexivity
  | |- all_ops _ (call_ _) => apply all_ops_one_; try reflexivity
  | |- all_ops _ (Ret _) => constructor
  | |- all_ops _ (if ?b then _ else _) => destruct b
  | |- all_ops _ (let _ := _ in _) => cbv zeta
  end.

Lemma keeps_flag_set_transaction (fuel : nat) (reg : Z) (set : bool)
      (portPin status : Z) :
  all_ops keeps_flag_set (transaction fuel reg set portPin status).
Proof. unfold transaction. repeat keeps_flag_set_step. Qed.

Lemma keeps_flag_set_setOutput (fuel : nat) (ioIndex state : Z) :
  all_ops keeps_flag_set (TCA6424_setOutput fuel ioIndex state).
Proof.
  rewrite TCA6424_setOutput_eq.
  destruct (24 <=? ioIndex); [constructor | apply keeps_flag_set_transaction].
Qed.

Lemma keeps_flag_set_config (fuel : nat) (ioIndex mode : Z) :
  all_ops keeps_flag_set (TCA6424_config fuel ioIndex mode).
Proof.
  rewrite TCA6424_config_eq.
  destruct (24 <=? ioIndex); [constructor | apply keeps_flag_set_transaction].
Qed.

Lemma keeps_flag_set_Transceiver (fuel : nat) :
  all_ops keeps_flag_set (TCA6424_Transceiver fuel).
Proof.
  unfold TCA6424_Transceiver, TCA6424_Transceiver_report.
  repeat first [ apply keeps_flag_set_setOutput | apply keeps_flag_set_config
               | keeps_flag_set_step ].
Qed.

(** A program after which the flag, once [TRUE], is [TRUE]. *)
Definition stays_set {A : Type} (p : Prog Op A) : Prop :=
  forall w : World Op Globals,
    rxDoneIomux (globals w) = TRUE -> rxDoneIomux (globals (exec p w).2) = TRUE.

Lemma keeps_flag_set_stays_set {A : Type} (p : Prog Op A) :
  all_ops keeps_flag_set p -> stays_set p.
Proof.
  intros Hp w. apply (exec_invariant machine env keeps_flag_set
                        (fun g => rxDoneIomux g = TRUE)); [| | exact Hp].
  - intros o g Ho Hg. destruct o; try exact Hg. cbn in *.
    apply Z.eqb_eq. exact Ho.
  - intros g _. reflexivity.
Qed.

(** X16. No function of the file clears [rxDoneIomux]: once the flag is
    [TRUE] it is [TRUE] after every function of the file, whatever the driver
    does.  A loop on the flag that finds it set is left at its first test:
    after the first read of the expander the functions no longer wait for
    the read callback. *)
Theorem rxDoneIomux_is_never_cleared (fuel : nat) :
  (forall ioIndex state, stays_set (TCA6424_setOutput fuel ioIndex state))
  /\ (forall ioIndex mode, stays_set (TCA6424_config fuel ioIndex mode))
  /\ stays_set (TCA6424_Transceiver fuel)
  /\ stays_set I2c_Buffer_Setup
  /\ stays_set (mcanEnableTransceiver fuel)
  /\ stays_set I2c_Iomux_Read_Callback
  /\ stays_set I2c_Iomux_Write_Callback
  /\ stays_set I2c_Iomux_Write_Callback_Ptr
  /\ (forall code, stays_set (I2c_Sequence_Error_Report code))
  /\ (forall code, stays_set (I2c_Iomux_Read_Callback_Fail code))
  /\ (forall code, stays_set (I2c_Iomux_Write_Callback_Ptr_Fail code))
  /\ (forall code, stays_set (I2c_Iomux_Write_Callback_Fail code))
  /\ stays_set SchM_Enter_Cdd_I2c_I2C_EXCLUSIVE_AREA_0
  /\ stays_set SchM_Exit_Cdd_I2c_I2C_EXCLUSIVE_AREA_0
  /\ (forall w : World Op Globals,
         rxDoneIomux (globals w) = TRUE ->
         (exec (wait_rxDone (S fuel)) w).1 = true
         /\ events (wait_rxDone (S fuel)) w = [Ev Load_rxDoneIomux TRUE]).
Proof.
  split_and !;
    repeat match goal with |- forall _ : Z, _ => intro end;
    try (apply keeps_flag_set_stays_set;
         unfold mcanEnableTransceiver, I2c_Buffer_Setup, I2c_Iomux_Read_Callback,
           I2c_Iomux_Write_Callback, I2c_Iomux_Write_Callback_Ptr,
           I2c_Iomux_Read_Callback_Fail, I2c_Iomux_Write_Callback_Ptr_Fail,
           I2c_Iomux_Write_Callback_Fail, I2c_Sequence_Error_Report,
           SchM_Enter_Cdd_I2c_I2C_EXCLUSIVE_AREA_0,
           SchM_Exit_Cdd_I2c_I2C_EXCLUSIVE_AREA_0;
         repeat first [ apply keeps_flag_set_setOutput | apply keeps_flag_set_config
                      | apply keeps_flag_set_Transceiver | keeps_flag_set_step ];
         cbn; apply Z.eqb_refl).
  intros w Hd. cbn [wait_rxDone bind call Free.exec Free.events].
  assert (Hr : result Load_rxDoneIomux w = TRUE) by exact Hd.
  rewrite !Hr, Z.eqb_refl. split; reflexivity.
Qed.

(** ** The set-up of the buffers, and the report of an error *)

Lemma uint8_lor (a b : Z) : 0 <= a < 256 -> 0 <= b < 256 -> uint8 (Z.lor a b) = Z.lor a b.
Proof.
  intros Ha Hb. apply Z.bits_inj'. intros k Hk.
  rewrite testbit_uint8, Z.lor_spec.
  destruct (Z.ltb_spec k 8) as [Hk8 | Hk8]; cbn [andb]; [reflexivity |].
  rewrite (testbit_byte_high a k Ha Hk8), (testbit_byte_high b k Hb Hk8).
  reflexivity.
Qed.

Lemma lor_byte_range (a b : Z) : 0 <= a < 256 -> 0 <= b < 256 -> 0 <= Z.lor a b < 256.
Proof.
  intros Ha Hb. rewrite <- (uint8_lor a b Ha Hb). apply uint8_range.
Qed.

(** X17. [I2c_Buffer_Setup] hands the driver the receive buffer for
    channel 0 (one byte) and the transmit buffer for channels 1 and 2 (one
    and two bytes), in this order and whatever the driver returns, and
    returns the bitwise or of the three results: with [E_OK] being 0, the
    result is [E_OK] exactly when all three calls returned [E_OK]. *)
Theorem I2c_Buffer_Setup_result (w : World Op Globals) :
  E_OK = 0 ->
  exists r0 r1 r2 : Z,
    events I2c_Buffer_Setup w
    = [Ev (Cdd_I2c_SetupEB CddI2cConf_CddI2cChannel_CddI2cChannel_0
             NULL_PTR (Addr_rxBufferIomux 0) 1) r0;
       Ev (Cdd_I2c_SetupEB CddI2cConf_CddI2cChannel_CddI2cChannel_1
             (Addr_txBufferIomux 0) NULL_PTR 1) r1;
       Ev (Cdd_I2c_SetupEB CddI2cConf_CddI2cChannel_CddI2cChannel_2
             (Addr_txBufferIomux 0) NULL_PTR 2) r2]
    /\ (exec I2c_Buffer_Setup w).1 = Z.lor (Z.lor r0 r1) r2
    /\ ((exec I2c_Buffer_Setup w).1 = E_OK <-> r0 = E_OK /\ r1 = E_OK /\ r2 = E_OK).
Proof.
  intros HE. unfold I2c_Buffer_Setup. rewrite HE.
  cbn [bind call Free.exec Free.events fst].
  set (w1 := deliver (commit _ _ w)).
  set (r0 := result _ w) in *.
  set (w2 := deliver (commit _ _ w1)).
  set (r1 := result _ w1) in *.
  set (r2 := result _ w2) in *.
  assert (H0 : 0 <= r0 < 256) by apply uint8_range.
  assert (H1 : 0 <= r1 < 256) by apply uint8_range.
  assert (H2 : 0 <= r2 < 256) by apply uint8_range.
  exists r0, r1, r2. split; [reflexivity |].
  assert (Hres : uint8 (Z.lor (uint8 (Z.lor (uint8 (Z.lor (uint8 0) r0)) r1)) r2)
                 = Z.lor (Z.lor r0 r1) r2).
  { change (uint8 0) with 0. rewrite Z.lor_0_l, (uint8_small r0 H0).
    rewrite (uint8_lor r0 r1 H0 H1).
    apply uint8_lor; [apply lor_byte_range; assumption | exact H2]. }
  rewrite Hres. split; [reflexivity |].
  rewrite !Z.lor_eq_0_iff. tauto.
Qed.

(** The messages of [I2c_Sequence_Error_Report], by error code. *)
Definition error_messages : list (Z * string) :=
  [(CDD_I2C_E_HW_UNIT_BUSY, "Hardware unit busy\n\r");
   (CDD_I2C_E_CHANNEL_BUSY, "Channels busy\n\r");
   (CDD_I2C_E_ARBITRATION_LOSS, "Arbitration lost\n\r");
   (CDD_I2C_E_NACK, "No Acknowledgement\n\r");
   (CDD_I2C_E_RECEIVE_SHIFT_REGISTER_FULL, "Receive shift register full\n\r");
   (CDD_I2C_E_PARAM_QUEUE_FULL, "Queue full\n\r")]%string.

Lemma I2c_Sequence_Error_Report_events (Error_code : Z) (w : World Op Globals) :
  List.NoDup (List.map fst error_messages) ->
  (forall msg, In (Error_code, msg) error_messages ->
               events (I2c_Sequence_Error_Report Error_code) w
               = [Ev (AppUtils_printf msg) 0])
  /\ (~ In Error_code (List.map fst error_messages) ->
      events (I2c_Sequence_Error_Report Error_code) w = []).
Proof.
  unfold error_messages. cbn [List.map fst]. intros Hnd.
  repeat (apply List.NoDup_cons_iff in Hnd; destruct Hnd as [? Hnd]).
  cbn [In] in *. unfold I2c_Sequence_Error_Report. split.
  - intros msg Hin.
    destruct Hin as [E | [E | [E | [E | [E | [E | []]]]]]]; injection E as <- <-;
      repeat match goal with
             | |- context [?a =? ?b] =>
                 destruct (Z.eqb_spec a b); [try (exfalso; intuition congruence) |]
             end;
      try reflexivity; try congruence.
  - intros Hout.
    repeat match goal with
           | |- context [?a =? ?b] =>
               destruct (Z.eqb_spec a b); [exfalso; intuition congruence |]
           end.
    reflexivity.
Qed.

(** X18. When the six error codes of the driver are distinct,
    [I2c_Sequence_Error_Report] prints exactly the message of the code it is
    given and nothing for a value that is none of the six; each of the three
    failure callbacks prints its own headline first and then this report. *)
Theorem I2c_Sequence_Error_Report_prints (Error_code : Z) (w : World Op Globals) :
  List.NoDup (List.map fst error_messages) ->
  let header_read := "Sequence failed while trying to read data from IOMUX\n\r"%string in
  let header_ptr :=
    "Sequence failed while trying to reset Iomux address pointer\n\r"%string in
  let header_write := "Sequence failed while trying to write to Iomux\n\r"%string in
  (forall msg, In (Error_code, msg) error_messages ->
      prints (events (I2c_Sequence_Error_Report Error_code) w) = [msg]
      /\ prints (events (I2c_Iomux_Read_Callback_Fail Error_code) w)
         = [header_read; msg]
      /\ prints (events (I2c_Iomux_Write_Callback_Ptr_Fail Error_code) w)
         = [header_ptr; msg]
      /\ prints (events (I2c_Iomux_Write_Callback_Fail Error_code) w)
         = [header_write; msg])
  /\ (~ In Error_code (List.map fst error_messages) ->
      prints (events (I2c_Sequence_Error_Report Error_code) w) = []
      /\ prints (events (I2c_Iomux_Read_Callback_Fail Error_code) w) = [header_read]
      /\ prints (events (I2c_Iomux_Write_Callback_Ptr_Fail Error_code) w)
         = [header_ptr]
      /\ prints (events (I2c_Iomux_Write_Callback_Fail Error_code) w)
         = [header_write]).
Proof.
  intros Hnd. cbv zeta.
  unfold I2c_Iomux_Read_Callback_Fail, I2c_Iomux_Write_Callback_Ptr_Fail,
    I2c_Iomux_Write_Callback_Fail.
  cbn [bind call_ Free.events].
  split.
  - intros msg Hin.
    split_and !;
      match goal with
      | |- context [events (I2c_Sequence_Error_Report Error_code) ?w0] =>
          destruct (I2c_Sequence_Error_Report_events Error_code w0 Hnd) as [Hk _];
          rewrite (Hk msg Hin)
      end; reflexivity.
  - intros Hout.
    split_and !;
      match goal with
      | |- context [events (I2c_Sequence_Error_Report Error_code) ?w0] =>
          destruct (I2c_Sequence_Error_Report_events Error_code w0 Hnd) as [_ Hu];
          rewrite (Hu Hout)
      end; reflexivity.
Qed.

(** ** The report of a failed set-up *)

Definition is_printf (o : Op) : bool :=
  match o with
  | AppUtils_printf _ => true
  | _ => false
  end.

Definition quiet (o : Op) : bool := negb (is_printf o).

Lemma prints_quiet (evs : list (Event Op)) :
  Forall (fun e => quiet (ev_op e) = true) evs -> prints evs = [].
Proof.
  induction 1 as [| [o r] l He Hl IH]; [reflexivity |].
  cbn [prints flat_map ev_op] in *. destruct o; try discriminate He; exact IH.
Qed.

(** What a function with a loop returns when it returns [status]. *)
Definition returns_only (status : Z) (r : option Z) : Prop :=
  r = None \/ r = Some status.

Lemma yields_after {A : Type} (P : Op -> bool) (Q : option A -> Prop)
      (loop : Prog Op bool) (rest : Prog Op (option A)) :
  all_ops P loop -> Q None -> yields P Q rest -> yields P Q (after loop rest).
Proof.
  intros Hl Hn Hr. unfold after.
  apply (yields_seq P (fun _ => True)); [apply all_ops_yields, Hl |].
  intros [|] _; [exact Hr | constructor; exact Hn].
Qed.

Lemma quiet_wait_sequence (fuel : nat) (seq : Z) : all_ops quiet (wait_sequence fuel seq).
Proof.
  apply (all_ops_impl is_poll); [| apply all_ops_wait_sequence].
  intros o Ho. destruct o; try discriminate Ho; reflexivity.
Qed.

Lemma quiet_wait_rxDone (fuel : nat) : all_ops quiet (wait_rxDone fuel).
Proof.
  apply (all_ops_impl is_poll); [| apply all_ops_wait_rxDone].
  intros o Ho. destruct o; try discriminate Ho; reflexivity.
Qed.

Ltac quiet_step :=
  match goal with
  | |- yields _ _ (after (wait_sequence _ _) _) =>
      apply yields_after; [apply quiet_wait_sequence | left; reflexivity |]
  | |- yields _ _ (after (wait_rxDone _) _) =>
      apply yields_after; [apply quiet_wait_rxDone | left; reflexivity |]
  | |- yields _ _ (bind (call_ _) _) =>
      apply (yields_seq quiet (fun _ => True));
      [apply all_ops_yields, all_ops_one_; reflexivity | intros ? _]
  | |- yields _ _ (bind (call _) _) =>
      apply (yields_seq quiet (fun _ => True));
      [apply all_ops_yields, all_ops_one; reflexivity | intros ? _]
  | |- yields _ _ (bind (if ?b then _ else _) _) =>
      apply (yields_seq quiet (fun _ => True));
      [destruct b; apply all_ops_yields, all_ops_one_; reflexivity | intros ? _]
  | |- yields _ _ (Ret _) => constructor
  end.

Lemma quiet_transaction (fuel : nat) (reg : Z) (set : bool) (portPin status : Z) :
  yields quiet (returns_only status) (transaction fuel reg set portPin status).
Proof.
  unfold transaction. repeat quiet_step. right. reflexivity.
Qed.

Lemma quiet_setOutput (fuel : nat) (ioIndex state : Z) :
  ioIndex < 24 -> yields quiet (returns_only E_OK) (TCA6424_setOutput fuel ioIndex state).
Proof.
  intros Hio. rewrite TCA6424_setOutput_eq.
  destruct (Z.leb_spec 24 ioIndex); [lia | apply quiet_transaction].
Qed.

Lemma quiet_config (fuel : nat) (ioIndex mode : Z) :
  ioIndex < 24 -> yields quiet (returns_only E_OK) (TCA6424_config fuel ioIndex mode).
Proof.
  intros Hio. rewrite TCA6424_config_eq.
  destruct (Z.leb_spec 24 ioIndex); [lia | apply quiet_transaction].
Qed.

Lemma yields_returned (Q : option Z -> Prop) (p : Prog Op (option Z))
      (rest : Z -> Prog Op (option Z)) :
  yields quiet (returns_only E_OK) p -> Q None -> yields quiet Q (rest E_OK) ->
  yields quiet Q (returned p rest).
Proof.
  intros Hp Hn Hr. unfold returned. apply (yields_seq quiet (returns_only E_OK)); [exact Hp |].
  intros r [-> | ->]; [constructor; exact Hn | exact Hr].
Qed.

Lemma IO_MUX_MCAN_STB_valid : IO_MUX_MCAN_STB < 24.
Proof. unfold IO_MUX_MCAN_STB. destruct AM263PX_C_PACKAGE; reflexivity. Qed.

Lemma quiet_Transceiver (fuel : nat) :
  E_OK = 0 -> yields quiet (returns_only E_OK) (TCA6424_Transceiver fuel).
Proof.
  intros HE.
  assert (Hrep : yields quiet (returns_only E_OK) (TCA6424_Transceiver_report E_OK)).
  { unfold TCA6424_Transceiver_report. rewrite Z.eqb_refl. cbn [negb bind].
    constructor. right. reflexivity. }
  assert (Hsum : uint32 (E_OK + E_OK) = E_OK) by (rewrite HE; reflexivity).
  unfold TCA6424_Transceiver.
  destruct AM263PX_C_PACKAGE;
    repeat first
      [ apply yields_returned;
        [first [apply quiet_setOutput | apply quiet_config];
         first [apply IO_MUX_MCAN_STB_valid | reflexivity]
        | left; reflexivity |]
      | progress cbv zeta
      | rewrite Hsum ];
    exact Hrep.
Qed.

(** X19. With [E_OK] being 0, the failure message of
    [TCA6424_Transceiver] is never printed, whatever the driver does and
    however long the loops are run: the function prints nothing and returns
    [E_OK] if it returns, and [mcanEnableTransceiver] either has not
    returned and has printed nothing, or has returned and has printed the
    success message alone. *)
Theorem setup_failure_is_never_reported (fuel : nat) (w : World Op Globals) :
  E_OK = 0 ->
  (prints (events (TCA6424_Transceiver fuel) w) = []
   /\ returns_only E_OK (exec (TCA6424_Transceiver fuel) w).1)
  /\ ((exec (mcanEnableTransceiver fuel) w).1 = None
      /\ prints (events (mcanEnableTransceiver fuel) w) = []
      \/ (exec (mcanEnableTransceiver fuel) w).1 = Some tt
         /\ prints (events (mcanEnableTransceiver fuel) w)
            = ["IOMUX setup for CAN successful \n\r"%string]).
Proof.
  intros HE. split.
  - destruct (yields_run machine env quiet (returns_only E_OK)
                (TCA6424_Transceiver fuel) w (quiet_Transceiver fuel HE)) as [Hev Hres].
    split; [apply prints_quiet, Hev | exact Hres].
  - unfold mcanEnableTransceiver at 1 2 3 4.
    rewrite !events_seq, !exec_seq, !prints_app.
    assert (Hsetup : prints (events I2c_Buffer_Setup w) = []).
    { apply prints_quiet, all_ops_trace. unfold I2c_Buffer_Setup.
      repeat (constructor; [reflexivity | intros ?]). constructor. }
    rewrite Hsetup. cbn [app].
    generalize (exec I2c_Buffer_Setup w).2. intros w1.
    unfold returned. rewrite !events_seq, !exec_seq, !prints_app.
    destruct (yields_run machine env quiet (returns_only E_OK)
                (TCA6424_Transceiver fuel) w1 (quiet_Transceiver fuel HE)) as [Hev Hres].
    rewrite (prints_quiet _ Hev). cbn [app].
    destruct Hres as [-> | ->].
    + left. split; reflexivity.
    + right. rewrite Z.eqb_refl. split; reflexivity.
Qed.

End Runs.

(** ** Runs against sample drivers *)

Lemma std_status_distinct : 0 <> 1.
Proof. discriminate. Qed.

Lemma std_boolean_distinct : 1 <> 0.
Proof. discriminate. Qed.

(** A configuration with the values of the AUTOSAR standard types, for the
    TCA6424. *)
Definition tca6424_config : Config :=
  {| AM263PX_C_PACKAGE := false;
     E_OK := 0;
     E_NOT_OK := 1;
     TRUE := 1;
     FALSE := 0;
     CDD_I2C_SEQ_OK := 0;
     CddI2cConf_CddI2cSequence_CddI2cSequence_0 := 0;
     CddI2cConf_CddI2cSequence_CddI2cSequence_1 := 1;
     CddI2cConf_CddI2cSequence_CddI2cSequence_2 := 2;
     CddI2cConf_CddI2cChannel_CddI2cChannel_0 := 0;
     CddI2cConf_CddI2cChannel_CddI2cChannel_1 := 1;
     CddI2cConf_CddI2cChannel_CddI2cChannel_2 := 2;
     CDD_I2C_E_HW_UNIT_BUSY := 1;
     CDD_I2C_E_CHANNEL_BUSY := 2;
     CDD_I2C_E_ARBITRATION_LOSS := 3;
     CDD_I2C_E_NACK := 4;
     CDD_I2C_E_RECEIVE_SHIFT_REGISTER_FULL := 5;
     CDD_I2C_E_PARAM_QUEUE_FULL := 6;
     E_OK_NOT_OK := std_status_distinct;
     TRUE_FALSE := std_boolean_distinct |}.

(** A driver that ends every sequence at once, reads 0xA5 from the
    expander and calls the read callback after every operation. *)
Definition prompt_driver : Env Op :=
  {| oracle := fun _ o => match o with
                          | Load_rxBufferIomux _ => 0xA5
                          | _ => 0
                          end;
     irq := fun _ => 1%nat |}.

(** A driver whose sequences never end. *)
Definition busy_driver : Env Op :=
  {| oracle := fun _ o => match o with
                          | Cdd_I2c_GetSequenceResult _ => 1
                          | _ => 0
                          end;
     irq := fun _ => 1%nat |}.

(** A driver that ends every sequence at once and never calls back. *)
Definition silent_driver : Env Op :=
  {| oracle := fun _ _ => 0; irq := fun _ => 0%nat |}.

(** A driver that ends every sequence at once, reads 0xA5 from the
    expander and runs the read callback once for every start of the read
    sequence, and at no other time. *)
Definition read_driver : Env Op :=
  {| oracle := fun _ o => match o with
                          | Load_rxBufferIomux _ => 0xA5
                          | _ => 0
                          end;
     irq := fun h => match h with
                     | Ev (Cdd_I2c_AsyncTransmit 0) _ :: _ => 1%nat
                     | _ => 0%nat
                     end |}.

Lemma read_driver_responsive : @responsive tca6424_config read_driver 1.
Proof.
  split.
  - intros seq w. exists 1%nat. split; [lia | reflexivity].
  - intros fuel w. cbv zeta. intros _. exists 1%nat. split; [lia |].
    match goal with
    | |- (Free.exec _ _ (wait_rxDone 1) ?w1).1 = true =>
        assert (Hflag : rxDoneIomux (globals w1) = 1)
          by (apply (@polls_keep_globals tca6424_config read_driver);
              [apply all_ops_wait_sequence | reflexivity]);
        assert (Hr : Free.result (@machine tca6424_config) read_driver
                       Load_rxDoneIomux w1 = 1) by exact Hflag;
        generalize dependent w1
    end.
    intros w1 _ Hr. cbn [wait_rxDone bind call Free.exec]. rewrite Hr. reflexivity.
Qed.

Lemma silent_driver_sequences_end : @sequences_end tca6424_config silent_driver 1.
Proof. intros seq w. exists 1%nat. split; [lia | reflexivity]. Qed.

Lemma tca6424_codes_distinct : List.NoDup (List.map fst (@error_messages tca6424_config)).
Proof.
  repeat (apply List.NoDup_cons; [cbn; intuition discriminate |]).
  apply List.NoDup_nil.
Qed.

(** STB (pin 1 of port 2) driven high against a driver that calls back
    only when a read has been started, from a port that reads 0xA5: the
    byte written back has bit 1 set, which 0xA5 has clear, and bit 0 as
    read. *)
Lemma TCA6424_setOutput_sets_pin_witness :
  let p := @TCA6424_setOutput tca6424_config 1 17 TCA6424_OUT_STATE_HIGH in
  (Free.exec (@machine tca6424_config) read_driver p
     (@initial_world tca6424_config)).1 = Some 0
  /\ exists data,
      txBufferIomux
        (globals (Free.exec (@machine tca6424_config) read_driver p
                    (@initial_world tca6424_config)).2) = [6; data]
      /\ Z.testbit data 1 = true.
Proof.
  cbv zeta.
  destruct (@TCA6424_setOutput_sets_pin tca6424_config read_driver 1 1 17
              TCA6424_OUT_STATE_HIGH (@initial_world tca6424_config)
              read_driver_responsive (le_n 1) ltac:(lia) eq_refl)
    as (rx & r1 & r0 & r2 & data & _ & _ & Hbits & Hres & _ & Htx).
  split; [exact Hres |].
  exists data. split; [exact Htx |].
  apply (Hbits 1). lia.
Defined.

(** Pin 5 of port 0 configured as an output against the same driver: the
    byte written to the configuration register has bit 5 cleared. *)
Lemma TCA6424_config_sets_direction_witness :
  let p := @TCA6424_config tca6424_config 1 5 TCA6424_MODE_OUTPUT in
  (Free.exec (@machine tca6424_config) read_driver p
     (@initial_world tca6424_config)).1 = Some 0
  /\ exists rx data,
      In (Ev (Load_rxBufferIomux 0) rx)
         (bus_events (Free.events (@machine tca6424_config) read_driver p
                        (@initial_world tca6424_config)))
      /\ txBufferIomux
           (globals (Free.exec (@machine tca6424_config) read_driver p
                       (@initial_world tca6424_config)).2) = [0x0C; data]
      /\ Z.testbit data 5 = false
      /\ Z.testbit data 7 = Z.testbit rx 7.
Proof.
  cbv zeta.
  destruct (@TCA6424_config_sets_direction tca6424_config read_driver 1 1 5
              TCA6424_MODE_OUTPUT (@initial_world tca6424_config)
              read_driver_responsive (le_n 1) ltac:(lia) eq_refl)
    as (rx & r1 & r0 & r2 & data & _ & _ & Hbits & Hres & Hev & Htx).
  split; [exact Hres |].
  exists rx, data. split; [rewrite Hev; do 3 right; left; reflexivity |].
  split; [exact Htx |]. split.
  - apply (Hbits 5). lia.
  - apply (Hbits 7). lia.
Defined.

Lemma TCA6424_rejects_io_out_of_range_witness :
  Free.exec (@machine tca6424_config) prompt_driver
    (@TCA6424_setOutput tca6424_config 0 24 TCA6424_OUT_STATE_HIGH)
    (@initial_world tca6424_config)
  = (Some 1, @initial_world tca6424_config).
Proof.
  apply (@TCA6424_rejects_io_out_of_range tca6424_config prompt_driver 0 24
           TCA6424_OUT_STATE_HIGH (@initial_world tca6424_config)).
  lia.
Defined.

Lemma TCA6424_spins_while_sequence_busy_witness :
  (Free.exec (@machine tca6424_config) busy_driver
     (@TCA6424_setOutput tca6424_config 5 17 TCA6424_OUT_STATE_HIGH)
     (@initial_world tca6424_config)).1 = None.
Proof.
  apply (@TCA6424_spins_while_sequence_busy tca6424_config busy_driver 5 17
           TCA6424_OUT_STATE_HIGH (@initial_world tca6424_config)).
  - lia.
  - intros h E. discriminate E.
Defined.

Lemma TCA6424_waits_for_read_callback_witness :
  (Free.exec (@machine tca6424_config) silent_driver
     (@TCA6424_setOutput tca6424_config 5 17 TCA6424_OUT_STATE_HIGH)
     (@initial_world tca6424_config)).1 = None
  /\ transmits
       (Free.events (@machine tca6424_config) silent_driver
          (@TCA6424_setOutput tca6424_config 5 17 TCA6424_OUT_STATE_HIGH)
          (@initial_world tca6424_config)) = [1; 0].
Proof.
  destruct (@TCA6424_waits_for_read_callback tca6424_config silent_driver 1 5 17
              TCA6424_OUT_STATE_HIGH (@initial_world tca6424_config)
              silent_driver_sequences_end)
    as (Hres & Htx & _).
  - lia.
  - lia.
  - intros h. reflexivity.
  - intros E. discriminate E.
  - split; [exact Hres | exact Htx].
Defined.

Lemma mcanEnableTransceiver_reports_success_witness :
  prints
    (Free.events (@machine tca6424_config) read_driver
       (@mcanEnableTransceiver tca6424_config 1) (@initial_world tca6424_config))
  = ["IOMUX setup for CAN successful \n\r"%string].
Proof.
  apply (@mcanEnableTransceiver_reports_success tca6424_config read_driver 1 1
           (@initial_world tca6424_config) read_driver_responsive (le_n 1) eq_refl).
Defined.

(** A driver that accepts the three buffers. *)
Lemma I2c_Buffer_Setup_result_witness :
  (Free.exec (@machine tca6424_config) prompt_driver
     (@I2c_Buffer_Setup tca6424_config) (@initial_world tca6424_config)).1 = 0.
Proof.
  destruct (@I2c_Buffer_Setup_result tca6424_config prompt_driver
              (@initial_world tca6424_config) eq_refl)
    as (r0 & r1 & r2 & Hev & _ & Hok).
  apply Hok. vm_compute in Hev. injection Hev as <- <- <-.
  repeat split.
Defined.

Lemma I2c_Sequence_Error_Report_prints_witness :
  prints
    (Free.events (@machine tca6424_config) prompt_driver
       (@I2c_Iomux_Read_Callback_Fail tca6424_config 4) (@initial_world tca6424_config))
  = ["Sequence failed while trying to read data from IOMUX\n\r";
     "No Acknowledgement\n\r"]%string.
Proof.
  destruct (@I2c_Sequence_Error_Report_prints tca6424_config prompt_driver 4
              (@initial_world tca6424_config) tca6424_codes_distinct) as [Hknown _].
  apply (Hknown "No Acknowledgement\n\r"%string).
  do 3 right. left. reflexivity.
Defined.

Lemma setup_failure_is_never_reported_witness :
  prints
    (Free.events (@machine tca6424_config) busy_driver
       (@TCA6424_Transceiver tca6424_config 3) (@initial_world tca6424_config)) = [].
Proof.
  apply (@setup_failure_is_never_reported tca6424_config busy_driver 3
           (@initial_world tca6424_config) eq_refl).
Defined.

End McanTransceiver.

(** * The I2C multi-channel example (I2cApp.c)

    A shallow embedding of
    [mcal/examples/I2c/i2c_multichannel_app/I2cApp.c]: the application
    initialises the platform and the I2C driver, prints the version of the
    driver, runs a test that is empty, evaluates the verdict and
    deinitialises. *)

Module I2cApp.
Import Free.
Local Open Scope free_scope.

(** Constants of [I2cApp.h], [Std_Types.h] and the build: [APP_NAME], the
    standard return values, and which of the platform macros the build
    defines. *)
Class Config : Type := {
  APP_NAME : string;
  E_OK : Z;
  E_NOT_OK : Z;
  AM263X_PLATFORM : bool;
  AM263PX_PLATFORM : bool;
  AM261X_PLATFORM : bool;
  E_OK_NOT_OK : E_OK <> E_NOT_OK
}.

Inductive Op : Type :=
(* platform *)
| I2c_appPlatformInit
| I2c_appPlatformDeInit
| vimInit
| vimRegisterInterrupt (intCfg : Vim_IntCfg)
(* I2C driver *)
| Cdd_I2c_Init (cfg : Ptr)
| Cdd_I2c_GetVersionInfo
| Cdd_I2c_DeInit
(* utilities *)
| AppUtils_printf (msg : string)
| GT_trace (level : GT_Level) (fmt : string) (args : list Z)
| AppUtils_getStackUsage
| AppUtils_checkStackAndSectionCorruption
| AppUtils_logTestResult (status : AppUtils_TestStatus)
| AppUtils_SchM_Enter_EXCLUSIVE_AREA_0
| AppUtils_SchM_Exit_EXCLUSIVE_AREA_0
(* objects of the application *)
| Load_versioninfo (f : VersionField)
| Load_gTestPassed
| Store_gTestPassed (v : Z).

Arguments AppUtils_printf msg%_string.
Arguments GT_trace level fmt%_string args.

(** [static uint32 gTestPassed] *)
Record Globals : Type := { gTestPassed : Z }.

(** The flag is read from the globals, the other results are the
    environment's; a function that returns nothing and a store are recorded
    with 0. *)
Definition i2c_result (g : Globals) (answer : Z) (o : Op) : Z :=
  match o with
  | Load_gTestPassed => gTestPassed g
  | AppUtils_getStackUsage
  | AppUtils_checkStackAndSectionCorruption
  | Load_versioninfo _ => answer
  | _ => 0
  end.

Definition i2c_store (o : Op) (g : Globals) : Globals :=
  match o with
  | Store_gTestPassed v => {| gTestPassed := v |}
  | _ => g
  end.

(** The callbacks of the sequences, [I2c_Seq0_Complete] to
    [I2c_Seq3_Complete] and [I2c_Seq0_Fail] to [I2c_Seq3_Fail], return at
    once: an interrupt leaves the globals as they are. *)
Definition I2c_Seq_Complete : Prog Op unit := Ret tt.
Definition I2c_Seq_Fail (Error_Code : Z) : Prog Op unit := Ret tt.

Definition machine : Machine Op Globals :=
  {| result_of := i2c_result; store := i2c_store; isr := fun g => g |}.

Section App.
Context `{Config}.

(** [static uint32 gTestPassed = E_OK;] *)
Definition initial_world : World Op Globals :=
  {| globals := {| gTestPassed := E_OK |}; trace := [] |}.

Definition GT_0trace (level : GT_Level) (fmt : string) : Prog Op unit :=
  call_ (GT_trace level fmt []).
Definition GT_1trace (level : GT_Level) (fmt : string) (a : Z) : Prog Op unit :=
  call_ (GT_trace level fmt [a]).

(** [intCfg.intNum] of the first registration: [I2C0_INT] with
    [AM263X_PLATFORM] or [AM263PX_PLATFORM], then [I2C0_IRQ] with
    [AM261X_PLATFORM]; with none of them the field is not assigned. *)
Definition I2C0_intNum : Arg :=
  let intNum := Enum "(not assigned)" in
  let intNum := if AM263X_PLATFORM || AM263PX_PLATFORM then Enum "I2C0_INT" else intNum in
  let intNum := if AM261X_PLATFORM then Enum "I2C0_IRQ" else intNum in
  intNum.

(** [static void I2c_appInterruptConfig(void)] *)
Definition I2c_appInterruptConfig : Prog Op unit :=
  call_ vimInit ;;
  (* I2C0 interrupt *)
  let intCfg :=
    {| cfg_map := Enum "VIM_INTTYPE_IRQ";
       cfg_type := Enum "VIM_INTTRIGTYPE_PULSE";
       cfg_intNum := I2C0_intNum;
       cfg_handler := Enum "Cdd_I2c_HwUnit0_ISR";
       cfg_priority := Enum "VIM_PRIORITY_2" |} in
  call_ (vimRegisterInterrupt intCfg) ;;
  if AM263X_PLATFORM || AM263PX_PLATFORM
  then
    (* I2C2 interrupt *)
    let intCfg :=
      {| cfg_map := Enum "VIM_INTTYPE_IRQ";
         cfg_type := Enum "VIM_INTTRIGTYPE_PULSE";
         cfg_intNum := Enum "I2C2_INT";
         cfg_handler := Enum "Cdd_I2c_HwUnit2_ISR";
         cfg_priority := Enum "VIM_PRIORITY_2" |} in
    call_ (vimRegisterInterrupt intCfg)
  else Ret tt.

(** [static void I2c_appTest(void)] *)
Definition I2c_appTest : Prog Op unit := Ret tt.

(** [static void I2c_appInit(void)] *)
Definition I2c_appInit : Prog Op unit :=
  call_ I2c_appPlatformInit ;;
  I2c_appInterruptConfig ;;
  call_ (AppUtils_printf (APP_NAME +:+ ": STARTS !!!\r\n")) ;;
  call_ (Cdd_I2c_Init NULL_PTR) ;;
  (* Get and print version *)
  call_ Cdd_I2c_GetVersionInfo ;;
  GT_0trace GT_INFO " \r\n" ;;
  GT_0trace GT_INFO " I2C MCAL Version Info\r\n" ;;
  GT_0trace GT_INFO " ---------------------\r\n" ;;
  v <- call (Load_versioninfo vendorID) ;;
  GT_1trace GT_INFO " Vendor ID           : %d\r\n" v ;;
  v <- call (Load_versioninfo moduleID) ;;
  GT_1trace GT_INFO " Module ID           : %d\r\n" v ;;
  v <- call (Load_versioninfo sw_major_version) ;;
  GT_1trace GT_INFO " SW Major Version    : %d\r\n" v ;;
  v <- call (Load_versioninfo sw_minor_version) ;;
  GT_1trace GT_INFO " SW Minor Version    : %d\r\n" v ;;
  v <- call (Load_versioninfo sw_patch_version) ;;
  GT_1trace GT_INFO " SW Patch Version    : %d\r\n" v ;;
  GT_0trace GT_INFO " \r\n".

(** [static void I2c_appDeInit(void)] *)
Definition I2c_appDeInit : Prog Op unit :=
  usage <- call AppUtils_getStackUsage ;;
  GT_1trace GT_INFO (APP_NAME +:+ ": Stack Usage: %d bytes\n\r") usage ;;
  corrupt <- call AppUtils_checkStackAndSectionCorruption ;;
  (if negb (corrupt =? E_OK)
   then call_ (Store_gTestPassed E_NOT_OK) ;;
        GT_0trace GT_ERR (APP_NAME +:+ ": Stack/section corruption!!!\n\r")
   else Ret tt) ;;
  passed <- call Load_gTestPassed ;;
  (if E_OK =? passed
   then call_ (AppUtils_printf (APP_NAME +:+ ": DONE (Passed) !!!\r\n")) ;;
        call_ (AppUtils_printf (APP_NAME +:+ ": All tests have passed\r\n")) ;;
        call_ (AppUtils_logTestResult APP_UTILS_TEST_STATUS_PASS)
   else call_ (AppUtils_printf (APP_NAME +:+ ": DONE (Failed) !!!\r\n")) ;;
        call_ (AppUtils_logTestResult APP_UTILS_TEST_STATUS_FAIL)) ;;
  call_ Cdd_I2c_DeInit ;;
  call_ I2c_appPlatformDeInit.

(** [int main(void)] *)
Definition main : Prog Op Z :=
  I2c_appInit ;;
  I2c_appTest ;;
  I2c_appDeInit ;;
  Ret 0.

(** The exclusive-area hooks the drivers call. *)
Definition SchM_Enter_Cdd_I2c_I2C_EXCLUSIVE_AREA_0 : Prog Op unit :=
  call_ AppUtils_SchM_Enter_EXCLUSIVE_AREA_0.
Definition SchM_Exit_Cdd_I2c_I2C_EXCLUSIVE_AREA_0 : Prog Op unit :=
  call_ AppUtils_SchM_Exit_EXCLUSIVE_AREA_0.
Definition SchM_Enter_Mcu_MCU_EXCLUSIVE_AREA_0 : Prog Op unit :=
  call_ AppUtils_SchM_Enter_EXCLUSIVE_AREA_0.
Definition SchM_Exit_Mcu_MCU_EXCLUSIVE_AREA_0 : Prog Op unit :=
  call_ AppUtils_SchM_Exit_EXCLUSIVE_AREA_0.
Definition SchM_Enter_Port_PORT_EXCLUSIVE_AREA_0 : Prog Op unit :=
  call_ AppUtils_SchM_Enter_EXCLUSIVE_AREA_0.
Definition SchM_Exit_Port_PORT_EXCLUSIVE_AREA_0 : Prog Op unit :=
  call_ AppUtils_SchM_Exit_EXCLUSIVE_AREA_0.

End App.

(** ** Properties *)

(** The calls that initialise and deinitialise the platform and the
    driver, and the report of the verdict, in order. *)
Definition is_lifecycle (o : Op) : bool :=
  match o with
  | I2c_appPlatformInit | I2c_appPlatformDeInit
  | Cdd_I2c_Init _ | Cdd_I2c_DeInit
  | AppUtils_logTestResult _ => true
  | _ => false
  end.

Definition lifecycle (evs : list (Event Op)) : list Op :=
  List.map ev_op (List.filter (fun e => is_lifecycle (ev_op e)) evs).

(** The results of the corruption check, in order. *)
Definition is_check (o : Op) : bool :=
  match o with
  | AppUtils_checkStackAndSectionCorruption => true
  | _ => false
  end.

Definition checks (evs : list (Event Op)) : list Z :=
  List.map ev_ret (List.filter (fun e => is_check (ev_op e)) evs).

Lemma checks_app (l1 l2 : list (Event Op)) : checks (l1 ++ l2) = checks l1 ++ checks l2.
Proof. unfold checks. rewrite List.filter_app, List.map_app. reflexivity. Qed.

Lemma checks_none (evs : list (Event Op)) :
  Forall (fun e => negb (is_check (ev_op e)) = true) evs -> checks evs = [].
Proof.
  induction 1 as [| e l He Hl IH]; [reflexivity |].
  unfold checks in *. cbn [List.filter].
  destruct (is_check (ev_op e)); [discriminate He | exact IH].
Qed.

Definition writes_flag (o : Op) : bool :=
  match o with
  | Store_gTestPassed _ => true
  | _ => false
  end.

Lemma lifecycle_app (l1 l2 : list (Event Op)) :
  lifecycle (l1 ++ l2) = lifecycle l1 ++ lifecycle l2.
Proof. unfold lifecycle. rewrite List.filter_app, List.map_app. reflexivity. Qed.

Section Runs.
Context `{Config}.
Variable env : Env Op.

Local Abbreviation exec := (Free.exec machine env).
Local Abbreviation events := (Free.events machine env).

Lemma I2c_appInit_quiet :
  all_ops (fun o => negb (writes_flag o) && negb (is_check o)) I2c_appInit.
Proof.
  unfold I2c_appInit, I2c_appInterruptConfig, GT_0trace, GT_1trace.
  repeat first
    [ apply all_ops_one_; reflexivity
    | apply all_ops_one; reflexivity
    | apply all_ops_seq; [| intros ?]
    | constructor
    | match goal with |- all_ops _ (if ?b then _ else _) => destruct b end
    | progress cbv zeta ].
Qed.

Lemma I2c_appInit_flag (w : World Op Globals) :
  gTestPassed (globals (exec I2c_appInit w).2) = gTestPassed (globals w).
Proof.
  apply (exec_invariant machine env (fun o => negb (writes_flag o))
           (fun g => gTestPassed g = gTestPassed (globals w)));
    [| | apply (all_ops_impl (fun o => negb (writes_flag o) && negb (is_check o)));
         [intros o Ho; apply andb_prop in Ho; apply Ho | apply I2c_appInit_quiet]
     | reflexivity].
  - intros o g Ho Hg. destruct o; try discriminate Ho; exact Hg.
  - intros g Hg. exact Hg.
Qed.

Lemma I2c_appInit_lifecycle (w : World Op Globals) :
  lifecycle (events I2c_appInit w) = [I2c_appPlatformInit; Cdd_I2c_Init NULL_PTR].
Proof.
  unfold I2c_appInit, I2c_appInterruptConfig.
  destruct (AM263X_PLATFORM || AM263PX_PLATFORM); reflexivity.
Qed.

Lemma callbacks_keep_globals (n : nat) (g : Globals) : Nat.iter n (fun g : Globals => g) g = g.
Proof. induction n as [| n IH]; [reflexivity | exact IH]. Qed.

Lemma globals_step (o : Op) (r : Z) (w : World Op Globals) :
  globals (Free.deliver machine env (Free.commit machine o r w)) = i2c_store o (globals w).
Proof. cbn. apply callbacks_keep_globals. Qed.

Lemma result_load_flag (w : World Op Globals) :
  Free.result machine env Load_gTestPassed w = gTestPassed (globals w).
Proof. reflexivity. Qed.

(** What [I2c_appDeInit] does, by the result of the corruption check and
    the flag it finds. *)
Lemma I2c_appDeInit_lifecycle (w : World Op Globals) :
  exists corrupt : Z,
    checks (events I2c_appDeInit w) = [corrupt]
    /\ lifecycle (events I2c_appDeInit w)
       = [AppUtils_logTestResult
            (if (corrupt =? E_OK) && (gTestPassed (globals w) =? E_OK)
             then APP_UTILS_TEST_STATUS_PASS else APP_UTILS_TEST_STATUS_FAIL);
          Cdd_I2c_DeInit; I2c_appPlatformDeInit].
Proof.
  unfold I2c_appDeInit, GT_0trace, GT_1trace.
  cbn [bind call call_ Free.events].
  set (w2 := Free.deliver machine env (Free.commit machine _ _ (Free.deliver machine env _))).
  assert (Hw2 : gTestPassed (globals w2) = gTestPassed (globals w)).
  { unfold w2. rewrite !globals_step. reflexivity. }
  set (corrupt := Free.result machine env AppUtils_checkStackAndSectionCorruption w2).
  clearbody corrupt. exists corrupt.
  destruct (Z.eqb_spec corrupt E_OK) as [Hc | Hc]; cbn [negb andb bind call call_ Free.events].
  - rewrite !result_load_flag, !globals_step. cbn [i2c_store].
    rewrite Hw2, (Z.eqb_sym E_OK).
    destruct (gTestPassed (globals w) =? E_OK); split; reflexivity.
  - rewrite !result_load_flag, !globals_step. cbn [i2c_store gTestPassed].
    destruct (Z.eqb_spec E_OK E_NOT_OK) as [E | _]; [destruct (E_OK_NOT_OK E) |].
    split; reflexivity.
Qed.

(** X20. Whatever the drivers answer, a run of [main] of the I2C example
    initialises the platform and then the driver, checks for stack and
    section corruption once, reports one verdict, PASS exactly when the
    check returned [E_OK], then deinitialises the driver and the platform,
    and returns 0. *)
Theorem I2cApp_verdict_follows_corruption_check :
  exists corrupt : Z,
    checks (events main initial_world) = [corrupt]
    /\ lifecycle (events main initial_world)
       = [I2c_appPlatformInit; Cdd_I2c_Init NULL_PTR;
          AppUtils_logTestResult
            (if corrupt =? E_OK
             then APP_UTILS_TEST_STATUS_PASS else APP_UTILS_TEST_STATUS_FAIL);
          Cdd_I2c_DeInit; I2c_appPlatformDeInit]
    /\ (exec main initial_world).1 = 0.
Proof.
  unfold main, I2c_appTest. cbn [bind].
  rewrite events_seq, exec_seq, events_seq, exec_seq.
  cbn [Free.events Free.exec fst]. rewrite app_nil_r.
  destruct (I2c_appDeInit_lifecycle (exec I2c_appInit initial_world).2)
    as (corrupt & Hcheck & Hlife).
  exists corrupt.
  rewrite checks_app, lifecycle_app, Hcheck, Hlife, I2c_appInit_lifecycle,
    I2c_appInit_flag.
  rewrite (checks_none (events I2c_appInit initial_world)).
  - cbn [initial_world globals gTestPassed]. rewrite Z.eqb_refl, andb_true_r.
    repeat split.
  - apply (all_ops_trace machine env (fun o => negb (is_check o))).
    apply (all_ops_impl (fun o => negb (writes_flag o) && negb (is_check o)));
      [intros o Ho; apply andb_prop in Ho; apply Ho |].
    apply I2c_appInit_quiet.
Qed.

End Runs.

End I2cApp.
